(** * odml-ui: editor tabs and the validation window

    A shallow embedding of [odmlui/editor_tab.py], of its predecessor
    [odmlui/EditorTab.py] and of [odmlui/validation_window.py].

    Python objects live in a store and are named by their identity, a
    number handed out by an allocation counter.  Methods are computations in
    a state-and-exception monad over that store.  Calls that leave the three
    files (the GUI toolkit, the main window, the odml library) are recorded,
    in order, in a trace of effects; what such a call answers is taken from
    an interface of the collaborator. *)

From Stdlib Require Import ZArith OrdersEx Ascii String.
From stdpp Require Import gmap strings list sorting.

#[local] Set Warnings "-clear-no-such-hyp,-register-all".

Local Open Scope string_scope.
Local Open Scope list_scope.

(** ** Python strings

    A [str] is kept as the bytes of its UTF-8 encoding; comparing two such
    byte strings position by position orders them as Python orders the
    code points. *)

Module Py.

(** [a + b] and ["...%s..." % x] on strings. *)
Definition cat (parts : list string) : string :=
  foldr String.append "" parts.

(** [str.lower] on the ASCII letters. *)
Definition lower_ascii (c : ascii) : ascii :=
  let n := nat_of_ascii c in
  if ((65 <=? n) && (n <=? 90))%nat then ascii_of_nat (n + 32) else c.

Fixpoint lower (s : string) : string :=
  match s with
  | EmptyString => EmptyString
  | String c r => String (lower_ascii c) (lower r)
  end.

(** [posixpath.basename]: what follows the last slash. *)
Fixpoint basename_aux (s acc : string) : string :=
  match s with
  | EmptyString => acc
  | String c r =>
      if Ascii.eqb c "/"%char then basename_aux r r else basename_aux r acc
  end.

Definition basename (p : string) : string := basename_aux p p.

(** The line feed. *)
Definition nl : string := String "010"%char EmptyString.

(** [str(x)] where [x] is a string or [None]. *)
Definition str (x : option string) : string :=
  match x with Some s => s | None => "None" end.

(** Truth value of an optional string: [None] and [''] are false. *)
Definition truthy (x : option string) : bool :=
  match x with Some (String _ _) => true | _ => false end.

End Py.

(** ** What the odml library and the rest of the package provide *)

(** An entry of [Validation.errors]: the node it is about, and what
    [err.path], [err.msg] and [err.is_error] answer. *)
Record ValidationError := mkError {
  obj : nat;
  path : string;
  msg : string;
  is_error : bool
}.

Inductive LoadError :=
| InvalidVersionException
| LoadException (text : string).

(** A section of a document with the sections below it. *)
Inductive SecTree (A : Type) :=
| sec_node (s : A) (subs : list (SecTree A)).
Arguments sec_node {A} s subs.

(** The odml library: document contents, validation, reading and writing
    files.  [Disk] is whatever the file system holds. *)
Class Odml := {
  Doc : Type;
  Sec : Type;
  Disk : Type;
  odml_Document : Doc;
  odml_Section : string -> Sec;
  doc_append : Doc -> SecTree Sec -> Doc;
  sections : Doc -> list (SecTree Sec);
  clean : Doc -> Doc;
  finalize : Doc -> Doc;
  Validation : Doc -> list ValidationError;
  odml_load : Disk -> string -> string -> LoadError + Doc;
  ODMLReader_from_file : Disk -> string -> string -> string + Doc;
  odml_save : Disk -> Doc -> string -> string -> string + Disk;
  create_mapping : Doc -> Doc
}.

(** [odmlui/helpers.py]. *)
Class Helpers `{Odml} := {
  uri_to_path : string -> string;
  get_parser_for_uri : string -> string;
  get_extension : string -> string;
  get_parser_for_file_type : string -> option string;
  handle_section_import : SecTree Sec -> Doc -> Doc;
  create_pseudo_values : Sec -> Doc -> Doc
}.

(** The toolkit's answer to [tree_view.size_request()]. *)
Class Gtk := {
  size_request : list (string * nat * string) -> Z * Z
}.

(** ** [odmlui/validation_window.py] *)

Module validation_window.

Definition COL_PATH : nat := 0.
Definition COL_INDEX : nat := 1.
Definition COL_DESC : nat := 2.

Inductive ColumnType := col_str | col_int.

(** A row of [gtk.ListStore(str, int, str)]. *)
Abbreviation Row := (string * nat * string)%type (only parsing).

Record Column := mkColumn {
  name : string;
  data : nat;
  col_id : nat
}.

(** The fields of a [ValidationView], those of its [TreeView] base
    included. *)
Record ValidationView := mkView {
  _store_types : list ColumnType;
  _store : list Row;
  columns : list Column;
  errors : list ValidationError;
  _treeview_shown : bool
}.

(** Modelled from the spec: [TreeView.add_column] of [odmlui/tree_view.py]
    is not among the sources; a call adds one visible column with the given
    title, showing the given store column, after the columns already
    there. *)
Definition add_column (name : string) (data col_id : nat)
    (self : ValidationView) : ValidationView :=
  mkView (_store_types self) (_store self)
         (columns self ++ [mkColumn name data col_id])
         (errors self) (_treeview_shown self).

Definition ValidationView__init__ : ValidationView :=
  let self := mkView [col_str; col_int; col_str] [] [] [] false in
  let self := add_column "Path" COL_PATH COL_PATH self in
  let self := add_column "Description" COL_DESC COL_DESC self in
  mkView (_store_types self) (_store self) (columns self) (errors self) true.

(** The character U+26A0, as its three UTF-8 bytes. *)
Definition warn : string :=
  String "226"%char (String "154"%char (String "160"%char EmptyString)).

(** An entry of [elements]: [(err.path, j, err.msg, err.is_error)]. *)
Abbreviation Element := (string * nat * string * bool)%type (only parsing).

(** [enumerate(self.errors)], counting from [j]. *)
Fixpoint enumerate_from (j : nat) (errs : list ValidationError) : list Element :=
  match errs with
  | [] => []
  | err :: rest => (path err, j, msg err, is_error err) :: enumerate_from (S j) rest
  end.

(** Python's order on tuples: the first position that differs decides. *)
Definition compare_element (a b : Element) : comparison :=
  let '(p1, j1, m1, e1) := a in
  let '(p2, j2, m2, e2) := b in
  match String.compare p1 p2 with
  | Eq =>
      match Nat.compare j1 j2 with
      | Eq =>
          match String.compare m1 m2 with
          | Eq => Bool.compare e1 e2
          | c => c
          end
      | c => c
      end
  | c => c
  end.

Definition element_leb (a b : Element) : bool :=
  match compare_element a b with Gt => false | _ => true end.

Definition element_le (a b : Element) : Prop := Is_true (element_leb a b).

#[global] Instance element_le_dec : RelDecision element_le.
Proof. intros a b. unfold element_le. apply _. Defined.

(** [elements.sort()]. *)
Definition sort (elements : list Element) : list Element :=
  merge_sort element_le elements.

(** The body of the loop over the sorted elements. *)
Definition row_of (e : Element) : Row :=
  let '(path, idx, msg, is_error) := e in
  let path :=
    if negb is_error
    then Py.cat ["<span foreground='darkgrey'>"; path; "</span>"]
    else path in
  let msg :=
    Py.cat ["<span foreground='"; (if is_error then "red" else "orange");
            "'>"; warn; "</span> "] +:+ msg in
  (path, idx, msg).

Definition fill (self : ValidationView) : ValidationView :=
  let store := [] in
  let elements := enumerate_from 0 (errors self) in
  let elements := sort elements in
  let store := foldl (fun store e => store ++ [row_of e]) store elements in
  mkView (_store_types self) store (columns self) (errors self)
         (_treeview_shown self).

Definition set_errors (errs : list ValidationError)
    (self : ValidationView) : ValidationView :=
  fill (mkView (_store_types self) (_store self) (columns self) errs
               (_treeview_shown self)).

Definition max_height : Z := 768.
Definition max_width : Z := 1024.

(** A [ValidationWindow] once its constructor has run. *)
Record ValidationWindow := mkWindow {
  tab : nat;
  title : string;
  curr_view : ValidationView;
  on_select_object : nat;
  size : Z * Z
}.

(** The constructor, given what it reads from the tab: [tab.get_name()],
    [tab.window] and [tab.document.validation_result.errors]. *)
Definition ValidationWindow__init__ `{Gtk} (tab : nat) (tab_name : string)
    (tab_window : nat) (errs : list ValidationError) : ValidationWindow :=
  let title := Py.cat ["Validation errors in "; tab_name] in
  let curr_view := ValidationView__init__ in
  let curr_view := set_errors errs curr_view in
  let '(width, height) := size_request (_store curr_view) in
  let width := Z.min (width + 10) max_width in
  let height := Z.min (height + 10) max_height in
  mkWindow tab title curr_view tab_window (width, height).

End validation_window.

(** ** Vocabulary for the order of the rows *)

(** A comparison function that decides a strict total order. *)
Record is_order {A} (cmp : A -> A -> comparison) : Prop := mk_is_order {
  order_refl : forall a, cmp a a = Eq;
  order_eq : forall a b, cmp a b = Eq -> a = b;
  order_antisym : forall a b, cmp b a = CompOpp (cmp a b);
  order_trans : forall a b c, cmp a b = Lt -> cmp b c = Lt -> cmp a c = Lt
}.

(** Pairs compared by their first components, then by their second. *)
Definition lex {A B} (cA : A -> A -> comparison) (cB : B -> B -> comparison)
    (x y : A * B) : comparison :=
  match cA x.1 y.1 with
  | Eq => cB x.2 y.2
  | c => c
  end.

(** The entry of [elements] for the error at index [j]. *)
Definition element_of (j : nat) (err : ValidationError)
    : string * nat * string * bool :=
  (path err, j, msg err, is_error err).

(** The row of the store for the error at index [j]. *)
Definition row_for (j : nat) (err : ValidationError) : string * nat * string :=
  validation_window.row_of (element_of j err).

(** ** The store of objects *)

Inductive Klass := EditorTab_class | MappingEditorTab_class.

#[global] Instance Klass_eq_dec : EqDecision Klass.
Proof. solve_decision. Defined.

(** The attributes of an [EditorTab] instance (or of an instance of its
    subclass); objects are referred to by identity. *)
Record Tab := mkTab {
  klass : Klass;
  window : nat;
  command_manager : nat;
  document : option nat;
  file_uri : option string;
  edited : nat;
  _clones : nat
}.

(** An odml document object: its contents, the [validation_result]
    attribute when it is set (kept as its [errors]), and, on a mapping
    document, the document it stands for. *)
Record Document `{Odml} := mkDocument {
  body : Doc;
  validation_result : option (list ValidationError);
  _proxy_obj : option nat
}.

(** Modelled from the spec: [odmlui/command_manager.py] is not among the
    sources.  A command manager holds the commands executed so far; its
    length is their number and [reset] forgets them.  [enable_undo],
    [enable_redo] and [error_func] are the three attributes the tab's
    constructor assigns: two bound methods of a tab and one of a window. *)
Record CommandManager := mkCommandManager {
  commands : list nat;
  cm_enable_undo : nat;
  cm_enable_redo : nat;
  cm_error_func : nat
}.

Definition CommandManager__len__ (cm : CommandManager) : nat :=
  length (commands cm).

Definition CommandManager_reset (cm : CommandManager) : CommandManager :=
  mkCommandManager [] (cm_enable_undo cm) (cm_enable_redo cm) (cm_error_func cm).

(** Modelled from the spec: [odmlui/treemodel/event.py] is not among the
    sources.  A change context carries the payload it was built with and the
    two attributes the tab assigns; [pass_on] hands it to a document node. *)
Record ChangeContext := mkChangeContext {
  val : string * bool;
  post_change : bool;
  action : string
}.

(** Calls that leave the files embedded here, in the order they happen. *)
Inductive Effect :=
| show_info (w : nat) (text : string)
| window_enable_undo (w : nat) (enable : bool)
| window_enable_redo (w : nat) (enable : bool)
| registry_add (w : nat) (doc : nat)
| set_welcome (w : nat)
| ErrorDialog (parent : option nat) (header text : string)
| pass_on (ctx : ChangeContext) (node : nat)
| ValidationWindow_show (vw : validation_window.ValidationWindow)
| ValidationWindow_legacy_show (tab : nat)
| unmap_document (proxied : nat).

Inductive exn :=
| AttributeError
| ValueError
| UnboundLocalError
| Dangling.

Section Store.
Context `{Helpers, Gtk}.

Record State := mkState {
  tabs : gmap nat Tab;
  lists : gmap nat (list nat);
  documents : gmap nat Document;
  command_managers : gmap nat CommandManager;
  current_tab : gmap nat nat;
  disk : Disk;
  trace : list Effect;
  next_id : nat
}.

Inductive result (A : Type) :=
| Ok (a : A) (st : State)
| Raised (e : exn) (st : State).
#[global] Arguments Ok {A} a st.
#[global] Arguments Raised {A} e st.

Definition M (A : Type) : Type := State -> result A.

#[global] Instance M_ret : MRet M := fun A (a : A) st => Ok a st.

#[global] Instance M_bind : MBind M := fun A B (k : A -> M B) (m : M A) st =>
  match m st with
  | Ok a st' => k a st'
  | Raised e st' => Raised e st'
  end.

Definition raise {A} (e : exn) : M A := fun st => Raised e st.

Definition get_state : M State := fun st => Ok st st.

Definition modify (f : State -> State) : M unit := fun st => Ok () (f st).

(** [for x in xs: body(x)], for a body that neither breaks nor returns. *)
Fixpoint for_each {A} (xs : list A) (body : A -> M unit) : M unit :=
  match xs with
  | [] => mret ()
  | x :: rest => body x ;; for_each rest body
  end.

(** Changes of one component of the state. *)
Definition with_tab (r : nat) (x : Tab) (st : State) : State :=
  mkState (<[r := x]> (tabs st)) (lists st) (documents st) (command_managers st)
          (current_tab st) (disk st) (trace st) (next_id st).

Definition with_list (r : nat) (x : list nat) (st : State) : State :=
  mkState (tabs st) (<[r := x]> (lists st)) (documents st) (command_managers st)
          (current_tab st) (disk st) (trace st) (next_id st).

Definition with_doc (r : nat) (x : Document) (st : State) : State :=
  mkState (tabs st) (lists st) (<[r := x]> (documents st)) (command_managers st)
          (current_tab st) (disk st) (trace st) (next_id st).

Definition with_command_manager (r : nat) (x : CommandManager) (st : State) : State :=
  mkState (tabs st) (lists st) (documents st) (<[r := x]> (command_managers st))
          (current_tab st) (disk st) (trace st) (next_id st).

Definition with_disk (x : Disk) (st : State) : State :=
  mkState (tabs st) (lists st) (documents st) (command_managers st)
          (current_tab st) x (trace st) (next_id st).

Definition add_trace (es : list Effect) (st : State) : State :=
  mkState (tabs st) (lists st) (documents st) (command_managers st)
          (current_tab st) (disk st) (trace st ++ es) (next_id st).

Definition bump (st : State) : State :=
  mkState (tabs st) (lists st) (documents st) (command_managers st)
          (current_tab st) (disk st) (trace st) (S (next_id st)).

(** A new object identity. *)
Definition alloc : M nat := fun st => Ok (next_id st) (bump st).

Definition emit (e : Effect) : M unit := modify (add_trace [e]).

(** Reading an object through a reference. *)
Definition deref {A} (heap : State -> gmap nat A) (r : nat) : M A := fun st =>
  match heap st !! r with
  | Some x => Ok x st
  | None => Raised Dangling st
  end.

Definition the_tab : nat -> M Tab := deref tabs.
Definition the_list : nat -> M (list nat) := deref lists.
Definition the_doc : nat -> M Document := deref documents.
Definition the_command_manager : nat -> M CommandManager := deref command_managers.

Definition put_tab (r : nat) (x : Tab) : M unit := modify (with_tab r x).
Definition put_list (r : nat) (x : list nat) : M unit := modify (with_list r x).
Definition put_doc (r : nat) (x : Document) : M unit := modify (with_doc r x).
Definition put_command_manager (r : nat) (x : CommandManager) : M unit :=
  modify (with_command_manager r x).
Definition put_disk (x : Disk) : M unit := modify (with_disk x).

(** Assigning one attribute of an object. *)
Definition update_tab (r : nat) (f : Tab -> Tab) : M unit :=
  x ← the_tab r; put_tab r (f x).

Definition update_doc (r : nat) (f : Document -> Document) : M unit :=
  x ← the_doc r; put_doc r (f x).

Definition set_document (d : option nat) (t : Tab) : Tab :=
  mkTab (klass t) (window t) (command_manager t) d (file_uri t) (edited t) (_clones t).
Definition set_file_uri (u : option string) (t : Tab) : Tab :=
  mkTab (klass t) (window t) (command_manager t) (document t) u (edited t) (_clones t).
Definition set_edited (n : nat) (t : Tab) : Tab :=
  mkTab (klass t) (window t) (command_manager t) (document t) (file_uri t) n (_clones t).
Definition set__clones (l : nat) (t : Tab) : Tab :=
  mkTab (klass t) (window t) (command_manager t) (document t) (file_uri t) (edited t) l.

Definition set_body (b : Doc) (d : Document) : Document :=
  mkDocument _ b (validation_result d) (_proxy_obj d).
Definition set_validation_result (v : option (list ValidationError))
    (d : Document) : Document :=
  mkDocument _ (body d) v (_proxy_obj d).

(** [self.document.<attribute>]: fails on [None]. *)
Definition the_document (t : Tab) : M nat :=
  match document t with
  | Some d => mret d
  | None => raise AttributeError
  end.

(** [for sec in document.sections: f(sec)], on the contents. *)
Definition for_sections (f : SecTree Sec -> Doc -> Doc) (b : Doc) : Doc :=
  foldl (fun b sec => f sec b) b (sections b).

End Store.

(** ** [odmlui/editor_tab.py] *)

Module editor_tab.
Section EditorTab.
Context `{Helpers, Gtk}.

(** [klass(window, cmdm)]: the constructor, run for an instance of
    [klass]. *)
Definition __init__ (klass : Klass) (window : nat) (cmdm : option nat) : M nat :=
  self ← alloc;
  cmdm ← match cmdm with
         | None =>
             cmdm ← alloc;
             put_command_manager cmdm (mkCommandManager [] self self window) ;;
             mret cmdm
         | Some cmdm => mret cmdm
         end;
  clones ← alloc;
  put_list clones [self] ;;
  put_tab self (mkTab klass window cmdm None None 0 clones) ;;
  mret self.

Definition new (self : nat) (doc : option nat) : M unit :=
  tab ← the_tab self;
  doc ← match doc with
        | None =>
            doc ← alloc;
            let sec := sec_node (odml_Section "Default Section") [] in
            put_doc doc (mkDocument _ (doc_append odml_Document sec) None None) ;;
            mret doc
        | Some doc => mret doc
        end;
  emit (registry_add (window tab) doc) ;;
  update_tab self (set_document (Some doc)) ;;
  update_tab self (set_file_uri None).

Definition load (self : nat) (uri : string) : M bool :=
  update_tab self (set_file_uri (Some uri)) ;;
  tab ← the_tab self;
  let file_path := uri_to_path uri in
  let parser := get_parser_for_uri file_path in
  st ← get_state;
  match odml_load (disk st) file_path parser with
  | inl InvalidVersionException =>
      let curr_file := Py.basename file_path in
      let err_header := Py.cat ["Cannot open file '"; curr_file; "'."] in
      let err_msg :=
        Py.cat ["You are trying to open an odML file of an outdated format. ";
                Py.nl; Py.nl; "Use 'File .. import' to convert and open files of ";
                "a previous odML format."] in
      emit (ErrorDialog (Some (window tab)) err_header err_msg) ;;
      emit (set_welcome (window tab)) ;;
      mret false
  | inl (LoadException exc) =>
      emit (ErrorDialog (Some (window tab))
              (Py.cat ["Error parsing '"; file_path; "'"]) exc) ;;
      emit (set_welcome (window tab)) ;;
      mret false
  | inr loaded =>
      doc ← alloc;
      put_doc doc (mkDocument _ loaded None None) ;;
      update_tab self (set_document (Some doc)) ;;
      update_doc doc (fun d => set_body (finalize (body d)) d) ;;
      update_doc doc (fun d => set_body (for_sections handle_section_import (body d)) d) ;;
      emit (registry_add (window tab) doc) ;;
      emit (show_info (window tab)
              (Py.cat ["Loading of "; Py.basename file_path; " done!"])) ;;
      mret true
  end.

Definition _enable_undo (self : nat) (enable : bool) : M unit :=
  tab ← the_tab self;
  st ← get_state;
  if decide (current_tab st !! window tab = Some self)
  then emit (window_enable_undo (window tab) enable)
  else mret ().

Definition enable_undo (self : nat) (enable : bool) : M unit :=
  me ← the_tab self;
  clones ← the_list (_clones me);
  for_each clones (fun tab => _enable_undo tab enable).

Definition _enable_redo (self : nat) (enable : bool) : M unit :=
  tab ← the_tab self;
  st ← get_state;
  if decide (current_tab st !! window tab = Some self)
  then emit (window_enable_redo (window tab) enable)
  else mret ().

Definition enable_redo (self : nat) (enable : bool) : M unit :=
  me ← the_tab self;
  clones ← the_list (_clones me);
  for_each clones (fun tab => _enable_redo tab enable).

Definition reset (self : nat) : M unit :=
  update_tab self (set_edited 0) ;;
  tab ← the_tab self;
  cm ← the_command_manager (command_manager tab);
  put_command_manager (command_manager tab) (CommandManager_reset cm) ;;
  enable_undo self false ;;
  enable_redo self false.

Definition is_modified (self : nat) : M bool :=
  tab ← the_tab self;
  cm ← the_command_manager (command_manager tab);
  mret (negb (Nat.eqb (edited tab) (CommandManager__len__ cm))).

Definition update_validation_error_objects (self : nat)
    (errors : list ValidationError) : M unit :=
  for_each errors (fun err =>
    let change_event := mkChangeContext ("_error", true) true "set" in
    emit (pass_on change_event (obj err))).

Definition remove_validation (self : nat) : M unit :=
  tab ← the_tab self;
  match document tab with
  | None => mret ()
  | Some d =>
      doc ← the_doc d;
      match validation_result doc with
      | None => mret ()
      | Some errors =>
          put_doc d (set_validation_result None doc) ;;
          update_validation_error_objects self errors
      end
  end.

Definition get_name (self : nat) : M string :=
  tab ← the_tab self;
  mret (Py.basename (Py.str (file_uri tab))).

(** [ValidationWindow(tab)]. *)
Definition ValidationWindow (tab : nat) : M validation_window.ValidationWindow :=
  name ← get_name tab;
  me ← the_tab tab;
  d ← the_document me;
  doc ← the_doc d;
  match validation_result doc with
  | None => raise AttributeError
  | Some errors =>
      mret (validation_window.ValidationWindow__init__ tab name (window me) errors)
  end.

Definition validate (self : nat) : M unit :=
  remove_validation self ;;
  tab ← the_tab self;
  d ← the_document tab;
  doc ← the_doc d;
  let validation := Validation (body doc) in
  put_doc d (set_validation_result (Some validation) doc) ;;
  if (0 <? length validation)%nat then
    update_validation_error_objects self validation ;;
    vw ← ValidationWindow self;
    emit (ValidationWindow_show vw)
  else
    emit (show_info (window tab) "The document is valid. No errors found.") ;;
    remove_validation self.

(** The loop of [save] over the errors: it leaves [save] at the first one
    that is an error, and falls through to [rest] when there is none. *)
Fixpoint save_loop (self : nat) (errors : list ValidationError)
    (rest : M (option bool)) : M (option bool) :=
  match errors with
  | [] => rest
  | err :: errors =>
      if is_error err then
        tab ← the_tab self;
        emit (show_info (window tab)
                "Invalid document. Please fix errors (red) before saving.") ;;
        validate self ;;
        mret None
      else save_loop self errors rest
  end.

(** The parser [save] settles on, and the path it writes to. *)
Definition save_parser (uri : string) (file_type : option string) : string :=
  let parser := None in
  let parser :=
    if Py.truthy file_type
    then get_parser_for_file_type (default "" file_type)
    else parser in
  if negb (Py.truthy parser) then get_parser_for_uri uri
  else default "" parser.

Definition save_file_path (uri : string) (file_type : option string) : string :=
  let parser := save_parser uri file_type in
  let file_path := uri_to_path uri in
  let ext := get_extension file_path in
  if negb (String.eqb ext parser)
  then Py.cat [file_path; "."; Py.lower parser]
  else file_path.

(** [save] answers [None] (a bare [return]) or [True]. *)
Definition save (self : nat) (uri : string) (file_type : option string)
    : M (option bool) :=
  remove_validation self ;;
  tab ← the_tab self;
  d ← the_document tab;
  doc ← the_doc d;
  let validation := Validation (body doc) in
  put_doc d (set_validation_result (Some validation) doc) ;;
  save_loop self validation (
    update_doc d (fun doc => set_body (clean (body doc)) doc) ;;
    let parser := save_parser uri file_type in
    let file_path := save_file_path uri file_type in
    doc ← the_doc d;
    st ← get_state;
    match odml_save (disk st) (body doc) file_path parser with
    | inl exc =>
        emit (show_info (window tab) (Py.cat ["Save failed: "; exc])) ;;
        mret None
    | inr written =>
        put_disk written ;;
        update_doc d (fun doc => set_body (finalize (body doc)) doc) ;;
        update_doc d (fun doc =>
          set_body (for_sections handle_section_import (body doc)) doc) ;;
        emit (show_info (window tab)
                (Py.cat [Py.basename file_path; " was saved"])) ;;
        tab ← the_tab self;
        cm ← the_command_manager (command_manager tab);
        update_tab self (set_edited (CommandManager__len__ cm)) ;;
        mret (Some true)
    end).

Definition clone (self : nat) (klass' : option Klass) : M nat :=
  me ← the_tab self;
  let klass' := default (klass me) klass' in
  ntab ← __init__ klass' (window me) (Some (command_manager me));
  clones ← the_list (_clones me);
  put_list (_clones me) (clones ++ [ntab]) ;;
  update_tab ntab (set__clones (_clones me)) ;;
  update_tab ntab (set_file_uri (file_uri me)) ;;
  update_tab ntab (set_document (document me)) ;;
  mret ntab.

(** [list.remove(x)]: the first occurrence goes; [None] when there is
    none. *)
Fixpoint list_remove (x : nat) (l : list nat) : option (list nat) :=
  match l with
  | [] => None
  | y :: rest =>
      if decide (y = x) then Some rest
      else cons y <$> list_remove x rest
  end.

Definition close (self : nat) : M unit :=
  me ← the_tab self;
  clones ← the_list (_clones me);
  match list_remove self clones with
  | Some clones => put_list (_clones me) clones
  | None => raise ValueError
  end.

End EditorTab.
End editor_tab.

(** ** [odmlui/EditorTab.py], the earlier version of the module *)

Module EditorTab.
Section EditorTab.
Context `{Helpers, Gtk}.

(** [__init__], [clone], [get_name] and [EditorTab.close] read in this file
    as they do in [editor_tab.py]. *)
Definition __init__ := editor_tab.__init__.
Definition clone := editor_tab.clone.
Definition EditorTab_get_name := editor_tab.get_name.
Definition EditorTab_close := editor_tab.close.

(** [parse_properties] on one section, then on the sections below it. *)
Fixpoint parse_section (i : SecTree Sec) (b : Doc) : Doc :=
  match i with
  | sec_node props subs =>
      (fix below (subs : list (SecTree Sec)) (b : Doc) : Doc :=
         match subs with
         | [] => b
         | j :: subs => below subs (parse_section j b)
         end) subs (create_pseudo_values props b)
  end.

Definition parse_properties (odml_sections : list (SecTree Sec)) (b : Doc) : Doc :=
  foldl (fun b i => parse_section i b) b odml_sections.

Definition load (self : nat) (uri : string) : M bool :=
  update_tab self (set_file_uri (Some uri)) ;;
  tab ← the_tab self;
  let file_path := uri_to_path uri in
  let parser := get_parser_for_uri file_path in
  st ← get_state;
  match ODMLReader_from_file (disk st) file_path parser with
  | inl e =>
      emit (ErrorDialog None
              (Py.cat ["Error while parsing '"; file_path; "'"]) e) ;;
      mret false
  | inr loaded =>
      doc ← alloc;
      put_doc doc (mkDocument _ loaded None None) ;;
      update_tab self (set_document (Some doc)) ;;
      update_doc doc (fun d => set_body (finalize (body d)) d) ;;
      update_doc doc (fun d => set_body (parse_properties (sections (body d)) (body d)) d) ;;
      emit (registry_add (window tab) doc) ;;
      emit (show_info (window tab)
              (Py.cat ["Loading of "; Py.basename file_path; " done!"])) ;;
      mret true
  end.

(** [isinstance(x, MappingEditorTab)]. *)
Definition is_mapping (st : State) (x : nat) : bool :=
  match tabs st !! x with
  | Some t => bool_decide (klass t = MappingEditorTab_class)
  | None => false
  end.

(** The loop of [clone_mapping] over the clones.  [tab] is the loop
    variable, which the code reads again after the loop: there it holds the
    last clone visited, and nothing when the list was empty. *)
Fixpoint clone_mapping_loop (clones : list nat) (tab : option nat)
    (rest : option nat -> M nat) : M nat :=
  match clones with
  | [] => rest tab
  | tab :: clones =>
      st ← get_state;
      if is_mapping st tab then clone tab None
      else clone_mapping_loop clones (Some tab) rest
  end.

Definition clone_mapping (self : nat) : M nat :=
  me ← the_tab self;
  clones ← the_list (_clones me);
  clone_mapping_loop clones None (fun tab =>
    match tab with
    | None => raise UnboundLocalError
    | Some tab =>
        t ← the_tab tab;
        d ← the_document t;
        doc ← the_doc d;
        mapdoc ← alloc;
        put_doc mapdoc (mkDocument _ (create_mapping (body doc)) None (Some d)) ;;
        emit (registry_add (window me) mapdoc) ;;
        ntab ← clone self (Some MappingEditorTab_class);
        update_tab ntab (set_document (Some mapdoc)) ;;
        mret ntab
    end).

Definition update_validation_error_objects (self : nat)
    (errors : list ValidationError) : M unit :=
  for_each errors (fun err =>
    let c := mkChangeContext ("_error", true) true "set" in
    emit (pass_on c (obj err))).

Definition remove_validation (self : nat) : M unit :=
  tab ← the_tab self;
  match document tab with
  | None => mret ()
  | Some d =>
      doc ← the_doc d;
      match validation_result doc with
      | None => mret ()
      | Some errors =>
          put_doc d (set_validation_result None doc) ;;
          update_validation_error_objects self errors
      end
  end.

(** [ValidationWindow] is here the class of [odmlui/ValidationWindow.py],
    which is not among the sources: only that it is built from the tab and
    shown is recorded. *)
Definition validate (self : nat) : M unit :=
  remove_validation self ;;
  tab ← the_tab self;
  d ← the_document tab;
  doc ← the_doc d;
  let validation := Validation (body doc) in
  put_doc d (set_validation_result (Some validation) doc) ;;
  if (0 <? length validation)%nat then
    update_validation_error_objects self validation ;;
    emit (ValidationWindow_legacy_show self)
  else
    emit (show_info (window tab) "The document is valid. No errors found.") ;;
    remove_validation self.

Definition MappingEditorTab_close (self : nat) : M unit :=
  EditorTab_close self ;;
  me ← the_tab self;
  clones ← the_list (_clones me);
  st ← get_state;
  if bool_decide (filter (fun x => is_mapping st x = true) clones = [])
  then
    d ← the_document me;
    doc ← the_doc d;
    match _proxy_obj doc with
    | Some proxied => emit (unmap_document proxied)
    | None => raise AttributeError
    end
  else mret ().

Definition MappingEditorTab_get_name (self : nat) : M string :=
  name ← EditorTab_get_name self;
  mret (Py.cat ["map: "; name]).

(** Method lookup through the class of the instance. *)
Definition close (self : nat) : M unit :=
  me ← the_tab self;
  match klass me with
  | EditorTab_class => EditorTab_close self
  | MappingEditorTab_class => MappingEditorTab_close self
  end.

Definition get_name (self : nat) : M string :=
  me ← the_tab self;
  match klass me with
  | EditorTab_class => EditorTab_get_name self
  | MappingEditorTab_class => MappingEditorTab_get_name self
  end.

End EditorTab.
End EditorTab.

(** ** Vocabulary of the statements *)

Section Vocabulary.
Context `{Helpers, Gtk}.

(** The change events [update_validation_error_objects] sends out. *)
Definition error_events (errors : list ValidationError) : list Effect :=
  (fun err => pass_on (mkChangeContext ("_error", true) true "set") (obj err))
    <$> errors.

(** The state [remove_validation] leaves: the attribute gone from the
    document, one event per error it held. *)
Definition without_validation (d : nat) (doc : Document) (st : State) : State :=
  match validation_result doc with
  | None => st
  | Some errors =>
      add_trace (error_events errors) (with_doc d (set_validation_result None doc) st)
  end.

(** The events for a validation result still hanging on the document. *)
Definition dangling_events (doc : Document) : list Effect :=
  match validation_result doc with
  | None => []
  | Some errors => error_events errors
  end.

(** The window [validate] opens on the errors of a tab. *)
Definition window_for (self : nat) (tab : Tab) (errors : list ValidationError)
    : validation_window.ValidationWindow :=
  validation_window.ValidationWindow__init__ self
    (Py.basename (Py.str (file_uri tab))) (window tab) errors.

(** The notice [save] shows for a document with errors. *)
Definition invalid_notice (w : nat) : Effect :=
  show_info w "Invalid document. Please fix errors (red) before saving.".

(** The document [save] has written: cleaned, finalized again, its sections
    imported again, and carrying the validation result of the check. *)
Definition saved_document (doc : Document) : Document :=
  mkDocument _
    (for_sections handle_section_import (finalize (clean (body doc))))
    (Some (Validation (body doc))) (_proxy_obj doc).

(** The two versions of [validate] up to the class of the window they
    open: a window of [validation_window.py] is read as a window on the same
    tab of the earlier [ValidationWindow.py]. *)
Definition erase_effect (e : Effect) : Effect :=
  match e with
  | ValidationWindow_show vw => ValidationWindow_legacy_show (validation_window.tab vw)
  | e => e
  end.

Definition erase_state (st : State) : State :=
  mkState (tabs st) (lists st) (documents st) (command_managers st)
          (current_tab st) (disk st) (erase_effect <$> trace st) (next_id st).

Definition erase {A} (r : result A) : result A :=
  match r with
  | Ok a st => Ok a (erase_state st)
  | Raised e st => Raised e (erase_state st)
  end.

End Vocabulary.

(** ** The life of an editor: calls on tabs

    The methods of [editor_tab.py] as a transition system.  A call is made on
    a tab that exists; the window may at any time make another tab its
    current one. *)

Section Life.
Context `{Helpers, Gtk}.

Inductive Call :=
| call__init__ (klass : Klass) (window : nat) (cmdm : option nat)
| call_new (self : nat) (doc : option nat)
| call_load (self : nat) (uri : string)
| call_reset (self : nat)
| call_is_modified (self : nat)
| call_save (self : nat) (uri : string) (file_type : option string)
| call_enable_undo (self : nat) (enable : bool)
| call_enable_redo (self : nat) (enable : bool)
| call_clone (self : nat) (klass : option Klass)
| call_validate (self : nat)
| call_update_validation_error_objects (self : nat) (errors : list ValidationError)
| call_remove_validation (self : nat)
| call_get_name (self : nat)
| call_close (self : nat)
| switch_tab (w : nat) (t : nat).

(** The state a computation ends in, whether it returns or raises. *)
Definition final {A} (r : result A) : State :=
  match r with
  | Ok _ st => st
  | Raised _ st => st
  end.

Definition with_current_tab (w t : nat) (st : State) : State :=
  mkState (tabs st) (lists st) (documents st) (command_managers st)
          (<[w := t]> (current_tab st)) (disk st) (trace st) (next_id st).

Definition exec (c : Call) (st : State) : State :=
  match c with
  | call__init__ klass window cmdm => final (editor_tab.__init__ klass window cmdm st)
  | call_new self doc => final (editor_tab.new self doc st)
  | call_load self uri => final (editor_tab.load self uri st)
  | call_reset self => final (editor_tab.reset self st)
  | call_is_modified self => final (editor_tab.is_modified self st)
  | call_save self uri file_type => final (editor_tab.save self uri file_type st)
  | call_enable_undo self enable => final (editor_tab.enable_undo self enable st)
  | call_enable_redo self enable => final (editor_tab.enable_redo self enable st)
  | call_clone self klass => final (editor_tab.clone self klass st)
  | call_validate self => final (editor_tab.validate self st)
  | call_update_validation_error_objects self errors =>
      final (editor_tab.update_validation_error_objects self errors st)
  | call_remove_validation self => final (editor_tab.remove_validation self st)
  | call_get_name self => final (editor_tab.get_name self st)
  | call_close self => final (editor_tab.close self st)
  | switch_tab w t => with_current_tab w t st
  end.

(** The object a call is made on. *)
Definition receiver (c : Call) : option nat :=
  match c with
  | call__init__ _ _ _ => None
  | call_new self _ | call_load self _ | call_reset self
  | call_is_modified self | call_save self _ _
  | call_enable_undo self _ | call_enable_redo self _ | call_clone self _
  | call_validate self | call_update_validation_error_objects self _
  | call_remove_validation self | call_get_name self | call_close self => Some self
  | switch_tab _ t => Some t
  end.

Definition callable (c : Call) (st : State) : Prop :=
  match receiver c with
  | Some self => is_Some (tabs st !! self)
  | None => True
  end.

(** Before anything is created. *)
Definition initial (files : Disk) : State :=
  mkState ∅ ∅ ∅ ∅ ∅ files [] 0.

(** [reachable cs st]: the calls [cs], made in this order from an initial
    state, lead to [st]. *)
Inductive reachable : list Call -> State -> Prop :=
| reachable_initial files : reachable [] (initial files)
| reachable_call cs st c :
    reachable cs st -> callable c st -> reachable (cs ++ [c]) (exec c st).

(** [leads st cs st']: the calls [cs], made in this order from [st], lead to
    [st']. *)
Inductive leads (st : State) : list Call -> State -> Prop :=
| leads_here : leads st [] st
| leads_call cs st' c :
    leads st cs st' -> callable c st' -> leads st (cs ++ [c]) (exec c st').

(** Each of the calls [cs], made in this order from [st], is made on a tab
    that exists by then. *)
Fixpoint callable_all (st : State) (cs : list Call) : Prop :=
  match cs with
  | [] => True
  | c :: cs => callable c st /\ callable_all (exec c st) cs
  end.

Definition exec_all (st : State) (cs : list Call) : State :=
  foldl (fun st c => exec c st) st cs.

(** How the tabs and their lists of clones hang together after the calls
    [cs].  A list is spoken of through a tab that refers to it. *)
Record clones_wf (cs : list Call) (st : State) : Prop := mk_clones_wf {
  wf_tab_fresh : forall t tab, tabs st !! t = Some tab -> t < next_id st;
  wf_list_fresh : forall l xs, lists st !! l = Some xs -> l < next_id st;
  wf_tab_list : forall t tab,
    tabs st !! t = Some tab -> is_Some (lists st !! _clones tab);
  wf_members : forall t tab xs u,
    tabs st !! t = Some tab -> lists st !! _clones tab = Some xs -> u ∈ xs ->
    exists tu, tabs st !! u = Some tu /\ _clones tu = _clones tab;
  wf_nodup : forall t tab xs,
    tabs st !! t = Some tab -> lists st !! _clones tab = Some xs -> NoDup xs;
  wf_open : forall t tab,
    tabs st !! t = Some tab -> (call_close t ∉ cs) ->
    exists xs, lists st !! _clones tab = Some xs /\ t ∈ xs;
  wf_closed_known : forall u, call_close u ∈ cs -> is_Some (tabs st !! u);
  wf_closed : forall u t tab xs,
    call_close u ∈ cs ->
    tabs st !! t = Some tab -> lists st !! _clones tab = Some xs -> u ∉ xs
}.

(** What a call that is neither a construction, a [clone] nor a [close]
    leaves alone. *)
Definition same_clones (st st' : State) : Prop :=
  lists st' = lists st
  /\ next_id st <= next_id st'
  /\ forall t, _clones <$> tabs st' !! t = _clones <$> tabs st !! t.

Definition preserves {A} (m : M A) : Prop :=
  forall st, same_clones st (final (m st)).

(** The calls [window.enable_undo(enable)] (or [enable_redo]) that a
    broadcast over [clones] makes: one for each clone, in order, that is the
    current tab of its window. *)
Definition broadcast (call : nat -> bool -> Effect) (enable : bool)
    (st : State) (clones : list nat) : list Effect :=
  omap (fun u =>
          match tabs st !! u with
          | Some t =>
              if decide (current_tab st !! window t = Some u)
              then Some (call (window t) enable) else None
          | None => None
          end) clones.

(** The state the constructor leaves: the new tab is object [next_id st],
    followed by its command manager when none was given, and by its list of
    clones. *)
Definition constructed (klass : Klass) (window : nat) (cmdm : option nat)
    (st : State) : State :=
  let n := next_id st in
  match cmdm with
  | None =>
      with_tab n (mkTab klass window (S n) None None 0 (S (S n)))
        (with_list (S (S n)) [n]
           (bump (with_command_manager (S n) (mkCommandManager [] n n window)
                    (bump (bump st)))))
  | Some cmdm =>
      with_tab n (mkTab klass window cmdm None None 0 (S n))
        (with_list (S n) [n] (bump (bump st)))
  end.

(** The state [clone] leaves: the new tab is object [next_id st]; the list it
    was constructed with, object [S (next_id st)], is left behind. *)
Definition cloned (klass : Klass) (me : Tab) (clones : list nat)
    (st : State) : State :=
  let n := next_id st in
  with_tab n
    (mkTab klass (window me) (command_manager me) (document me) (file_uri me)
           0 (_clones me))
    (with_list (_clones me) (clones ++ [n])
       (with_list (S n) [n] (bump (bump st)))).

End Life.

(** ** A small instance to run the model on

    Document contents are the list of findings a validation reports; the disk
    is the list of files written. *)

Module Demo.

Definition demo_odml : Odml := {|
  Doc := list ValidationError;
  Sec := string;
  Disk := list (string * list ValidationError);
  odml_Document := [];
  odml_Section := fun name => name;
  doc_append := fun b _ => b;
  sections := fun _ => [];
  clean := fun b => b;
  finalize := fun b => b;
  Validation := fun b => b;
  odml_load := fun _ file_path _ =>
    if String.eqb file_path "old.xml" then inl InvalidVersionException
    else if String.eqb file_path "bad.xml" then inl (LoadException "not well-formed")
    else inr [mkError 1 file_path "loaded" false];
  ODMLReader_from_file := fun _ file_path _ =>
    if String.eqb file_path "bad.xml" then inl "not well-formed"
    else inr [mkError 1 file_path "loaded" false];
  odml_save := fun files b file_path _ =>
    if String.eqb file_path "" then inl "no file name"
    else inr ((file_path, b) :: files);
  create_mapping := fun b => b
|}.

Definition demo_helpers : @Helpers demo_odml := {|
  uri_to_path := fun uri => uri;
  get_parser_for_uri := fun _ => "XML";
  get_extension := fun _ => "XML";
  get_parser_for_file_type := fun _ => Some "XML";
  handle_section_import := fun _ b => b;
  create_pseudo_values := fun _ b => b
|}.

Definition demo_gtk : Gtk := {|
  size_request := fun rows => (300, 20 * Z.of_nat (length rows))%Z
|}.

Abbreviation DState := (@State demo_odml).

(** Two findings: a warning on node 3 and an error on node 7. *)
Definition findings : list ValidationError :=
  [mkError 3 "/a" "first" false; mkError 7 "/b" "second" true].

Definition a_tab : Tab := mkTab EditorTab_class 0 1 (Some 3) (Some "a.xml") 0 2.

Definition a_manager : CommandManager := mkCommandManager [11; 12] 0 0 0.

(** One tab (object 0) of window 0, with its command manager (object 1), its
    list of clones (object 2) and a document (object 3) with contents [b]. *)
Definition one_tab (b : list ValidationError) : DState :=
  @mkState demo_odml {[ 0 := a_tab ]} {[ 2 := [0] ]}
    {[ 3 := @mkDocument demo_odml b None None ]} {[ 1 := a_manager ]}
    {[ 0 := 0 ]} [] [] 4.

(** A tab is constructed in window 0, becomes the current tab, and is
    cloned twice. *)
Definition some_calls : list (@Call) :=
  [call__init__ EditorTab_class 0 None; switch_tab 0 0;
   call_clone 0 None; call_clone 0 None].

Definition after_some_calls : DState :=
  @exec_all demo_odml demo_helpers demo_gtk (@initial demo_odml []) some_calls.

(** The tabs of [after_some_calls] later on: two commands were executed, and
    the first clone (object 3) was saved after them, so that its [edited] is
    2 and the shared command manager holds the two commands. *)
Definition edited_clones : DState :=
  with_command_manager 1 a_manager
    (with_tab 3 (mkTab EditorTab_class 0 1 None None 2 2) after_some_calls).

(** With [EditorTab.py]: a tab (object 0) loads "a.xml" (document 3), is
    cloned (the clone is object 4), and then loads "b.xml" (document 6). *)
Definition diverged : DState :=
  let st := @initial demo_odml [] in
  let st := final (EditorTab.__init__ EditorTab_class 0 None st) in
  let st := final (@EditorTab.load demo_odml demo_helpers 0 "a.xml" st) in
  let st := final (EditorTab.clone 0 None st) in
  final (@EditorTab.load demo_odml demo_helpers 0 "b.xml" st).

(** The state after [clone_mapping] on the first tab: the mapped tab is
    object 8, its document object 7. *)
Definition mapped : DState := final (EditorTab.clone_mapping 0 diverged).

End Demo.
(** ** Further methods of the three files *)

(** *** [validation_window.py]: the handlers *)

(** What [on_selection_change] comes to: the node handed to
    [on_select_object], or the failure of one of its two lookups. *)
Inductive Selection :=
| on_select_object_called (node : nat)
| no_row_selected
| IndexError_errors.

(** [ValidationView.on_selection_change].  [tree_iter] is the position in
    the store of the row the toolkit reports as selected, if any. *)
Definition ValidationView_on_selection_change
    (self : validation_window.ValidationView) (tree_iter : option nat) : Selection :=
  match tree_iter ≫= fun i => validation_window._store self !! i with
  | None => no_row_selected
  | Some (_, index, _) =>
      match validation_window.errors self !! index with
      | Some err => on_select_object_called (obj err)
      | None => IndexError_errors
      end
  end.

Section Handlers.
Context `{Helpers, Gtk}.

(** [ValidationWindow.on_close].  [get_size] is what the toolkit answers;
    the pair returned is the new value of the class attributes
    [ValidationWindow.width] and [ValidationWindow.height]. *)
Definition ValidationWindow_on_close (self : validation_window.ValidationWindow)
    (get_size : Z * Z) : M (Z * Z) :=
  let '(width, height) := get_size in
  editor_tab.remove_validation (validation_window.tab self) ;;
  mret (width, height).

(** *** [EditorTab.py]: the sections [parse_properties] visits *)

(** A section, then the sections below it, from left to right. *)
Fixpoint preorder (i : SecTree Sec) : list Sec :=
  match i with
  | sec_node props subs =>
      props ::
      (fix below (subs : list (SecTree Sec)) : list Sec :=
         match subs with
         | [] => []
         | j :: subs => preorder j ++ below subs
         end) subs
  end.

(** *** Vocabulary: what ties a tab to its group *)

Definition links (t : Tab) : nat * nat * nat :=
  (window t, command_manager t, _clones t).

(** What a call that is neither a construction nor a [clone] leaves alone:
    the lists, and the window, command manager and list of every tab. *)
Definition same_links (st st' : State) : Prop :=
  lists st' = lists st
  /\ forall t, links <$> tabs st' !! t = links <$> tabs st !! t.

Definition keeps_links {A} (m : M A) : Prop :=
  forall st, same_links st (final (m st)).

(** Tabs that refer to one list of clones are tabs of one window with one
    command manager. *)
Definition group_wf (st : State) : Prop :=
  forall t t' tab tab',
    tabs st !! t = Some tab -> tabs st !! t' = Some tab' ->
    _clones tab = _clones tab' ->
    window tab = window tab' /\ command_manager tab = command_manager tab'.

End Handlers.

(** *** More of Python's strings and paths *)

Module PyPath.

(** [str.upper] on the ASCII letters. *)
Definition upper_ascii (c : ascii) : ascii :=
  let n := nat_of_ascii c in
  if ((97 <=? n) && (n <=? 122))%nat then ascii_of_nat (n - 32) else c.

Fixpoint upper (s : string) : string :=
  match s with
  | EmptyString => EmptyString
  | String c r => String (upper_ascii c) (upper r)
  end.

(** [s.rfind(c)]: the position of the last [c], if there is one. *)
Fixpoint rfind (c : ascii) (s : list ascii) : option nat :=
  match s with
  | [] => None
  | x :: r =>
      match rfind c r with
      | Some i => Some (S i)
      | None => if Ascii.eqb x c then Some 0 else None
      end
  end.

(** [s.rstrip('/')]. *)
Fixpoint rstrip_slash (s : list ascii) : list ascii :=
  match s with
  | [] => []
  | x :: r =>
      match rstrip_slash r with
      | [] => if Ascii.eqb x "/" then [] else [x]
      | r' => x :: r'
      end
  end.

(** [posixpath.dirname]. *)
Definition dirname (p : string) : string :=
  let p := list_ascii_of_string p in
  let i := match rfind "/" p with Some i => S i | None => 0 end in
  let head := take i p in
  let head :=
    if negb (bool_decide (head = [])) && negb (forallb (Ascii.eqb "/") head)
    then rstrip_slash head
    else head in
  string_of_list_ascii head.

(** [posixpath.join(a, b)]. *)
Definition join (a b : string) : string :=
  let path := a in
  match b with
  | String "/" _ => b
  | _ =>
      if bool_decide (path = "") || bool_decide (last (list_ascii_of_string path) = Some "/"%char)
      then path +:+ b
      else path +:+ "/" +:+ b
  end.

(** The loop of [genericpath._splitext] that skips leading dots: whether a
    character other than a dot stands at a position from [filenameIndex] up
    to, and not including, [dotIndex]. *)
Fixpoint name_before_dot (p : list ascii) (filenameIndex count : nat) : bool :=
  match count with
  | 0 => false
  | S count =>
      match p !! filenameIndex with
      | Some c =>
          if negb (Ascii.eqb c ".") then true
          else name_before_dot p (S filenameIndex) count
      | None => true
      end
  end.

(** [posixpath.splitext]. *)
Definition splitext (p : string) : string * string :=
  let l := list_ascii_of_string p in
  let sepIndex := rfind "/" l in
  let dotIndex := rfind "." l in
  match dotIndex with
  | None => (p, "")
  | Some dotIndex =>
      let filenameIndex := match sepIndex with Some i => S i | None => 0 end in
      if (filenameIndex <=? dotIndex)%nat
         && name_before_dot l filenameIndex (dotIndex - filenameIndex)
      then (string_of_list_ascii (take dotIndex l),
            string_of_list_ascii (drop dotIndex l))
      else (p, "")
  end.

End PyPath.

(** *** [EditorTab.py]: [save] *)

(** What the earlier version uses of the odml library beyond [Odml]. *)
Class OdmlTools `{Odml} := {
  allowed_parsers : list string;
  ODMLWriter_write_file : Disk -> string -> Doc -> string -> string + Disk;
  VersionConverter_write_to_file :
    Disk -> string -> string -> string -> string + Disk
}.

Section MoreMethods.
Context `{Helpers, Gtk, !OdmlTools}.

(** The loop of the earlier [save] over the errors. *)
Fixpoint EditorTab_save_loop (self : nat) (errors : list ValidationError)
    (rest : M (option bool)) : M (option bool) :=
  match errors with
  | [] => rest
  | e :: errors =>
      if is_error e then
        tab ← the_tab self;
        emit (show_info (window tab)
                "Invalid document. Please fix errors (red) before saving.") ;;
        EditorTab.validate self ;;
        mret None
      else EditorTab_save_loop self errors rest
  end.

(** The path the earlier [save] writes to. *)
Definition EditorTab_save_file_path (uri : string) : string :=
  let file_path := uri_to_path uri in
  let ext := get_extension file_path in
  if negb (bool_decide (PyPath.upper ext ∈ allowed_parsers))
  then Py.cat [file_path; ".xml"]
  else file_path.

Definition EditorTab_save (self : nat) (uri : string) : M (option bool) :=
  EditorTab.remove_validation self ;;
  tab ← the_tab self;
  d ← the_document tab;
  doc ← the_doc d;
  let validation := Validation (body doc) in
  put_doc d (set_validation_result (Some validation) doc) ;;
  EditorTab_save_loop self validation (
    update_doc d (fun doc => set_body (clean (body doc)) doc) ;;
    let parser := get_parser_for_uri uri in
    let file_path := EditorTab_save_file_path uri in
    doc ← the_doc d;
    st ← get_state;
    match ODMLWriter_write_file (disk st) parser (body doc) file_path with
    | inl e =>
        emit (show_info (window tab) (Py.cat ["Save failed: "; e])) ;;
        mret None
    | inr written =>
        put_disk written ;;
        update_doc d (fun doc => set_body (finalize (body doc)) doc) ;;
        emit (show_info (window tab)
                (Py.cat [Py.basename file_path; " was saved"])) ;;
        tab ← the_tab self;
        cm ← the_command_manager (command_manager tab);
        update_tab self (set_edited (CommandManager__len__ cm)) ;;
        mret (Some true)
    end).

(** *** [editor_tab.py]: [convert] *)

(** The name and the path of the converted file. *)
Definition new_file_name (file_path : string) : string :=
  let file_name := Py.basename file_path in
  Py.cat [(PyPath.splitext file_name).1; "_converted.xml"].

Definition new_file_path (file_path : string) : string :=
  PyPath.join (PyPath.dirname file_path) (new_file_name file_path).

Definition convert (self : nat) (uri : string) : M bool :=
  let file_path := uri_to_path uri in
  let parser := get_parser_for_uri file_path in
  let file_name := Py.basename file_path in
  st ← get_state;
  match VersionConverter_write_to_file (disk st) file_path
          (new_file_path file_path) parser with
  | inl err =>
      tab ← the_tab self;
      let err_header := Py.cat ["Error converting file '"; file_name; "'."] in
      emit (ErrorDialog (Some (window tab)) err_header err) ;;
      mret false
  | inr written =>
      put_disk written ;;
      editor_tab.load self (new_file_path file_path)
  end.

End MoreMethods.

(** A name without a slash. *)
Definition slash_free (s : string) : Prop :=
  forall c, c ∈ list_ascii_of_string s -> c <> "/"%char.

(** ** More of the small instance *)

Module MoreDemo.

Definition demo_write_file (files : list (string * list ValidationError))
    (parser : string) (b : list ValidationError) (file_path : string)
    : string + list (string * list ValidationError) :=
  if String.eqb file_path "" then inl "no file name"
  else inr ((file_path, b) :: files).

Definition demo_write_to_file (files : list (string * list ValidationError))
    (file_path new_path parser : string)
    : string + list (string * list ValidationError) :=
  if String.eqb (Py.basename file_path) "old.xml"
  then inr ((new_path, []) :: files)
  else inl "nothing to convert".

Definition demo_tools : @OdmlTools Demo.demo_odml :=
  @Build_OdmlTools Demo.demo_odml ["XML"; "JSON"; "YAML"]
    demo_write_file demo_write_to_file.

(** One warning, on node 3. *)
Definition a_warning : list ValidationError :=
  [mkError 3 "/a" "first" false].

(** The tab of [Demo.one_tab] and a clone of it (object 4) that was saved
    after two commands. *)
Definition a_clone : Tab := mkTab EditorTab_class 0 1 (Some 3) (Some "a.xml") 2 2.

Definition two_tabs (b : list ValidationError) : Demo.DState :=
  @mkState Demo.demo_odml {[ 0 := Demo.a_tab; 4 := a_clone ]} {[ 2 := [0; 4] ]}
    {[ 3 := @mkDocument Demo.demo_odml b None None ]} {[ 1 := Demo.a_manager ]}
    {[ 0 := 0 ]} [] [] 5.

(** The state of [Demo.one_tab] with the result of a validation, the two
    findings of [Demo.findings], still on the document. *)
Definition validated : Demo.DState :=
  @mkState Demo.demo_odml {[ 0 := Demo.a_tab ]} {[ 2 := [0] ]}
    {[ 3 := @mkDocument Demo.demo_odml Demo.findings (Some Demo.findings) None ]}
    {[ 1 := Demo.a_manager ]} {[ 0 := 0 ]} [] [] 4.

(** The calls of [Demo.some_calls], and then the first clone is closed. *)
Definition calls_with_close : list (@Call) := Demo.some_calls ++ [call_close 3].

Definition after_close : Demo.DState :=
  @exec_all Demo.demo_odml Demo.demo_helpers Demo.demo_gtk
    (@initial Demo.demo_odml []) calls_with_close.

(** A view filled with the two findings of [Demo.findings]. *)
Definition a_view : validation_window.ValidationView :=
  validation_window.set_errors Demo.findings
    validation_window.ValidationView__init__.

End MoreDemo.

(** ** Running computations *)

(** Symbolic execution: unfold the monad and the store primitives, project
    the states and resolve the lookups. *)
Ltac mstep :=
  first
  [ progress unfold mbind, M_bind, mret, M_ret, the_tab, the_list, the_doc,
      the_command_manager, the_document, deref, put_doc, put_tab, put_list,
      put_command_manager, put_disk, emit, modify, raise, get_state, alloc,
      update_tab, update_doc
  | progress cbn [tabs lists documents command_managers current_tab disk trace
      next_id with_tab with_list with_doc with_command_manager with_disk
      add_trace bump klass window command_manager document file_uri edited
      _clones body validation_result _proxy_obj set_document set_file_uri
      set_edited set__clones set_body set_validation_result for_each
      length Nat.ltb Nat.leb]
  | rewrite lookup_insert_eq
  | match goal with
    | E : ?m !! ?k = _ |- context [?m !! ?k] => rewrite E
    | E : document ?t = _ |- context [document ?t] => rewrite E
    | N : ?i <> ?j |- context [<[?i := _]> _ !! ?j] =>
        rewrite (lookup_insert_ne _ i j) by exact N
    | N : ?j <> ?i |- context [<[?i := _]> _ !! ?j] =>
        rewrite (lookup_insert_ne _ i j) by (intros ?; apply N; done)
    end ].

Ltac mrun := repeat mstep.

Section Run.
Context `{Helpers, Gtk}.

Lemma bind_Ok {A B} (m : M A) (k : A -> M B) st a st' :
  m st = Ok a st' -> (m ≫= k) st = k a st'.
Proof. intros E. unfold mbind, M_bind. by rewrite E. Qed.

Lemma bind_Raised {A B} (m : M A) (k : A -> M B) st e st' :
  m st = Raised e st' -> (m ≫= k) st = Raised e st'.
Proof. intros E. unfold mbind, M_bind. by rewrite E. Qed.

Lemma deref_Some {A} (heap : State -> gmap nat A) r st x :
  heap st !! r = Some x -> deref heap r st = Ok x st.
Proof. intros E. unfold deref. by rewrite E. Qed.

Lemma add_trace_nil st : add_trace [] st = st.
Proof. destruct st. unfold add_trace. simpl. by rewrite app_nil_r. Qed.

Lemma add_trace_add_trace es1 es2 st :
  add_trace es2 (add_trace es1 st) = add_trace (es1 ++ es2) st.
Proof. unfold add_trace. simpl. by rewrite app_assoc. Qed.

(** A loop that only emits appends one effect per element, in order. *)
Lemma for_each_emit {A} (f : A -> Effect) (xs : list A) st :
  for_each xs (fun x => emit (f x)) st = Ok () (add_trace (f <$> xs) st).
Proof.
  revert st. induction xs as [|x xs IH]; intros st; simpl.
  - by rewrite add_trace_nil.
  - unfold mbind, M_bind, emit, modify. rewrite IH.
    by rewrite add_trace_add_trace.
Qed.

Lemma update_validation_error_objects_run self errors st :
  editor_tab.update_validation_error_objects self errors st
  = Ok () (add_trace (error_events errors) st).
Proof. apply for_each_emit. Qed.

Lemma remove_validation_run self tab d doc st :
  tabs st !! self = Some tab ->
  document tab = Some d ->
  documents st !! d = Some doc ->
  editor_tab.remove_validation self st = Ok () (without_validation d doc st).
Proof.
  intros Ht Hd Hdoc. unfold editor_tab.remove_validation, without_validation.
  rewrite (bind_Ok _ _ _ _ _ (deref_Some tabs _ _ _ Ht)). rewrite Hd.
  rewrite (bind_Ok _ _ _ _ _ (deref_Some documents _ _ _ Hdoc)).
  destruct (validation_result doc) as [errors|]; [|done].
  unfold mbind, M_bind, put_doc, modify.
  apply update_validation_error_objects_run.
Qed.

Lemma with_doc_with_doc d x y st :
  with_doc d x (with_doc d y st) = with_doc d x st.
Proof. unfold with_doc. simpl. by rewrite insert_insert_eq. Qed.

Lemma with_doc_add_trace d x es st :
  with_doc d x (add_trace es st) = add_trace es (with_doc d x st).
Proof. done. Qed.

Lemma with_doc_id d doc st :
  documents st !! d = Some doc -> with_doc d doc st = st.
Proof. intros E. destruct st. unfold with_doc. simpl in *. by rewrite insert_id. Qed.

Lemma set_validation_result_twice v w doc :
  set_validation_result v (set_validation_result w doc) = set_validation_result v doc.
Proof. done. Qed.

Lemma without_validation_eq d doc st :
  documents st !! d = Some doc ->
  without_validation d doc st
  = add_trace (dangling_events doc) (with_doc d (set_validation_result None doc) st).
Proof.
  intros E. unfold without_validation, dangling_events.
  destruct doc as [b [errors|] p]; simpl; [done|].
  rewrite add_trace_nil. symmetry. by apply with_doc_id.
Qed.

Lemma validate_run self tab d doc st :
  tabs st !! self = Some tab ->
  document tab = Some d ->
  documents st !! d = Some doc ->
  editor_tab.validate self st
  = let errors := Validation (body doc) in
    match errors with
    | [] =>
        Ok () (add_trace
                 (dangling_events doc
                  ++ [show_info (window tab) "The document is valid. No errors found."])
                 (with_doc d (set_validation_result None doc) st))
    | _ :: _ =>
        Ok () (add_trace
                 (dangling_events doc ++ error_events errors
                  ++ [ValidationWindow_show (window_for self tab errors)])
                 (with_doc d (set_validation_result (Some errors) doc) st))
    end.
Proof.
  intros Ht Hd Hdoc. unfold editor_tab.validate.
  rewrite (bind_Ok _ _ _ _ _ (remove_validation_run _ _ _ _ _ Ht Hd Hdoc)).
  rewrite (without_validation_eq _ _ _ Hdoc).
  destruct (Validation (body doc)) as [|err errors] eqn:Ev; cbv zeta.
  - mrun. rewrite Ev. mrun.
    unfold editor_tab.remove_validation. mrun.
    unfold editor_tab.update_validation_error_objects. mrun.
    by rewrite !with_doc_add_trace, !with_doc_with_doc, add_trace_add_trace.
  - mrun. rewrite Ev. mrun.
    rewrite update_validation_error_objects_run.
    unfold editor_tab.ValidationWindow, editor_tab.get_name. mrun.
    by rewrite ?with_doc_add_trace, ?with_doc_with_doc, ?add_trace_add_trace.
Qed.

Lemma save_loop_run self errors rest st :
  editor_tab.save_loop self errors rest st
  = if existsb is_error errors
    then (tab ← the_tab self;
          emit (invalid_notice (window tab)) ;;
          editor_tab.validate self ;;
          mret None) st
    else rest st.
Proof.
  induction errors as [|err errors IH]; simpl; [done|].
  destruct (is_error err); simpl; [done|]. apply IH.
Qed.

End Run.

Section Save.
Context `{Helpers, Gtk}.

Lemma save_run self uri file_type tab d doc cm st :
  tabs st !! self = Some tab ->
  document tab = Some d ->
  documents st !! d = Some doc ->
  command_managers st !! command_manager tab = Some cm ->
  let errors := Validation (body doc) in
  let checked :=
    add_trace (dangling_events doc)
      (with_doc d (set_validation_result (Some errors) doc) st) in
  if existsb is_error errors then
    exists st',
      editor_tab.save self uri file_type st = Ok None st'
      /\ editor_tab.validate self (add_trace [invalid_notice (window tab)] checked)
         = Ok () st'
      /\ disk st' = disk st
      /\ tabs st' = tabs st
      /\ command_managers st' = command_managers st
      /\ trace st' = trace st ++ dangling_events doc
                     ++ [invalid_notice (window tab)]
                     ++ error_events errors ++ error_events errors
                     ++ [ValidationWindow_show (window_for self tab errors)]
  else
    match odml_save (disk st) (clean (body doc))
            (editor_tab.save_file_path uri file_type)
            (editor_tab.save_parser uri file_type) with
    | inl exc =>
        exists st',
          editor_tab.save self uri file_type st = Ok None st'
          /\ disk st' = disk st
          /\ tabs st' = tabs st
    | inr written =>
        exists st',
          editor_tab.save self uri file_type st = Ok (Some true) st'
          /\ disk st' = written
          /\ tabs st' = <[self := set_edited (CommandManager__len__ cm) tab]> (tabs st)
          /\ documents st' = <[d := saved_document doc]> (documents st)
          /\ command_managers st' = command_managers st
    end.
Proof.
  intros Ht Hd Hdoc Hcm errors checked.
  assert (Hsave : editor_tab.save self uri file_type st
    = editor_tab.save_loop self errors
        (update_doc d (fun doc => set_body (clean (body doc)) doc) ;;
         doc ← the_doc d;
         st ← get_state;
         match odml_save (disk st) (body doc)
                 (editor_tab.save_file_path uri file_type)
                 (editor_tab.save_parser uri file_type) with
         | inl exc =>
             emit (show_info (window tab) (Py.cat ["Save failed: "; exc])) ;;
             mret None
         | inr written =>
             put_disk written ;;
             update_doc d (fun doc => set_body (finalize (body doc)) doc) ;;
             update_doc d (fun doc =>
               set_body (for_sections handle_section_import (body doc)) doc) ;;
             emit (show_info (window tab)
                     (Py.cat [Py.basename (editor_tab.save_file_path uri file_type);
                              " was saved"])) ;;
             tab ← the_tab self;
             cm ← the_command_manager (command_manager tab);
             update_tab self (set_edited (CommandManager__len__ cm)) ;;
             mret (Some true)
         end) checked).
  { unfold editor_tab.save.
    rewrite (bind_Ok _ _ _ _ _ (remove_validation_run _ _ _ _ _ Ht Hd Hdoc)).
    rewrite (without_validation_eq _ _ _ Hdoc).
    mrun. cbv zeta. subst checked errors.
    by rewrite ?with_doc_add_trace, ?with_doc_with_doc. }
  rewrite Hsave, save_loop_run. clear Hsave.
  assert (Ht' : tabs checked !! self = Some tab) by done.
  assert (Hdoc' : documents checked !! d
                  = Some (set_validation_result (Some errors) doc))
    by apply lookup_insert_eq.
  destruct (existsb is_error errors) eqn:Hex.
  - rewrite (bind_Ok _ _ _ _ _ (deref_Some tabs _ _ _ Ht')).
    set (noticed := add_trace [invalid_notice (window tab)] checked).
    assert (Hv := validate_run self tab d _ noticed Ht' Hd Hdoc').
    cbn [body set_validation_result] in Hv. fold errors in Hv.
    destruct errors as [|err errors'] eqn:He; [discriminate|].
    cbv zeta in Hv. eexists. split; [|split; [exact Hv|]].
    + mrun. fold noticed. rewrite Hv. done.
    + subst noticed checked. unfold dangling_events at 1 3.
      cbn [validation_result set_validation_result].
      repeat split; try done.
      cbn [trace add_trace with_doc]. by rewrite <- !app_assoc.
  - clear Ht' Hdoc'. subst checked. mrun.
    destruct (odml_save _ _ _ _) as [exc|written]; mrun.
    + eexists. split; [reflexivity|]. split; reflexivity.
    + eexists. split; [reflexivity|]. split; [reflexivity|]. split; [reflexivity|].
      split; [|reflexivity].
      cbn [documents with_doc with_tab with_disk add_trace].
      rewrite !insert_insert_eq. reflexivity.
Qed.

(** C1.  [save] first validates the tab's document.  If an entry of the
    result is an error, [save] returns [None], the disk and every tab (so
    also the [edited] counter) are as before, and the trace shows the
    'Invalid document' notice followed by a run of [validate].  If no entry
    is an error, the cleaned document is handed to [odml.save]; when that
    succeeds [save] returns [True], the disk is the written one and [edited]
    is the length of the command manager. *)
Theorem save_validates_first self uri file_type tab d doc cm st :
  tabs st !! self = Some tab ->
  document tab = Some d ->
  documents st !! d = Some doc ->
  command_managers st !! command_manager tab = Some cm ->
  let errors := Validation (body doc) in
  let checked :=
    add_trace (dangling_events doc)
      (with_doc d (set_validation_result (Some errors) doc) st) in
  if existsb is_error errors then
    exists st',
      editor_tab.save self uri file_type st = Ok None st'
      /\ editor_tab.validate self (add_trace [invalid_notice (window tab)] checked)
         = Ok () st'
      /\ disk st' = disk st
      /\ tabs st' = tabs st
      /\ command_managers st' = command_managers st
      /\ trace st' = trace st ++ dangling_events doc
                     ++ [invalid_notice (window tab)]
                     ++ error_events errors ++ error_events errors
                     ++ [ValidationWindow_show (window_for self tab errors)]
  else
    match odml_save (disk st) (clean (body doc))
            (editor_tab.save_file_path uri file_type)
            (editor_tab.save_parser uri file_type) with
    | inl exc =>
        exists st',
          editor_tab.save self uri file_type st = Ok None st'
          /\ disk st' = disk st
          /\ tabs st' = tabs st
    | inr written =>
        exists st',
          editor_tab.save self uri file_type st = Ok (Some true) st'
          /\ disk st' = written
          /\ tabs st' = <[self := set_edited (CommandManager__len__ cm) tab]> (tabs st)
          /\ documents st' = <[d := saved_document doc]> (documents st)
    end.
Proof.
  intros Ht Hd Hdoc Hcm errors checked.
  pose proof (save_run self uri file_type tab d doc cm st Ht Hd Hdoc Hcm) as Hrun.
  cbv zeta in Hrun. fold errors in Hrun. fold checked in Hrun.
  destruct (existsb is_error errors); [exact Hrun|].
  destruct (odml_save _ _ _ _) as [exc|written]; [exact Hrun|].
  destruct Hrun as (st' & Hsave & Hdisk & Htabs & Hdocs & _).
  by exists st'.
Qed.

End Save.

Lemma save_validates_first_witness :
  exists st' : Demo.DState,
    @editor_tab.save Demo.demo_odml Demo.demo_helpers Demo.demo_gtk
      0 "a.xml" None (Demo.one_tab Demo.findings) = Ok None st'
    /\ disk st' = [].
Proof.
  destruct (@save_validates_first Demo.demo_odml Demo.demo_helpers Demo.demo_gtk
              0 "a.xml" None Demo.a_tab 3
              (@mkDocument Demo.demo_odml Demo.findings None None)
              Demo.a_manager (Demo.one_tab Demo.findings)
              eq_refl eq_refl eq_refl eq_refl)
    as (st' & Hsave & _ & Hdisk & _).
  exists st'. split; [exact Hsave|exact Hdisk].
Defined.

(** ** What the calls leave alone *)

Section Frame.
Context `{Helpers, Gtk}.

Lemma same_clones_refl st : same_clones st st.
Proof. repeat split; done. Qed.

Lemma same_clones_trans st1 st2 st3 :
  same_clones st1 st2 -> same_clones st2 st3 -> same_clones st1 st3.
Proof.
  intros (L1 & N1 & T1) (L2 & N2 & T2). repeat split.
  - congruence.
  - lia.
  - intros t. by rewrite T2, T1.
Qed.

Lemma preserves_bind {A B} (m : M A) (k : A -> M B) :
  preserves m -> (forall a, preserves (k a)) -> preserves (m ≫= k).
Proof.
  intros Hm Hk st. unfold mbind, M_bind.
  specialize (Hm st). destruct (m st) as [a st'|e st']; simpl in Hm; [|done].
  eapply same_clones_trans; [exact Hm|apply Hk].
Qed.

Lemma preserves_ret {A} (a : A) : preserves (mret a).
Proof. intros st. apply same_clones_refl. Qed.

Lemma preserves_raise {A} e : preserves (@raise _ A e).
Proof. intros st. apply same_clones_refl. Qed.

Lemma preserves_get_state : preserves get_state.
Proof. intros st. apply same_clones_refl. Qed.

Lemma preserves_deref {A} (heap : State -> gmap nat A) r : preserves (deref heap r).
Proof. intros st. unfold deref. destruct (heap st !! r); apply same_clones_refl. Qed.

Lemma preserves_alloc : preserves alloc.
Proof. intros st. unfold same_clones. simpl. split; [done|]. split; [lia|done]. Qed.

Lemma preserves_emit e : preserves (emit e).
Proof. intros st. repeat split; done. Qed.

Lemma preserves_put_doc r x : preserves (put_doc r x).
Proof. intros st. repeat split; done. Qed.

Lemma preserves_put_command_manager r x : preserves (put_command_manager r x).
Proof. intros st. repeat split; done. Qed.

Lemma preserves_put_disk x : preserves (put_disk x).
Proof. intros st. repeat split; done. Qed.

Lemma preserves_update_doc r f : preserves (update_doc r f).
Proof.
  apply preserves_bind; [apply preserves_deref|]. intros. apply preserves_put_doc.
Qed.

(** Assigning an attribute other than [_clones] of a tab that exists. *)
Lemma preserves_update_tab r f :
  (forall x, _clones (f x) = _clones x) -> preserves (update_tab r f).
Proof.
  intros Hf st. unfold update_tab, the_tab, deref, mbind, M_bind.
  destruct (tabs st !! r) as [x|] eqn:E; [|apply same_clones_refl].
  repeat split; simpl; [done|]. intros t.
  destruct (decide (r = t)) as [->|N].
  - by rewrite lookup_insert_eq, E; simpl; rewrite Hf.
  - by rewrite lookup_insert_ne.
Qed.

Lemma preserves_for_each {A} (xs : list A) (body : A -> M unit) :
  (forall x, preserves (body x)) -> preserves (for_each xs body).
Proof.
  intros Hb. induction xs as [|x xs IH]; simpl.
  - apply preserves_ret.
  - apply preserves_bind; [apply Hb|]. intros _. apply IH.
Qed.

Lemma preserves_the_document t : preserves (the_document t).
Proof.
  unfold the_document. destruct (document t);
    [apply preserves_ret|apply preserves_raise].
Qed.

Ltac frame :=
  repeat first
  [ apply preserves_the_document
  | apply preserves_update_tab; done
  | apply preserves_update_doc
  | apply preserves_bind
  | apply preserves_ret
  | apply preserves_raise
  | apply preserves_get_state
  | apply preserves_deref
  | apply preserves_alloc
  | apply preserves_emit
  | apply preserves_put_doc
  | apply preserves_put_command_manager
  | apply preserves_put_disk
  | apply preserves_update_doc
  | apply preserves_update_tab; done
  | apply preserves_for_each
  | match goal with
    | |- forall _, preserves _ => intro
    | |- preserves (match ?x with _ => _ end) => destruct x
    end ].

Lemma preserves_update_validation_error_objects self errors :
  preserves (editor_tab.update_validation_error_objects self errors).
Proof. unfold editor_tab.update_validation_error_objects. frame. Qed.

Lemma preserves_remove_validation self :
  preserves (editor_tab.remove_validation self).
Proof. unfold editor_tab.remove_validation, the_tab, the_doc. frame. Qed.

Lemma preserves_get_name self : preserves (editor_tab.get_name self).
Proof. unfold editor_tab.get_name, the_tab. frame. Qed.

Lemma preserves_ValidationWindow self : preserves (editor_tab.ValidationWindow self).
Proof.
  unfold editor_tab.ValidationWindow, the_tab, the_doc, the_document.
  apply preserves_bind; [apply preserves_get_name|]. frame.
Qed.

Lemma preserves_validate self : preserves (editor_tab.validate self).
Proof.
  unfold editor_tab.validate, the_tab, the_doc, the_document.
  apply preserves_bind; [apply preserves_remove_validation|].
  frame; try first [apply preserves_ValidationWindow | apply preserves_remove_validation].
Qed.

Lemma preserves_save_loop self errors rest :
  preserves rest -> preserves (editor_tab.save_loop self errors rest).
Proof.
  intros Hr. induction errors as [|err errors IH]; simpl; [done|].
  destruct (is_error err); [|done].
  unfold the_tab. frame; try apply preserves_validate.
Qed.

Lemma preserves_save self uri file_type :
  preserves (editor_tab.save self uri file_type).
Proof.
  unfold editor_tab.save, the_tab, the_doc, the_document, the_command_manager.
  apply preserves_bind; [apply preserves_remove_validation|].
  frame; try (apply preserves_save_loop; frame).
Qed.

Lemma preserves_new self doc : preserves (editor_tab.new self doc).
Proof. unfold editor_tab.new, the_tab. frame. Qed.

Lemma preserves_load self uri : preserves (editor_tab.load self uri).
Proof. unfold editor_tab.load, the_tab. frame. Qed.

Lemma preserves__enable_undo self enable :
  preserves (editor_tab._enable_undo self enable).
Proof. unfold editor_tab._enable_undo, the_tab. frame. Qed.

Lemma preserves__enable_redo self enable :
  preserves (editor_tab._enable_redo self enable).
Proof. unfold editor_tab._enable_redo, the_tab. frame. Qed.

Lemma preserves_enable_undo self enable :
  preserves (editor_tab.enable_undo self enable).
Proof.
  unfold editor_tab.enable_undo, the_tab, the_list.
  frame; try apply preserves__enable_undo.
Qed.

Lemma preserves_enable_redo self enable :
  preserves (editor_tab.enable_redo self enable).
Proof.
  unfold editor_tab.enable_redo, the_tab, the_list.
  frame; try apply preserves__enable_redo.
Qed.

Lemma preserves_reset self : preserves (editor_tab.reset self).
Proof.
  unfold editor_tab.reset, the_tab, the_command_manager.
  frame; try first [apply preserves_enable_undo | apply preserves_enable_redo].
Qed.

Lemma preserves_is_modified self : preserves (editor_tab.is_modified self).
Proof. unfold editor_tab.is_modified, the_tab, the_command_manager. frame. Qed.

End Frame.

(** ** Tabs and their lists of clones *)

Section Clones.
Context `{Helpers, Gtk}.

Lemma list_remove_None x l : editor_tab.list_remove x l = None <-> x ∉ l.
Proof.
  induction l as [|y l IH]; simpl.
  - split; [intros _; apply not_elem_of_nil|done].
  - destruct (decide (y = x)) as [->|N].
    + split; [done|]. intros Hn. destruct Hn. left.
    + destruct (editor_tab.list_remove x l) eqn:E; simpl.
      * split; [done|]. intros Hn. exfalso. apply Hn. right.
        destruct (decide (x ∈ l)) as [?|Hx]; [done|]. by apply IH in Hx.
      * split; [|done]. intros _ Hin. apply elem_of_cons in Hin as [->|Hin]; [done|].
        by apply IH in Hin.
Qed.

Lemma list_remove_Some x l l' :
  editor_tab.list_remove x l = Some l' ->
  x ∈ l /\ l' ⊆ l /\ (forall t, t <> x -> t ∈ l -> t ∈ l')
  /\ (NoDup l -> NoDup l' /\ x ∉ l').
Proof.
  revert l'. induction l as [|y l IH]; simpl; intros l' E; [done|].
  destruct (decide (y = x)) as [->|N].
  - injection E as <-. split; [left|]. split; [set_solver|].
    split; [set_solver|]. intros Hnd. by apply NoDup_cons in Hnd as [? ?].
  - destruct (editor_tab.list_remove x l) as [r|] eqn:Er; [|done].
    simpl in E. injection E as <-.
    destruct (IH r eq_refl) as (Hx & Hsub & Hkeep & Hnd).
    split; [by right|]. split; [set_solver|]. split.
    + intros t Ht Hin. apply elem_of_cons in Hin as [->|Hin]; [left|right; auto].
    + intros Hd. apply NoDup_cons in Hd as [Hy Hd]. destruct (Hnd Hd) as [Hr Hxr].
      split; [apply NoDup_cons; split; [set_solver|done]|set_solver].
Qed.

Lemma clones_wf_initial files : clones_wf [] (initial files).
Proof.
  split; simpl; intros *; try (rewrite lookup_empty; done).
  all: try (intros Hc; by apply elem_of_nil in Hc).
Qed.

(** A call that leaves tabs and lists alone keeps them well formed. *)
Lemma clones_wf_same_clones cs st st' c :
  clones_wf cs st -> same_clones st st' ->
  (forall t, c <> call_close t) ->
  clones_wf (cs ++ [c]) st'.
Proof.
  intros W (HL & HN & HT) Hc.
  assert (Hback : forall t tab', tabs st' !! t = Some tab' ->
            exists tab, tabs st !! t = Some tab /\ _clones tab = _clones tab').
  { intros t tab' E. specialize (HT t). rewrite E in HT. simpl in HT.
    destruct (tabs st !! t) as [tab|]; [|done]. exists tab. split; [done|].
    simpl in HT. congruence. }
  assert (Hforth : forall t tab, tabs st !! t = Some tab ->
            exists tab', tabs st' !! t = Some tab' /\ _clones tab' = _clones tab).
  { intros t tab E. specialize (HT t). rewrite E in HT. simpl in HT.
    destruct (tabs st' !! t) as [tab'|]; [|done]. exists tab'. split; [done|].
    simpl in HT. congruence. }
  assert (Hcs : forall u, call_close u ∈ cs ++ [c] <-> call_close u ∈ cs).
  { intros u. rewrite elem_of_app, list_elem_of_singleton.
    split; [intros [?|E]; [done|]; symmetry in E; by apply Hc in E|by left]. }
  split.
  - intros t tab' E. destruct (Hback _ _ E) as (tab & E0 & _).
    apply (wf_tab_fresh _ _ W) in E0. lia.
  - intros l xs E. rewrite HL in E. apply (wf_list_fresh _ _ W) in E. lia.
  - intros t tab' E. destruct (Hback _ _ E) as (tab & E0 & <-).
    rewrite HL. by eapply wf_tab_list.
  - intros t tab' xs u E El Hu. destruct (Hback _ _ E) as (tab & E0 & Eq).
    rewrite HL, <- Eq in El.
    destruct (wf_members _ _ W _ _ _ _ E0 El Hu) as (tu & Etu & Eqtu).
    destruct (Hforth _ _ Etu) as (tu' & Etu' & Eq').
    exists tu'. split; [done|]. congruence.
  - intros t tab' xs E El. destruct (Hback _ _ E) as (tab & E0 & Eq).
    rewrite HL, <- Eq in El. by eapply wf_nodup.
  - intros t tab' E Hn. destruct (Hback _ _ E) as (tab & E0 & Eq).
    rewrite HL, <- Eq. eapply wf_open; [done..|]. by rewrite <- Hcs.
  - intros u Hu. apply Hcs in Hu. destruct (wf_closed_known _ _ W _ Hu) as [tu Etu].
    destruct (Hforth _ _ Etu) as (tu' & Etu' & _). by exists tu'.
  - intros u t tab' xs Hu E El. apply Hcs in Hu.
    destruct (Hback _ _ E) as (tab & E0 & Eq). rewrite HL, <- Eq in El.
    by eapply wf_closed.
Qed.

Lemma __init___run klass window cmdm st :
  editor_tab.__init__ klass window cmdm st
  = Ok (next_id st) (constructed klass window cmdm st).
Proof. unfold editor_tab.__init__, constructed. destruct cmdm; by mrun. Qed.

Lemma with_tab_with_tab r x y st :
  with_tab r x (with_tab r y st) = with_tab r x st.
Proof. unfold with_tab. simpl. by rewrite insert_insert_eq. Qed.

Lemma clone_run self klass' me clones st :
  tabs st !! self = Some me ->
  lists st !! _clones me = Some clones ->
  _clones me <> S (next_id st) ->
  editor_tab.clone self klass' st
  = Ok (next_id st) (cloned (default (klass me) klass') me clones st).
Proof.
  intros Ht Hl Hn. unfold editor_tab.clone.
  rewrite (bind_Ok _ _ _ _ _ (deref_Some tabs _ _ _ Ht)). cbv zeta.
  rewrite (bind_Ok _ _ _ _ _ (__init___run _ _ _ _)).
  unfold constructed, cloned. mrun.
  unfold with_tab, with_list. simpl. by rewrite !insert_insert_eq.
Qed.

Lemma close_run self me clones st :
  tabs st !! self = Some me ->
  lists st !! _clones me = Some clones ->
  editor_tab.close self st
  = match editor_tab.list_remove self clones with
    | Some clones' => Ok () (with_list (_clones me) clones' st)
    | None => Raised ValueError st
    end.
Proof.
  intros Ht Hl. unfold editor_tab.close. mrun.
  by destruct (editor_tab.list_remove self clones).
Qed.

Lemma elem_of_calls_snoc cs c (u : nat) :
  (forall t, c <> call_close t) ->
  call_close u ∈ cs ++ [c] <-> call_close u ∈ cs.
Proof.
  intros Hc. rewrite elem_of_app, list_elem_of_singleton.
  split; [intros [?|E]; [done|]; symmetry in E; by apply Hc in E|by left].
Qed.

(** A new tab with a list of its own. *)
Lemma clones_wf_constructed cs st st' c l tab :
  clones_wf cs st ->
  (forall t, c <> call_close t) ->
  tabs st' = <[next_id st := tab]> (tabs st) ->
  lists st' = <[l := [next_id st]]> (lists st) ->
  _clones tab = l -> next_id st < l -> next_id st' = S l ->
  clones_wf (cs ++ [c]) st'.
Proof.
  intros W Hc HT HL Htab Hl HN.
  set (n := next_id st) in *.
  assert (Hold : forall t x, tabs st !! t = Some x -> t <> n /\ _clones x <> l).
  { intros t x E. split.
    - apply (wf_tab_fresh _ _ W) in E. lia.
    - destruct (wf_tab_list _ _ W _ _ E) as [xs Exs].
      apply (wf_list_fresh _ _ W) in Exs. lia. }
  assert (Hcase : forall t x, tabs st' !! t = Some x ->
            (t = n /\ x = tab) \/ (t <> n /\ tabs st !! t = Some x /\ _clones x <> l)).
  { intros t x E. rewrite HT in E. destruct (decide (n = t)) as [<-|N].
    - rewrite lookup_insert_eq in E. left. split; congruence.
    - rewrite lookup_insert_ne in E by done. right.
      destruct (Hold _ _ E). done. }
  split.
  - intros t x E. destruct (Hcase _ _ E) as [[-> _]|(_ & E0 & _)]; [lia|].
    apply (wf_tab_fresh _ _ W) in E0. lia.
  - intros l' xs E. rewrite HL in E. destruct (decide (l = l')) as [<-|N]; [lia|].
    rewrite lookup_insert_ne in E by done. apply (wf_list_fresh _ _ W) in E. lia.
  - intros t x E. rewrite HL. destruct (Hcase _ _ E) as [[-> ->]|(_ & E0 & Nl)].
    + rewrite Htab, lookup_insert_eq. by eexists.
    + rewrite lookup_insert_ne by done. by eapply wf_tab_list.
  - intros t x xs u E El Hu. rewrite HL in El.
    destruct (Hcase _ _ E) as [[-> ->]|(_ & E0 & Nl)].
    + rewrite Htab, lookup_insert_eq in El. injection El as <-.
      apply list_elem_of_singleton in Hu as ->. exists tab.
      by rewrite HT, lookup_insert_eq.
    + rewrite lookup_insert_ne in El by done.
      destruct (wf_members _ _ W _ _ _ _ E0 El Hu) as (tu & Etu & Eq).
      exists tu. split; [|done]. rewrite HT, lookup_insert_ne; [done|].
      destruct (Hold _ _ Etu). done.
  - intros t x xs E El. rewrite HL in El.
    destruct (Hcase _ _ E) as [[-> ->]|(_ & E0 & Nl)].
    + rewrite Htab, lookup_insert_eq in El. injection El as <-. apply NoDup_singleton.
    + rewrite lookup_insert_ne in El by done. by eapply wf_nodup.
  - intros t x E Hn. rewrite elem_of_calls_snoc in Hn by done. rewrite HL.
    destruct (Hcase _ _ E) as [[-> ->]|(_ & E0 & Nl)].
    + rewrite Htab, lookup_insert_eq. eexists. split; [done|]. set_solver.
    + rewrite lookup_insert_ne by done. by eapply wf_open.
  - intros u Hu. rewrite elem_of_calls_snoc in Hu by done.
    destruct (wf_closed_known _ _ W _ Hu) as [tu Etu]. rewrite HT.
    destruct (Hold _ _ Etu). rewrite lookup_insert_ne by done. by eexists.
  - intros u t x xs Hu E El. rewrite elem_of_calls_snoc in Hu by done.
    rewrite HL in El. destruct (Hcase _ _ E) as [[-> ->]|(_ & E0 & Nl)].
    + rewrite Htab, lookup_insert_eq in El. injection El as <-.
      destruct (wf_closed_known _ _ W _ Hu) as [tu Etu].
      destruct (Hold _ _ Etu). set_solver.
    + rewrite lookup_insert_ne in El by done. by eapply wf_closed.
Qed.

(** A clone joins the list of the tab it was made from. *)
Lemma clones_wf_cloned cs st c self me clones kl :
  clones_wf cs st ->
  (forall t, c <> call_close t) ->
  tabs st !! self = Some me ->
  lists st !! _clones me = Some clones ->
  clones_wf (cs ++ [c]) (cloned kl me clones st).
Proof.
  intros W Hc Hme Hclones.
  set (n := next_id st). set (lm := _clones me) in *.
  set (tab' := mkTab kl (window me) (command_manager me) (document me)
                 (file_uri me) 0 lm).
  assert (HT : tabs (cloned kl me clones st) = <[n := tab']> (tabs st)) by done.
  assert (HL : lists (cloned kl me clones st)
               = <[lm := clones ++ [n]]> (<[S n := [n]]> (lists st))) by done.
  assert (HN : next_id (cloned kl me clones st) = S (S n)) by done.
  generalize dependent (cloned kl me clones st). intros st' HT HL HN.
  assert (Hlm : lm < n) by (apply (wf_list_fresh _ _ W) in Hclones; done).
  assert (Hold : forall t x, tabs st !! t = Some x -> t <> n /\ _clones x <> S n).
  { intros t x E. split.
    - apply (wf_tab_fresh _ _ W) in E. lia.
    - destruct (wf_tab_list _ _ W _ _ E) as [xs Exs].
      apply (wf_list_fresh _ _ W) in Exs. lia. }
  assert (Hmem : forall u, u ∈ clones ->
            exists tu, tabs st !! u = Some tu /\ _clones tu = lm).
  { intros u Hu. by eapply (wf_members _ _ W self me). }
  assert (Hfresh : n ∉ clones).
  { intros Hin. destruct (Hmem _ Hin) as (tu & Etu & _).
    destruct (Hold _ _ Etu). done. }
  assert (Hcase : forall t x, tabs st' !! t = Some x ->
            (t = n /\ x = tab') \/ (t <> n /\ tabs st !! t = Some x /\ _clones x <> S n)).
  { intros t x E. rewrite HT in E. destruct (decide (n = t)) as [<-|N].
    - rewrite lookup_insert_eq in E. left. split; congruence.
    - rewrite lookup_insert_ne in E by done. right.
      destruct (Hold _ _ E). done. }
  assert (Hlist : forall t x xs, tabs st' !! t = Some x ->
            lists st' !! _clones x = Some xs ->
            (_clones x = lm /\ xs = clones ++ [n])
            \/ (_clones x <> lm /\ t <> n /\ tabs st !! t = Some x
                /\ lists st !! _clones x = Some xs)).
  { intros t x xs E El. rewrite HL in El.
    destruct (decide (lm = _clones x)) as [Eq|N].
    - rewrite <- Eq, lookup_insert_eq in El. left. split; congruence.
    - right. destruct (Hcase _ _ E) as [[-> ->]|(Nt & E0 & Nl)]; [done|].
      rewrite lookup_insert_ne in El by done.
      rewrite lookup_insert_ne in El by done. done. }
  assert (Hkeep : forall u tu, tabs st !! u = Some tu -> tabs st' !! u = Some tu).
  { intros u tu E. rewrite HT. destruct (Hold _ _ E).
    by rewrite lookup_insert_ne. }
  split.
  - intros t x E. destruct (Hcase _ _ E) as [[-> _]|(_ & E0 & _)]; [lia|].
    apply (wf_tab_fresh _ _ W) in E0. lia.
  - intros l xs E. rewrite HL in E.
    destruct (decide (lm = l)) as [<-|N]; [lia|].
    rewrite lookup_insert_ne in E by done.
    destruct (decide (S n = l)) as [<-|N']; [lia|].
    rewrite lookup_insert_ne in E by done.
    apply (wf_list_fresh _ _ W) in E. lia.
  - intros t x E. rewrite HL.
    destruct (decide (lm = _clones x)) as [<-|N].
    + rewrite lookup_insert_eq. by eexists.
    + destruct (Hcase _ _ E) as [[-> ->]|(Nt & E0 & Nl)]; [done|].
      rewrite lookup_insert_ne by done. rewrite lookup_insert_ne by done.
      by eapply wf_tab_list.
  - intros t x xs u E El Hu.
    destruct (Hlist _ _ _ E El) as [[Eq ->]|(N & Nt & E0 & El0)].
    + rewrite Eq. apply elem_of_app in Hu as [Hu|Hu].
      * destruct (Hmem _ Hu) as (tu & Etu & Eqtu). exists tu. split; auto.
      * apply list_elem_of_singleton in Hu as ->. exists tab'.
        by rewrite HT, lookup_insert_eq.
    + destruct (wf_members _ _ W _ _ _ _ E0 El0 Hu) as (tu & Etu & Eqtu).
      exists tu. split; auto.
  - intros t x xs E El.
    destruct (Hlist _ _ _ E El) as [[Eq ->]|(N & Nt & E0 & El0)].
    + apply NoDup_app. split; [by eapply (wf_nodup _ _ W self me)|].
      split; [|apply NoDup_singleton].
      intros u Hu Hu'. apply list_elem_of_singleton in Hu' as ->. done.
    + by eapply wf_nodup.
  - intros t x E Hn. rewrite elem_of_calls_snoc in Hn by done.
    destruct (Hcase _ _ E) as [[-> ->]|(Nt & E0 & Nl)].
    + exists (clones ++ [n]). rewrite HL. simpl. rewrite lookup_insert_eq.
      split; [done|]. set_solver.
    + destruct (wf_open _ _ W _ _ E0 Hn) as (xs & El0 & Hin). rewrite HL.
      destruct (decide (lm = _clones x)) as [Eq|N].
      * rewrite <- Eq, lookup_insert_eq. eexists. split; [done|].
        rewrite <- Eq in El0. rewrite Hclones in El0.
        injection El0 as <-. set_solver.
      * rewrite lookup_insert_ne by done. rewrite lookup_insert_ne by done.
        by exists xs.
  - intros u Hu. rewrite elem_of_calls_snoc in Hu by done.
    destruct (wf_closed_known _ _ W _ Hu) as [tu Etu]. exists tu. auto.
  - intros u t x xs Hu E El. rewrite elem_of_calls_snoc in Hu by done.
    destruct (Hlist _ _ _ E El) as [[Eq ->]|(N & Nt & E0 & El0)].
    + intros Hin. apply elem_of_app in Hin as [Hin|Hin].
      * by apply (wf_closed _ _ W u self me clones).
      * apply list_elem_of_singleton in Hin as ->.
        destruct (wf_closed_known _ _ W _ Hu) as [tu Etu].
        destruct (Hold _ _ Etu). done.
    + by eapply wf_closed.
Qed.

(** A closed tab leaves its list, and is in no other. *)
Lemma clones_wf_removed cs st st' self me clones clones' :
  clones_wf cs st ->
  tabs st !! self = Some me ->
  lists st !! _clones me = Some clones ->
  tabs st' = tabs st -> next_id st' = next_id st ->
  lists st' = <[_clones me := clones']> (lists st) ->
  clones' ⊆ clones ->
  (forall t, t <> self -> t ∈ clones -> t ∈ clones') ->
  self ∉ clones' -> NoDup clones' ->
  clones_wf (cs ++ [call_close self]) st'.
Proof.
  intros W Hme Hclones HT HN HL Hsub Hkeep Hgone Hnd.
  set (lm := _clones me) in *.
  assert (Hcs : forall u, call_close u ∈ cs ++ [call_close self]
                          <-> (call_close u ∈ cs) \/ u = self).
  { intros u. rewrite elem_of_app, list_elem_of_singleton.
    split; (intros [?|E]; [by left|right; congruence]). }
  assert (Hlist : forall x xs, lists st' !! _clones x = Some xs ->
            (_clones x = lm /\ xs = clones')
            \/ (_clones x <> lm /\ lists st !! _clones x = Some xs)).
  { intros x xs El. rewrite HL in El.
    destruct (decide (lm = _clones x)) as [Eq|N].
    - rewrite <- Eq, lookup_insert_eq in El. left. split; congruence.
    - rewrite lookup_insert_ne in El by done. by right. }
  split.
  - intros t x E. rewrite HT in E. rewrite HN. by eapply wf_tab_fresh.
  - intros l xs E. rewrite HL in E. rewrite HN.
    destruct (decide (lm = l)) as [<-|N].
    + by eapply wf_list_fresh.
    + rewrite lookup_insert_ne in E by done. by eapply wf_list_fresh.
  - intros t x E. rewrite HT in E. rewrite HL.
    destruct (decide (lm = _clones x)) as [<-|N].
    + rewrite lookup_insert_eq. by eexists.
    + rewrite lookup_insert_ne by done. by eapply wf_tab_list.
  - intros t x xs u E El Hu. rewrite HT in *.
    destruct (Hlist _ _ El) as [[Eq ->]|(N & El0)].
    + rewrite Eq. apply Hsub in Hu. by eapply (wf_members _ _ W self me).
    + by eapply wf_members.
  - intros t x xs E El. rewrite HT in *.
    destruct (Hlist _ _ El) as [[Eq ->]|(N & El0)]; [done|by eapply wf_nodup].
  - intros t x E Hn. rewrite HT in E.
    assert (Hn' : (call_close t ∉ cs) /\ t <> self).
    { split; intros Hc; apply Hn, Hcs; auto. }
    destruct Hn' as [Hn' Nt].
    destruct (wf_open _ _ W _ _ E Hn') as (xs & El0 & Hin). rewrite HL.
    destruct (decide (lm = _clones x)) as [Eq|N].
    + rewrite <- Eq, lookup_insert_eq. eexists. split; [done|].
      rewrite <- Eq in El0. rewrite Hclones in El0. injection El0 as <-. auto.
    + rewrite lookup_insert_ne by done. by exists xs.
  - intros u Hu. rewrite HT. apply Hcs in Hu as [Hu| ->].
    + by eapply wf_closed_known.
    + by eexists.
  - intros u t x xs Hu E El. rewrite HT in E.
    destruct (Hlist _ _ El) as [[Eq ->]|(N & El0)];
      apply Hcs in Hu as [Hu| ->].
    + intros Hin. apply Hsub in Hin.
      by apply (wf_closed _ _ W u self me clones).
    + done.
    + by eapply wf_closed.
    + intros Hin.
      destruct (wf_members _ _ W _ _ _ _ E El0 Hin) as (tu & Etu & Eq).
      rewrite Hme in Etu. injection Etu as <-. done.
Qed.

Lemma clones_wf_close cs st self :
  clones_wf cs st -> is_Some (tabs st !! self) ->
  clones_wf (cs ++ [call_close self]) (final (editor_tab.close self st)).
Proof.
  intros W [me Hme].
  destruct (wf_tab_list _ _ W _ _ Hme) as [clones Hclones].
  rewrite (close_run _ _ _ _ Hme Hclones).
  assert (Hnd : NoDup clones) by by eapply wf_nodup.
  destruct (editor_tab.list_remove self clones) as [clones'|] eqn:E; simpl.
  - destruct (list_remove_Some _ _ _ E) as (_ & Hsub & Hkeep & Hrest).
    destruct (Hrest Hnd) as [Hnd' Hgone].
    by eapply (clones_wf_removed cs st _ self me clones clones').
  - apply list_remove_None in E.
    eapply (clones_wf_removed cs st _ self me clones clones); try done.
    by rewrite insert_id.
Qed.

(** Every state the calls lead to is well formed. *)
Lemma reachable_clones_wf cs st : reachable cs st -> clones_wf cs st.
Proof.
  induction 1 as [files|cs st c Hr W Hcall]; [apply clones_wf_initial|].
  destruct c; simpl in *;
    try (eapply clones_wf_same_clones; [exact W| |done];
         first [ apply preserves_new | apply preserves_load | apply preserves_reset
               | apply preserves_is_modified | apply preserves_save
               | apply preserves_enable_undo | apply preserves_enable_redo
               | apply preserves_validate
               | apply preserves_update_validation_error_objects
               | apply preserves_remove_validation | apply preserves_get_name
               | (repeat split; done) ]).
  - rewrite __init___run. simpl.
    destruct cmdm as [cmdm|]; simpl.
    + eapply (clones_wf_constructed cs st _ _ (S (next_id st))); try done. lia.
    + eapply (clones_wf_constructed cs st _ _ (S (S (next_id st)))); try done. lia.
  - destruct Hcall as [me Hme]. unfold callable in *. simpl in *.
    destruct (wf_tab_list _ _ W _ _ Hme) as [clones Hclones].
    rewrite (clone_run _ _ _ _ _ Hme Hclones).
    + simpl. by eapply clones_wf_cloned.
    + apply (wf_list_fresh _ _ W) in Hclones. lia.
  - by apply clones_wf_close.
Qed.

Lemma reachable_leads cs st cs' st' :
  reachable cs st -> leads st cs' st' -> reachable (cs ++ cs') st'.
Proof.
  intros Hr. induction 1 as [|cs' st' c Hl IH Hc].
  - by rewrite app_nil_r.
  - rewrite app_assoc. by apply reachable_call.
Qed.

(** A call on a tab that exists keeps a well-formed state well formed, from
    whatever state it is made. *)
Lemma clones_wf_exec cs st c :
  clones_wf cs st -> callable c st -> clones_wf (cs ++ [c]) (exec c st).
Proof.
  intros W Hcall.
  destruct c; simpl in *;
    try (eapply clones_wf_same_clones; [exact W| |done];
         first [ apply preserves_new | apply preserves_load | apply preserves_reset
               | apply preserves_is_modified | apply preserves_save
               | apply preserves_enable_undo | apply preserves_enable_redo
               | apply preserves_validate
               | apply preserves_update_validation_error_objects
               | apply preserves_remove_validation | apply preserves_get_name
               | (repeat split; done) ]).
  - rewrite __init___run. simpl.
    destruct cmdm as [cmdm|]; simpl.
    + eapply (clones_wf_constructed cs st _ _ (S (next_id st))); try done. lia.
    + eapply (clones_wf_constructed cs st _ _ (S (S (next_id st)))); try done. lia.
  - destruct Hcall as [me Hme]. unfold callable in *. simpl in *.
    destruct (wf_tab_list _ _ W _ _ Hme) as [clones Hclones].
    rewrite (clone_run _ _ _ _ _ Hme Hclones).
    + simpl. by eapply clones_wf_cloned.
    + apply (wf_list_fresh _ _ W) in Hclones. lia.
  - by apply clones_wf_close.
Qed.

Lemma clones_wf_leads cs st cs' st' :
  clones_wf cs st -> leads st cs' st' -> clones_wf (cs ++ cs') st'.
Proof.
  intros W. induction 1 as [|cs' st' c Hl IH Hc].
  - by rewrite app_nil_r.
  - rewrite app_assoc. by apply clones_wf_exec.
Qed.

(** Well-formedness looks at the lists and at the list each tab refers to,
    and at nothing else of the state. *)
Lemma clones_wf_frame cs st st' :
  clones_wf cs st -> same_clones st st' -> clones_wf cs st'.
Proof.
  intros W (HL & HN & HT).
  assert (Hback : forall t tab', tabs st' !! t = Some tab' ->
            exists tab, tabs st !! t = Some tab /\ _clones tab = _clones tab').
  { intros t tab' E. specialize (HT t). rewrite E in HT. simpl in HT.
    destruct (tabs st !! t) as [tab|]; [|done]. exists tab. split; [done|].
    simpl in HT. congruence. }
  assert (Hforth : forall t tab, tabs st !! t = Some tab ->
            exists tab', tabs st' !! t = Some tab' /\ _clones tab' = _clones tab).
  { intros t tab E. specialize (HT t). rewrite E in HT. simpl in HT.
    destruct (tabs st' !! t) as [tab'|]; [|done]. exists tab'. split; [done|].
    simpl in HT. congruence. }
  split.
  - intros t tab' E. destruct (Hback _ _ E) as (tab & E0 & _).
    apply (wf_tab_fresh _ _ W) in E0. lia.
  - intros l xs E. rewrite HL in E. apply (wf_list_fresh _ _ W) in E. lia.
  - intros t tab' E. destruct (Hback _ _ E) as (tab & E0 & <-).
    rewrite HL. by eapply wf_tab_list.
  - intros t tab' xs u E El Hu. destruct (Hback _ _ E) as (tab & E0 & Eq).
    rewrite HL, <- Eq in El.
    destruct (wf_members _ _ W _ _ _ _ E0 El Hu) as (tu & Etu & Eqtu).
    destruct (Hforth _ _ Etu) as (tu' & Etu' & Eq').
    exists tu'. split; [done|]. congruence.
  - intros t tab' xs E El. destruct (Hback _ _ E) as (tab & E0 & Eq).
    rewrite HL, <- Eq in El. by eapply wf_nodup.
  - intros t tab' E Hn. destruct (Hback _ _ E) as (tab & E0 & Eq).
    rewrite HL, <- Eq. by eapply wf_open.
  - intros u Hu. destruct (wf_closed_known _ _ W _ Hu) as [tu Etu].
    destruct (Hforth _ _ Etu) as (tu' & Etu' & _). by exists tu'.
  - intros u t tab' xs Hu E El.
    destruct (Hback _ _ E) as (tab & E0 & Eq). rewrite HL, <- Eq in El.
    by eapply wf_closed.
Qed.

(** Another [edited] on a tab and other commands in a command manager do not
    touch the lists and the list a tab refers to. *)
Lemma same_clones_with_tab st t tab tab' c cm :
  tabs st !! t = Some tab ->
  _clones tab' = _clones tab ->
  same_clones st (with_command_manager c cm (with_tab t tab' st)).
Proof.
  intros Ht Hc. unfold same_clones.
  cbn [tabs lists next_id with_command_manager with_tab].
  split; [reflexivity|]. split; [apply le_n|].
  intros u. destruct (decide (t = u)) as [->|N].
  - rewrite lookup_insert_eq, Ht. simpl. by rewrite Hc.
  - by rewrite lookup_insert_ne.
Qed.

(** [list.remove] takes out the first occurrence and keeps the order of the
    rest. *)
Lemma list_remove_split x l l' :
  editor_tab.list_remove x l = Some l' ->
  exists before after,
    l = before ++ x :: after /\ (x ∉ before) /\ l' = before ++ after.
Proof.
  revert l'. induction l as [|y l IH]; simpl; intros l' E; [done|].
  destruct (decide (y = x)) as [->|N].
  - injection E as <-. exists [], l. split; [done|]. split; [apply not_elem_of_nil|done].
  - destruct (editor_tab.list_remove x l) as [r|] eqn:Er; [|done].
    simpl in E. injection E as <-.
    destruct (IH r eq_refl) as (before & after & -> & Hb & ->).
    exists (y :: before), after. split; [done|]. split; [|done].
    intros Hin. apply elem_of_cons in Hin as [->|Hin]; done.
Qed.

Lemma _enable_undo_run u t enable st :
  tabs st !! u = Some t ->
  editor_tab._enable_undo u enable st
  = Ok () (if decide (current_tab st !! window t = Some u)
           then add_trace [window_enable_undo (window t) enable] st else st).
Proof.
  intros Et. unfold editor_tab._enable_undo. mrun.
  by destruct (decide (current_tab st !! window t = Some u)).
Qed.

Lemma _enable_redo_run u t enable st :
  tabs st !! u = Some t ->
  editor_tab._enable_redo u enable st
  = Ok () (if decide (current_tab st !! window t = Some u)
           then add_trace [window_enable_redo (window t) enable] st else st).
Proof.
  intros Et. unfold editor_tab._enable_redo. mrun.
  by destruct (decide (current_tab st !! window t = Some u)).
Qed.

Lemma leads_exec_all st cs : callable_all st cs -> leads st cs (exec_all st cs).
Proof.
  revert st. induction cs as [|c cs IH] using rev_ind; intros st Hc.
  - apply leads_here.
  - assert (Hsplit : callable_all st cs /\ callable c (exec_all st cs)).
    { clear IH. revert st Hc. induction cs as [|c' cs IH]; intros st Hc; simpl in *.
      - tauto.
      - destruct Hc as [Hc' Hc]. destruct (IH _ Hc). tauto. }
    destruct Hsplit as [Hcs Hlast].
    unfold exec_all. rewrite foldl_app. simpl. apply leads_call; [by apply IH|done].
Qed.

Lemma reachable_exec_all cs0 st cs :
  reachable cs0 st -> callable_all st cs -> reachable (cs0 ++ cs) (exec_all st cs).
Proof. intros Hr Hc. eapply reachable_leads; [done|by apply leads_exec_all]. Qed.

(** The loop of a broadcast, over clones that exist. *)
Lemma broadcast_undo_run enable clones st :
  (forall u, u ∈ clones -> is_Some (tabs st !! u)) ->
  for_each clones (fun tab => editor_tab._enable_undo tab enable) st
  = Ok () (add_trace (broadcast window_enable_undo enable st clones) st).
Proof.
  revert st. induction clones as [|u clones IH]; intros st Hall; simpl.
  - by rewrite add_trace_nil.
  - destruct (Hall u) as [t Et]; [left|].
    rewrite (bind_Ok _ _ _ _ _ (_enable_undo_run _ _ _ _ Et)). rewrite Et.
    destruct (decide (current_tab st !! window t = Some u)).
    + rewrite IH by (intros; apply Hall; by right).
      by rewrite add_trace_add_trace.
    + rewrite IH by (intros; apply Hall; by right). done.
Qed.

Lemma broadcast_redo_run enable clones st :
  (forall u, u ∈ clones -> is_Some (tabs st !! u)) ->
  for_each clones (fun tab => editor_tab._enable_redo tab enable) st
  = Ok () (add_trace (broadcast window_enable_redo enable st clones) st).
Proof.
  revert st. induction clones as [|u clones IH]; intros st Hall; simpl.
  - by rewrite add_trace_nil.
  - destruct (Hall u) as [t Et]; [left|].
    rewrite (bind_Ok _ _ _ _ _ (_enable_redo_run _ _ _ _ Et)). rewrite Et.
    destruct (decide (current_tab st !! window t = Some u)).
    + rewrite IH by (intros; apply Hall; by right).
      by rewrite add_trace_add_trace.
    + rewrite IH by (intros; apply Hall; by right). done.
Qed.

Lemma enable_undo_run self me clones enable st :
  tabs st !! self = Some me ->
  lists st !! _clones me = Some clones ->
  (forall u, u ∈ clones -> is_Some (tabs st !! u)) ->
  editor_tab.enable_undo self enable st
  = Ok () (add_trace (broadcast window_enable_undo enable st clones) st).
Proof.
  intros Ht Hl Hall. unfold editor_tab.enable_undo. mrun.
  by apply broadcast_undo_run.
Qed.

Lemma enable_redo_run self me clones enable st :
  tabs st !! self = Some me ->
  lists st !! _clones me = Some clones ->
  (forall u, u ∈ clones -> is_Some (tabs st !! u)) ->
  editor_tab.enable_redo self enable st
  = Ok () (add_trace (broadcast window_enable_redo enable st clones) st).
Proof.
  intros Ht Hl Hall. unfold editor_tab.enable_redo. mrun.
  by apply broadcast_redo_run.
Qed.

(** What a broadcast calls: the window of each clone that is its window's
    current tab, and nothing else. *)
Lemma elem_of_broadcast call enable st clones e :
  e ∈ broadcast call enable st clones
  <-> exists u t, u ∈ clones /\ tabs st !! u = Some t
        /\ current_tab st !! window t = Some u /\ e = call (window t) enable.
Proof.
  unfold broadcast. rewrite list_elem_of_omap. split.
  - intros (u & Hu & E). destruct (tabs st !! u) as [t|] eqn:Et; [|done].
    destruct (decide _) as [Hc|]; [|done]. injection E as <-. by exists u, t.
  - intros (u & t & Hu & Et & Hc & ->). exists u. split; [done|].
    rewrite Et. by destruct (decide _).
Qed.

End Clones.

(** ** Broadcasts over the clones *)

Section Broadcast.
Context `{Helpers, Gtk}.


(** C6.  [close] on a tab that is still open takes this tab, and no other,
    out of its list of clones: the one occurrence of the tab goes, and the
    tabs before it and after it stay, in their order.  Nothing else changes:
    the tabs with their documents, [file_uri] and [edited], the documents,
    the command managers with their commands, the current tabs, the disk, the
    trace and the other lists are as before.  In whatever state later calls
    lead to, the list a tab refers to does not hold the closed tab, and
    [enable_undo] and [enable_redo] visit the members of that list only.
    The state is any well-formed one, whatever the [edited] counters and the
    commands in it; the states the calls lead to are well formed
    ([reachable_clones_wf]). *)
Theorem close_removes_only_the_tab cs st self me :
  clones_wf cs st ->
  tabs st !! self = Some me ->
  (call_close self ∉ cs) ->
  exists before after,
    lists st !! _clones me = Some (before ++ self :: after)
    /\ (self ∉ before ++ after)
    /\ exists st',
      editor_tab.close self st = Ok () st'
      /\ st' = with_list (_clones me) (before ++ after) st
      /\ lists st' = <[_clones me := before ++ after]> (lists st)
      /\ tabs st' = tabs st
      /\ documents st' = documents st
      /\ command_managers st' = command_managers st
      /\ current_tab st' = current_tab st
      /\ disk st' = disk st
      /\ trace st' = trace st
      /\ next_id st' = next_id st
      /\ forall cs' st'' u tu enable,
           leads st' cs' st'' ->
           tabs st'' !! u = Some tu ->
           exists xs,
             lists st'' !! _clones tu = Some xs
             /\ (self ∉ xs)
             /\ editor_tab.enable_undo u enable st''
                = for_each xs (fun tab => editor_tab._enable_undo tab enable) st''
             /\ editor_tab.enable_redo u enable st''
                = for_each xs (fun tab => editor_tab._enable_redo tab enable) st''
             /\ editor_tab.enable_undo u enable st''
                = Ok () (add_trace (broadcast window_enable_undo enable st'' xs) st'')
             /\ editor_tab.enable_redo u enable st''
                = Ok () (add_trace (broadcast window_enable_redo enable st'' xs) st'').
Proof.
  intros W Hme Hopen.
  destruct (wf_open _ _ W _ _ Hme Hopen) as (clones & Hclones & Hin).
  assert (Hnd : NoDup clones) by by eapply wf_nodup.
  destruct (editor_tab.list_remove self clones) as [clones'|] eqn:E;
    [|by apply list_remove_None in E].
  destruct (list_remove_Some _ _ _ E) as (_ & _ & _ & Hrest).
  destruct (Hrest Hnd) as [_ Hgone].
  destruct (list_remove_split _ _ _ E) as (before & after & Hsplit & _ & Hrem).
  subst clones clones'.
  assert (Hclose : editor_tab.close self st
                   = Ok () (with_list (_clones me) (before ++ after) st)).
  { by rewrite (close_run _ _ _ _ Hme Hclones), E. }
  exists before, after. split; [done|]. split; [done|].
  exists (with_list (_clones me) (before ++ after) st).
  split; [exact Hclose|].
  do 9 (split; [reflexivity|]).
  intros cs' st'' u tu enable Hl Hu.
  assert (W' : clones_wf ((cs ++ [call_close self]) ++ cs') st'').
  { eapply clones_wf_leads; [|exact Hl].
    replace (with_list (_clones me) (before ++ after) st)
      with (exec (call_close self) st)
      by (simpl; by rewrite Hclose).
    apply clones_wf_exec; [done|]. unfold callable. simpl. by eexists. }
  destruct (wf_tab_list _ _ W' _ _ Hu) as [xs Hxs].
  assert (Hall : forall v, v ∈ xs -> is_Some (tabs st'' !! v)).
  { intros v Hv. destruct (wf_members _ _ W' _ _ _ _ Hu Hxs Hv) as (tv & -> & _).
    by eexists. }
  exists xs. split; [done|]. split.
  { eapply (wf_closed _ _ W' self u tu xs); [|done..]. set_solver. }
  split; [unfold editor_tab.enable_undo; by mrun|].
  split; [unfold editor_tab.enable_redo; by mrun|].
  split; [by eapply enable_undo_run|by eapply enable_redo_run].
Qed.

End Broadcast.

Lemma after_some_calls_reachable :
  @reachable Demo.demo_odml Demo.demo_helpers Demo.demo_gtk
    Demo.some_calls Demo.after_some_calls.
Proof.
  apply (@reachable_exec_all Demo.demo_odml Demo.demo_helpers Demo.demo_gtk
           [] _ Demo.some_calls
           (@reachable_initial Demo.demo_odml Demo.demo_helpers Demo.demo_gtk [])).
  vm_compute. repeat split; by eexists.
Qed.

Lemma edited_clones_wf :
  @clones_wf Demo.demo_odml Demo.some_calls Demo.edited_clones.
Proof.
  apply (clones_wf_frame _ Demo.after_some_calls).
  - exact (reachable_clones_wf _ _ after_some_calls_reachable).
  - apply (same_clones_with_tab Demo.after_some_calls 3
             (mkTab EditorTab_class 0 1 None None 0 2)).
    + vm_compute. reflexivity.
    + reflexivity.
Qed.


Lemma close_removes_only_the_tab_witness :
  exists st' : Demo.DState,
    editor_tab.close 3 Demo.edited_clones = Ok () st'
    /\ lists st' !! 2 = Some [0; 5]
    /\ tabs st' !! 3 = Some (mkTab EditorTab_class 0 1 None None 2 2)
    /\ command_managers st' !! 1 = Some Demo.a_manager.
Proof.
  destruct (@close_removes_only_the_tab Demo.demo_odml Demo.demo_helpers
              Demo.demo_gtk Demo.some_calls Demo.edited_clones 3
              (mkTab EditorTab_class 0 1 None None 2 2)
              edited_clones_wf eq_refl)
    as (before & after & Hl & Hnot & st' & Hclose & _ & Hlists & Htabs & _ & Hcm & _).
  - vm_compute. intros Hin.
    repeat (apply elem_of_cons in Hin as [Hin|Hin]; [discriminate Hin|]).
    by apply elem_of_nil in Hin.
  - exists st'. split; [exact Hclose|]. split; [|split].
    + rewrite Hlists. cbn [_clones]. rewrite lookup_insert_eq. f_equal.
      assert (E : lists Demo.edited_clones
                    !! _clones (mkTab EditorTab_class 0 1 None None 2 2)
                  = Some [0; 3; 5]) by (vm_compute; reflexivity).
      rewrite E in Hl. injection Hl as Hl.
      destruct before as [|a before]; simpl in Hl; [discriminate Hl|].
      injection Hl as <- Hl.
      destruct before as [|b before]; simpl in Hl.
      * injection Hl as <-. reflexivity.
      * injection Hl as <- Hl. exfalso. apply Hnot. simpl. right. left.
    + rewrite Htabs. vm_compute. reflexivity.
    + rewrite Hcm. vm_compute. reflexivity.
Defined.

(** ** Validation *)

Section Validate.
Context `{Helpers, Gtk}.

(** C2.  [validate] attaches the result of a fresh validation to the tab's
    document.  When the result has errors, it sends one change event per
    error, in order, each with action "set" and payload [('_error', True)]
    and each to the node of its error, and then shows the validation window;
    the result stays on the document.  When the result has none, the result
    is taken off the document again, the notice that the document is valid is
    shown, and no window is.  In both cases the events for a result that was
    still hanging on the document come first. *)
Theorem validate_posts_events self tab d doc st :
  tabs st !! self = Some tab ->
  document tab = Some d ->
  documents st !! d = Some doc ->
  let errors := Validation (body doc) in
  length (error_events errors) = length errors
  /\ (forall i err, errors !! i = Some err ->
        error_events errors !! i
        = Some (pass_on (mkChangeContext ("_error", true) true "set") (obj err)))
  /\ (errors <> [] ->
        editor_tab.validate self st
        = Ok () (add_trace
                   (dangling_events doc ++ error_events errors
                    ++ [ValidationWindow_show (window_for self tab errors)])
                   (with_doc d (set_validation_result (Some errors) doc) st)))
  /\ (errors = [] ->
        editor_tab.validate self st
        = Ok () (add_trace
                   (dangling_events doc
                    ++ [show_info (window tab) "The document is valid. No errors found."])
                   (with_doc d (set_validation_result None doc) st))
        /\ forall vw, ValidationWindow_show vw ∉
              dangling_events doc
              ++ [show_info (window tab) "The document is valid. No errors found."]).
Proof.
  intros Ht Hd Hdoc errors.
  split; [apply length_fmap|]. split.
  { intros i err Hi. unfold error_events. by rewrite list_lookup_fmap, Hi. }
  pose proof (validate_run self tab d doc st Ht Hd Hdoc) as Hv.
  cbv zeta in Hv. fold errors in Hv. split.
  - intros Hne. by destruct errors.
  - intros He. rewrite He in Hv. split; [done|].
    intros vw Hin. apply elem_of_app in Hin as [Hin|Hin].
    + unfold dangling_events, error_events in Hin.
      destruct (validation_result doc); [|by apply elem_of_nil in Hin].
      apply list_elem_of_fmap in Hin as (err & E & _). discriminate E.
    + apply list_elem_of_singleton in Hin. discriminate Hin.
Qed.

End Validate.

Lemma validate_posts_events_witness :
  @editor_tab.validate Demo.demo_odml Demo.demo_gtk 0 (Demo.one_tab Demo.findings)
  = Ok () (add_trace
             [pass_on (mkChangeContext ("_error", true) true "set") 3;
              pass_on (mkChangeContext ("_error", true) true "set") 7;
              ValidationWindow_show
                (@window_for Demo.demo_gtk 0 Demo.a_tab Demo.findings)]
             (with_doc 3 (@mkDocument Demo.demo_odml Demo.findings
                            (Some Demo.findings) None)
                (Demo.one_tab Demo.findings))).
Proof.
  destruct (@validate_posts_events Demo.demo_odml Demo.demo_gtk 0 Demo.a_tab 3
              (@mkDocument Demo.demo_odml Demo.findings None None)
              (Demo.one_tab Demo.findings) eq_refl eq_refl eq_refl)
    as (_ & _ & Hsome & _).
  exact (Hsome ltac:(discriminate)).
Defined.

(** ** Modified or not *)

Section Modified.
Context `{Helpers, Gtk}.

Lemma is_modified_run self me cm st :
  tabs st !! self = Some me ->
  command_managers st !! command_manager me = Some cm ->
  editor_tab.is_modified self st
  = Ok (negb (Nat.eqb (edited me) (CommandManager__len__ cm))) st.
Proof. intros Ht Hcm. unfold editor_tab.is_modified. by mrun. Qed.

Lemma reset_run self me cm clones st :
  tabs st !! self = Some me ->
  command_managers st !! command_manager me = Some cm ->
  lists st !! _clones me = Some clones ->
  (forall u, u ∈ clones -> is_Some (tabs st !! u)) ->
  exists es,
    editor_tab.reset self st
    = Ok () (add_trace es
               (with_command_manager (command_manager me) (CommandManager_reset cm)
                  (with_tab self (set_edited 0 me) st))).
Proof.
  intros Ht Hcm Hl Hall. unfold editor_tab.reset. mrun.
  set (st1 := with_command_manager _ _ _).
  assert (Ht1 : tabs st1 !! self = Some (set_edited 0 me)) by apply lookup_insert_eq.
  assert (Hl1 : lists st1 !! _clones (set_edited 0 me) = Some clones) by done.
  assert (Hall1 : forall u, u ∈ clones -> is_Some (tabs st1 !! u)).
  { intros u Hu. subst st1. cbn [tabs with_command_manager with_tab].
    destruct (decide (self = u)) as [->|N].
    - rewrite lookup_insert_eq. by eexists.
    - rewrite lookup_insert_ne by done. by apply Hall. }
  rewrite (enable_undo_run _ _ _ _ _ Ht1 Hl1 Hall1).
  rewrite (enable_redo_run self (set_edited 0 me) clones); [|done..].
  rewrite add_trace_add_trace. by eexists.
Qed.

(** C8.  [is_modified] answers true exactly when [edited] differs from the
    length of the command manager.  [reset] sets [edited] to 0 and resets the
    command manager, after which [is_modified] answers false.  A [save] that
    wrote the document sets [edited] to the length of the command manager,
    after which [is_modified] answers false.  The tab, its [edited] and the
    commands of its manager are any; [reset] visits the tabs of the list of
    clones, which have to exist. *)
Theorem is_modified_invariant st self me cm :
  tabs st !! self = Some me ->
  command_managers st !! command_manager me = Some cm ->
  (exists b,
      editor_tab.is_modified self st = Ok b st
      /\ (b = true <-> edited me <> CommandManager__len__ cm))
  /\ (forall clones,
        lists st !! _clones me = Some clones ->
        (forall u, u ∈ clones -> is_Some (tabs st !! u)) ->
        exists st',
          editor_tab.reset self st = Ok () st'
          /\ tabs st' = <[self := set_edited 0 me]> (tabs st)
          /\ edited <$> tabs st' !! self = Some 0
          /\ command_managers st'
             = <[command_manager me := CommandManager_reset cm]> (command_managers st)
          /\ command_managers st' !! command_manager me
             = Some (CommandManager_reset cm)
          /\ CommandManager__len__ (CommandManager_reset cm) = 0
          /\ editor_tab.is_modified self st' = Ok false st')
  /\ (forall uri file_type d doc written,
        document me = Some d ->
        documents st !! d = Some doc ->
        existsb is_error (Validation (body doc)) = false ->
        odml_save (disk st) (clean (body doc))
          (editor_tab.save_file_path uri file_type)
          (editor_tab.save_parser uri file_type) = inr written ->
        exists st',
          editor_tab.save self uri file_type st = Ok (Some true) st'
          /\ edited <$> tabs st' !! self = Some (CommandManager__len__ cm)
          /\ command_managers st' = command_managers st
          /\ editor_tab.is_modified self st' = Ok false st').
Proof.
  intros Hme Hcm.
  split; [|split].
  - eexists. split; [by apply is_modified_run|].
    rewrite negb_true_iff. apply Nat.eqb_neq.
  - intros clones Hclones Hall.
    destruct (reset_run _ _ _ _ _ Hme Hcm Hclones Hall) as [es Hreset].
    eexists. split; [exact Hreset|].
    cbn [tabs command_managers add_trace with_command_manager with_tab].
    rewrite !lookup_insert_eq. do 5 (split; [done|]).
    rewrite (is_modified_run self (set_edited 0 me) (CommandManager_reset cm)).
    + reflexivity.
    + cbn [tabs add_trace with_command_manager with_tab]. apply lookup_insert_eq.
    + cbn [command_managers add_trace with_command_manager with_tab
           command_manager set_edited]. apply lookup_insert_eq.
  - intros uri file_type d doc written Hd Hdoc Hvalid Hwrite.
    pose proof (save_run self uri file_type me d doc cm st
                  Hme Hd Hdoc Hcm) as Hsave.
    cbv zeta in Hsave. rewrite Hvalid, Hwrite in Hsave.
    destruct Hsave as (st' & Hsave & Hdisk & Htabs & Hdocs & Hcm').
    exists st'. split; [done|]. rewrite Htabs, lookup_insert_eq.
    split; [done|]. split; [done|].
    rewrite (is_modified_run self (set_edited (CommandManager__len__ cm) me) cm).
    + cbn [edited set_edited]. by rewrite Nat.eqb_refl.
    + rewrite Htabs. apply lookup_insert_eq.
    + by rewrite Hcm'.
Qed.

End Modified.

Lemma is_modified_invariant_witness :
  editor_tab.is_modified 0 (Demo.one_tab Demo.findings)
  = Ok true (Demo.one_tab Demo.findings)
  /\ exists st' : Demo.DState,
       editor_tab.reset 0 (Demo.one_tab Demo.findings) = Ok () st'
       /\ command_managers st' !! 1 = Some (mkCommandManager [] 0 0 0)
       /\ editor_tab.is_modified 0 st' = Ok false st'.
Proof.
  destruct (@is_modified_invariant Demo.demo_odml Demo.demo_helpers Demo.demo_gtk
              (Demo.one_tab Demo.findings) 0 Demo.a_tab Demo.a_manager
              eq_refl eq_refl)
    as ((b & Hrun & Hb) & Hreset & _).
  split.
  - rewrite Hrun. f_equal. apply (proj2 Hb).
    intros E. discriminate E.
  - destruct (Hreset [0] eq_refl) as (st' & Hr & _ & _ & _ & Hcm & _ & Hm).
    + intros u Hu. apply list_elem_of_singleton in Hu as ->.
      eexists. reflexivity.
    + exists st'. split; [exact Hr|]. split; [exact Hcm|exact Hm].
Defined.

(** ** Loading *)

Section Load.
Context `{Helpers, Gtk}.

(** C9.  When the loader raises for the file of [uri], [load] answers
    [False]; the tab's [file_uri] is [uri] and all its other attributes, the
    document among them, are as before; no document object is touched. *)
Theorem load_failure_keeps_document self uri tab st :
  tabs st !! self = Some tab ->
  let file_path := uri_to_path uri in
  let parser := get_parser_for_uri file_path in
  let tab' := set_file_uri (Some uri) tab in
  document tab' = document tab
  /\ file_uri tab' = Some uri
  /\ (forall e,
        odml_load (disk st) file_path parser = inl e ->
        exists st',
          editor_tab.load self uri st = Ok false st'
          /\ tabs st' = <[self := tab']> (tabs st)
          /\ documents st' = documents st
          /\ disk st' = disk st)
  /\ (forall e,
        ODMLReader_from_file (disk st) file_path parser = inl e ->
        exists st',
          EditorTab.load self uri st = Ok false st'
          /\ tabs st' = <[self := tab']> (tabs st)
          /\ documents st' = documents st
          /\ disk st' = disk st).
Proof.
  intros Ht file_path parser tab'. split; [done|]. split; [done|]. split.
  - intros e He. unfold editor_tab.load. mrun. fold file_path parser.
    rewrite He. destruct e; mrun; eexists; (split; [reflexivity|done]).
  - intros e He. unfold EditorTab.load. mrun. fold file_path parser.
    rewrite He. mrun. eexists. split; [reflexivity|done].
Qed.

End Load.

Lemma load_failure_keeps_document_witness :
  exists st' : Demo.DState,
    @editor_tab.load Demo.demo_odml Demo.demo_helpers 0 "bad.xml"
      (Demo.one_tab Demo.findings) = Ok false st'
    /\ tabs st' !! 0
       = Some (mkTab EditorTab_class 0 1 (Some 3) (Some "bad.xml") 0 2).
Proof.
  destruct (@load_failure_keeps_document Demo.demo_odml Demo.demo_helpers
              0 "bad.xml" Demo.a_tab (Demo.one_tab Demo.findings) eq_refl)
    as (_ & _ & Hcur & _).
  destruct (Hcur (LoadException "not well-formed") eq_refl)
    as (st' & Hload & Htabs & _).
  exists st'. split; [exact Hload|]. rewrite Htabs. reflexivity.
Defined.

(** ** The two versions of the validation methods *)

Section Versions.
Context `{Helpers, Gtk}.

Lemma window_for_tab self tab errors :
  validation_window.tab (window_for self tab errors) = self.
Proof.
  unfold window_for, validation_window.ValidationWindow__init__.
  by destruct (size_request _).
Qed.

Lemma legacy_validate_run self tab d doc st :
  tabs st !! self = Some tab ->
  document tab = Some d ->
  documents st !! d = Some doc ->
  EditorTab.validate self st
  = let errors := Validation (body doc) in
    match errors with
    | [] =>
        Ok () (add_trace
                 (dangling_events doc
                  ++ [show_info (window tab) "The document is valid. No errors found."])
                 (with_doc d (set_validation_result None doc) st))
    | _ :: _ =>
        Ok () (add_trace
                 (dangling_events doc ++ error_events errors
                  ++ [ValidationWindow_legacy_show self])
                 (with_doc d (set_validation_result (Some errors) doc) st))
    end.
Proof.
  intros Ht Hd Hdoc. unfold EditorTab.validate.
  change (EditorTab.remove_validation self) with (editor_tab.remove_validation self).
  rewrite (bind_Ok _ _ _ _ _ (remove_validation_run _ _ _ _ _ Ht Hd Hdoc)).
  rewrite (without_validation_eq _ _ _ Hdoc).
  destruct (Validation (body doc)) as [|err errors] eqn:Ev; cbv zeta.
  - mrun. rewrite Ev. mrun.
    unfold editor_tab.remove_validation. mrun.
    unfold editor_tab.update_validation_error_objects. mrun.
    by rewrite !with_doc_add_trace, !with_doc_with_doc, add_trace_add_trace.
  - mrun. rewrite Ev. mrun.
    change (EditorTab.update_validation_error_objects self (err :: errors))
      with (editor_tab.update_validation_error_objects self (err :: errors)).
    rewrite update_validation_error_objects_run. mrun.
    by rewrite ?with_doc_add_trace, ?with_doc_with_doc, ?add_trace_add_trace.
Qed.

Lemma erase_error_events errors :
  erase_effect <$> error_events errors = error_events errors.
Proof.
  unfold error_events. rewrite <- list_fmap_compose. by apply list_fmap_ext.
Qed.

Lemma erase_dangling_events doc :
  erase_effect <$> dangling_events doc = dangling_events doc.
Proof.
  unfold dangling_events. destruct (validation_result doc); [|done].
  apply erase_error_events.
Qed.

(** C10.  In every state, the three validation methods of [EditorTab.py] do
    what those of [editor_tab.py] do: [update_validation_error_objects] and
    [remove_validation] give the same result and state, and so does
    [validate] once the window either version opens is read as a window on
    the tab.  They return or raise alike, leave the same documents with the
    same [validation_result], send the same change events to the same nodes,
    and show a window or the notice of a valid document in the same cases. *)
Theorem legacy_validation_equivalent self errors st :
  EditorTab.update_validation_error_objects self errors st
  = editor_tab.update_validation_error_objects self errors st
  /\ EditorTab.remove_validation self st = editor_tab.remove_validation self st
  /\ erase (EditorTab.validate self st) = erase (editor_tab.validate self st).
Proof.
  split; [done|]. split; [done|].
  destruct (tabs st !! self) as [tab|] eqn:Ht.
  - destruct (document tab) as [d|] eqn:Hd.
    + destruct (documents st !! d) as [doc|] eqn:Hdoc.
      * rewrite (legacy_validate_run _ _ _ _ _ Ht Hd Hdoc).
        rewrite (validate_run _ _ _ _ _ Ht Hd Hdoc). cbv zeta.
        destruct (Validation (body doc)) as [|err errs]; [done|].
        unfold erase, erase_state. cbn [trace add_trace with_doc tabs lists
          documents command_managers current_tab disk next_id].
        do 2 f_equal. rewrite !fmap_app. do 3 f_equal.
        cbn [fmap list_fmap erase_effect]. by rewrite window_for_tab.
      * unfold EditorTab.validate, editor_tab.validate.
        change (EditorTab.remove_validation self)
          with (editor_tab.remove_validation self).
        unfold editor_tab.remove_validation. by mrun.
    + unfold EditorTab.validate, editor_tab.validate.
      change (EditorTab.remove_validation self)
        with (editor_tab.remove_validation self).
      unfold editor_tab.remove_validation. by mrun.
  - unfold EditorTab.validate, editor_tab.validate.
    change (EditorTab.remove_validation self)
      with (editor_tab.remove_validation self).
    unfold editor_tab.remove_validation. by mrun.
Qed.

End Versions.

(** ** Mapped tabs *)

Section Mapping.
Context `{Helpers, Gtk}.

(** C7.  Closing a [MappingEditorTab] that is in its list of clones first
    takes it out of the list.  If a [MappingEditorTab] is left in the list,
    nothing else happens; if none is left, [odml.mapping.unmap_document] is
    called on the [_proxy_obj] of the tab's document. *)
Theorem mapping_close_unmaps_last self me clones st :
  tabs st !! self = Some me ->
  klass me = MappingEditorTab_class ->
  lists st !! _clones me = Some clones ->
  self ∈ clones ->
  exists clones',
    editor_tab.list_remove self clones = Some clones'
    /\ let st' := with_list (_clones me) clones' st in
       let left := filter (fun x => EditorTab.is_mapping st x = true) clones' in
       (left <> [] -> EditorTab.close self st = Ok () st')
       /\ (left = [] ->
           forall d doc proxied,
             document me = Some d ->
             documents st !! d = Some doc ->
             _proxy_obj doc = Some proxied ->
             EditorTab.close self st
             = Ok () (add_trace [unmap_document proxied] st')).
Proof.
  intros Ht Hk Hl Hin.
  destruct (editor_tab.list_remove self clones) as [clones'|] eqn:E;
    [|by apply list_remove_None in E].
  exists clones'. split; [done|]. cbv zeta.
  assert (Hc : editor_tab.close self st
               = Ok () (with_list (_clones me) clones' st))
    by (by rewrite (close_run _ _ _ _ Ht Hl), E).
  unfold EditorTab.close.
  rewrite (bind_Ok _ _ _ _ _ (deref_Some tabs _ _ _ Ht)), Hk.
  unfold EditorTab.MappingEditorTab_close, EditorTab.EditorTab_close.
  rewrite (bind_Ok _ _ _ _ _ Hc). mrun.
  split.
  - intros Hleft. by rewrite bool_decide_eq_false_2 by exact Hleft.
  - intros Hleft d doc proxied Hd Hdoc Hp.
    rewrite bool_decide_eq_true_2 by exact Hleft. mrun. by rewrite Hp.
Qed.

End Mapping.

Section MappingLoop.
Context `{Helpers, Gtk}.

(** The loop of [clone_mapping]: it leaves with a clone of the first mapped
    tab of the list; without one, the code after the loop runs with the loop
    variable at the last entry of the list. *)
Lemma clone_mapping_loop_run clones tab rest st :
  EditorTab.clone_mapping_loop clones tab rest st
  = match head (filter (fun x => EditorTab.is_mapping st x = true) clones) with
    | Some mapped => EditorTab.clone mapped None st
    | None => rest (from_option Some tab (last clones)) st
    end.
Proof.
  revert tab. induction clones as [|x clones IH]; intros tab; [done|].
  cbn [EditorTab.clone_mapping_loop]. mrun. rewrite filter_cons.
  destruct (EditorTab.is_mapping st x) eqn:Ex.
  - by rewrite decide_True.
  - rewrite decide_False by done. rewrite IH.
    destruct (head _); [done|]. f_equal.
    rewrite last_cons. by destruct (last clones).
Qed.

Lemma clone_mapping_run self me clones st :
  tabs st !! self = Some me ->
  lists st !! _clones me = Some clones ->
  EditorTab.clone_mapping self st
  = match head (filter (fun x => EditorTab.is_mapping st x = true) clones) with
    | Some mapped => EditorTab.clone mapped None st
    | None =>
        match last clones with
        | None => Raised UnboundLocalError st
        | Some tab =>
            (t ← the_tab tab;
             d ← the_document t;
             doc ← the_doc d;
             mapdoc ← alloc;
             put_doc mapdoc (mkDocument _ (create_mapping (body doc)) None (Some d)) ;;
             emit (registry_add (window me) mapdoc) ;;
             ntab ← EditorTab.clone self (Some MappingEditorTab_class);
             update_tab ntab (set_document (Some mapdoc)) ;;
             mret ntab) st
        end
    end.
Proof.
  intros Ht Hl. unfold EditorTab.clone_mapping.
  rewrite (bind_Ok _ _ _ _ _ (deref_Some tabs _ _ _ Ht)).
  rewrite (bind_Ok _ _ _ _ _ (deref_Some lists _ _ _ Hl)).
  rewrite clone_mapping_loop_run.
  destruct (head _); [done|]. by destruct (last clones).
Qed.

End MappingLoop.

Lemma mapping_close_unmaps_last_witness :
  EditorTab.close 8 Demo.mapped
  = Ok () (add_trace [unmap_document 3] (with_list 2 [0; 4] Demo.mapped)).
Proof.
  destruct (@mapping_close_unmaps_last Demo.demo_odml 8
              (mkTab MappingEditorTab_class 0 1 (Some 7) (Some "b.xml") 0 2)
              [0; 4; 8] Demo.mapped eq_refl eq_refl eq_refl)
    as (clones' & Hrem & _ & Hlast).
  - set_solver.
  - vm_compute in Hrem. injection Hrem as <-.
    exact (Hlast eq_refl 7
             (@mkDocument Demo.demo_odml [mkError 1 "a.xml" "loaded" false]
                None (Some 3))
             3 eq_refl eq_refl eq_refl).
Defined.

(** C4, at a group whose tabs have come to hold different documents.  The
    first tab holds document 6, loaded from "b.xml"; its clone, the last
    entry of the list, holds document 3, loaded from "a.xml".  No tab of the
    group is mapped.  [clone_mapping] on the first tab returns a new mapped
    tab (object 8) in the same group, whose document (object 7) is a mapping
    of document 3, not of the tab's own document 6. *)
Theorem clone_mapping_maps_the_last_clone :
  tabs Demo.diverged !! 0
  = Some (mkTab EditorTab_class 0 1 (Some 6) (Some "b.xml") 0 2)
  /\ lists Demo.diverged !! 2 = Some [0; 4]
  /\ tabs Demo.diverged !! 4
     = Some (mkTab EditorTab_class 0 1 (Some 3) (Some "a.xml") 0 2)
  /\ exists st' : Demo.DState,
      EditorTab.clone_mapping 0 Demo.diverged = Ok 8 st'
      /\ tabs st' !! 8
         = Some (mkTab MappingEditorTab_class 0 1 (Some 7) (Some "b.xml") 0 2)
      /\ lists st' !! 2 = Some [0; 4; 8]
      /\ documents st' !! 7
         = Some (@mkDocument Demo.demo_odml
                   (@create_mapping Demo.demo_odml
                      [mkError 1 "a.xml" "loaded" false]) None (Some 3))
      /\ documents st' !! 6
         = Some (@mkDocument Demo.demo_odml
                   [mkError 1 "b.xml" "loaded" false] None None).
Proof.
  split; [reflexivity|]. split; [reflexivity|]. split; [reflexivity|].
  eexists. split; [vm_compute; reflexivity|].
  repeat split; reflexivity.
Qed.

(** ** The rows of the validation view *)

Section Rows.
Import validation_window.

Lemma is_order_nat : is_order Nat.compare.
Proof.
  split.
  - apply Nat.compare_refl.
  - intros a b. apply Nat.compare_eq.
  - intros a b. apply Nat.compare_antisym.
  - intros a b c. rewrite !Nat.compare_lt_iff. lia.
Qed.

Lemma is_order_bool : is_order Bool.compare.
Proof.
  split; [by intros [] | by intros [] [] | by intros [] [] | by intros [] [] []].
Qed.

Lemma is_order_ascii : is_order Ascii.compare.
Proof.
  split; unfold Ascii.compare.
  - intros a. apply N.compare_refl.
  - intros a b E. apply N.compare_eq in E.
    rewrite <- (ascii_N_embedding a), <- (ascii_N_embedding b). by rewrite E.
  - intros a b. apply N.compare_antisym.
  - intros a b c. rewrite !N.compare_lt_iff. lia.
Qed.

Lemma is_order_string : is_order String.compare.
Proof.
  split.
  - induction a as [|x a IH]; simpl; [done|].
    by rewrite (order_refl _ is_order_ascii).
  - apply String.compare_eq_iff.
  - intros a b. apply String.compare_antisym.
  - induction a as [|x a IH]; intros [|y b] [|z c]; simpl; try done.
    destruct (Ascii.compare x y) eqn:Exy; [|destruct (Ascii.compare y z) eqn:Eyz|];
      try done.
    + apply (order_eq _ is_order_ascii) in Exy as ->.
      destruct (Ascii.compare y z); [apply IH|done|done].
    + apply (order_eq _ is_order_ascii) in Eyz as ->. by rewrite Exy.
    + by rewrite (order_trans _ is_order_ascii _ _ _ Exy Eyz).
Qed.

Lemma is_order_lex {A B} (cA : A -> A -> comparison) (cB : B -> B -> comparison) :
  is_order cA -> is_order cB -> is_order (lex cA cB).
Proof.
  intros OA OB. split; unfold lex.
  - intros [a b]. simpl. by rewrite (order_refl _ OA), (order_refl _ OB).
  - intros [a b] [a' b']. simpl. destruct (cA a a') eqn:Ea; try done.
    intros Eb. apply (order_eq _ OA) in Ea. apply (order_eq _ OB) in Eb. congruence.
  - intros [a b] [a' b']. simpl. rewrite (order_antisym _ OA a a').
    destruct (cA a a'); simpl; [apply (order_antisym _ OB)|done|done].
  - intros [a1 b1] [a2 b2] [a3 b3]. simpl.
    destruct (cA a1 a2) eqn:E12; [|destruct (cA a2 a3) eqn:E23|]; try done.
    + apply (order_eq _ OA) in E12 as ->.
      destruct (cA a2 a3); [apply (order_trans _ OB)|done|done].
    + apply (order_eq _ OA) in E23 as ->. by rewrite E12.
    + by rewrite (order_trans _ OA _ _ _ E12 E23).
Qed.

Lemma compare_element_lex a b :
  compare_element a b
  = lex (lex (lex String.compare Nat.compare) String.compare) Bool.compare a b.
Proof.
  destruct a as [[[p1 j1] m1] e1], b as [[[p2 j2] m2] e2]. unfold lex. simpl.
  by destruct (String.compare p1 p2), (Nat.compare j1 j2), (String.compare m1 m2).
Qed.

Lemma is_order_compare_element : is_order compare_element.
Proof.
  pose proof (is_order_lex _ _
    (is_order_lex _ _ (is_order_lex _ _ is_order_string is_order_nat) is_order_string)
    is_order_bool) as O.
  split; intros *; rewrite ?compare_element_lex; apply O.
Qed.

#[local] Instance element_le_total : Total element_le.
Proof.
  intros a b. unfold element_le, element_leb.
  rewrite (order_antisym _ is_order_compare_element a b).
  destruct (compare_element a b); simpl; auto.
Qed.

#[local] Instance element_le_trans : Transitive element_le.
Proof.
  intros a b c. unfold element_le, element_leb.
  destruct (compare_element a b) eqn:Eab; [| |done].
  - by apply (order_eq _ is_order_compare_element) in Eab as ->.
  - destruct (compare_element b c) eqn:Ebc; [| |done].
    + by apply (order_eq _ is_order_compare_element) in Ebc as <-; rewrite Eab.
    + by rewrite (order_trans _ is_order_compare_element _ _ _ Eab Ebc).
Qed.

Lemma enumerate_from_imap j errs :
  enumerate_from j errs = imap (fun i => element_of (j + i)) errs.
Proof.
  revert j. induction errs as [|err errs IH]; intros j; simpl; [done|].
  unfold element_of at 1. rewrite Nat.add_0_r. f_equal.
  rewrite IH. apply imap_ext. intros i x _. simpl. f_equal. lia.
Qed.

Lemma foldl_snoc {A B} (f : A -> B) (acc : list B) (l : list A) :
  foldl (fun store e => store ++ [f e]) acc l = acc ++ (f <$> l).
Proof.
  revert acc. induction l as [|x l IH]; intros acc; simpl.
  - by rewrite app_nil_r.
  - by rewrite IH, <- app_assoc.
Qed.

Lemma fill_store self :
  _store (fill self) = row_of <$> sort (imap element_of (errors self)).
Proof.
  unfold fill. cbn [_store]. rewrite foldl_snoc. simpl.
  by rewrite enumerate_from_imap.
Qed.

Lemma StronglySorted_lookup {A} (R : relation A) l i j x y :
  StronglySorted R l -> i < j -> l !! i = Some x -> l !! j = Some y -> R x y.
Proof.
  intros Hs. revert i j. induction Hs as [|a l Hs IH Hall]; intros i j Hij Hi Hj.
  - done.
  - destruct j as [|j]; [lia|]. destruct i as [|i]; simpl in *.
    + injection Hi as <-. rewrite Forall_forall in Hall. apply Hall.
      by eapply list_elem_of_lookup_2.
    + apply (IH i j); [lia|done..].
Qed.

(** C5.  A new view has the two columns "Path" and "Description", in this
    order, over a store of (str, int, str) rows.  [fill] builds the store
    anew, whatever it held: one row per error, the row of the error at index
    [j] carrying [j] in its middle column.  Of two rows of the store, the
    earlier one belongs to the error with the smaller path, and with the
    smaller index if the paths are equal.  The row of a warning has its path
    wrapped in a dark grey span and its description opened by an orange span,
    the row of an error has its path bare and its description opened by a
    red span; the two descriptions always differ. *)
Theorem validation_view_rows (self : ValidationView) :
  columns ValidationView__init__
  = [mkColumn "Path" COL_PATH COL_PATH; mkColumn "Description" COL_DESC COL_DESC]
  /\ _store_types ValidationView__init__ = [col_str; col_int; col_str]
  /\ _store ValidationView__init__ = []
  /\ (forall old,
        fill (mkView (_store_types self) old (columns self) (errors self)
                (_treeview_shown self))
        = fill self)
  /\ columns (fill self) = columns self
  /\ length (_store (fill self)) = length (errors self)
  /\ _store (fill self) ≡ₚ imap row_for (errors self)
  /\ (forall i i' p j d p' j' d' err err',
        i < i' ->
        _store (fill self) !! i = Some (p, j, d) ->
        _store (fill self) !! i' = Some (p', j', d') ->
        errors self !! j = Some err ->
        errors self !! j' = Some err' ->
        String.leb (path err) (path err') = true
        /\ (path err = path err' -> j < j'))
  /\ (forall j err,
        row_for j err
        = (if is_error err then path err
           else "<span foreground='darkgrey'>" +:+ path err +:+ "</span>",
           j,
           (if is_error err then "<span foreground='red'>"
            else "<span foreground='orange'>")
           +:+ warn +:+ "</span> " +:+ msg err))
  /\ (forall j j' err err',
        is_error err = true -> is_error err' = false ->
        (row_for j err).2 <> (row_for j' err').2).
Proof.
  split; [done|]. split; [done|]. split; [done|]. split; [done|].
  split; [done|].
  assert (Hperm : sort (imap element_of (errors self)) ≡ₚ imap element_of (errors self))
    by apply merge_sort_Permutation.
  assert (Hrows : forall j err, row_for j err
        = (if is_error err then path err
           else "<span foreground='darkgrey'>" +:+ path err +:+ "</span>",
           j,
           (if is_error err then "<span foreground='red'>"
            else "<span foreground='orange'>")
           +:+ warn +:+ "</span> " +:+ msg err)).
  { intros j [o p m []]; reflexivity. }
  split; [|split; [|split; [|split; [exact Hrows|]]]].
  - rewrite fill_store, length_fmap, Hperm. apply length_imap.
  - rewrite fill_store, Hperm. unfold row_for. by rewrite fmap_imap.
  - intros i i' p j d p' j' d' err err' Hlt Hi Hi' Hj Hj'.
    rewrite fill_store, list_lookup_fmap in Hi, Hi'.
    destruct (sort (imap element_of (errors self)) !! i) as [e|] eqn:Ee; [|done].
    destruct (sort (imap element_of (errors self)) !! i') as [e'|] eqn:Ee'; [|done].
    assert (Hle : element_le e e').
    { eapply (StronglySorted_lookup element_le); [|exact Hlt|exact Ee|exact Ee'].
      apply (StronglySorted_merge_sort element_le). }
    assert (Hnd : NoDup (sort (imap element_of (errors self)))).
    { rewrite Hperm. apply NoDup_alt. intros a b x Ha Hb.
      rewrite list_lookup_imap in Ha, Hb.
      destruct (errors self !! a) as [ea|]; [|done].
      destruct (errors self !! b) as [eb|]; [|done].
      simpl in Ha, Hb. unfold element_of in *. congruence. }
    assert (Hfrom : forall k e0, sort (imap element_of (errors self)) !! k = Some e0 ->
              exists j0 err0, errors self !! j0 = Some err0 /\ e0 = element_of j0 err0).
    { intros k e0 Hk. apply list_elem_of_lookup_2 in Hk. rewrite Hperm in Hk.
      apply elem_of_lookup_imap in Hk as (j0 & err0 & -> & Hk). eauto. }
    destruct (Hfrom _ _ Ee) as (j0 & err0 & Hj0 & ->).
    destruct (Hfrom _ _ Ee') as (j0' & err0' & Hj0' & ->).
    unfold element_of in Hi, Hi'. simpl in Hi, Hi'.
    assert (j0 = j) as -> by congruence.
    assert (j0' = j') as -> by congruence.
    assert (err0 = err) as -> by congruence.
    assert (err0' = err') as -> by congruence.
    clear Hi Hi' Hfrom.
    unfold element_le, element_leb, element_of, compare_element in Hle.
    unfold String.leb.
    destruct (String.compare (path err) (path err')) eqn:Ep.
    2:{ split; [done|]. intros Epath. rewrite Epath in Ep.
        by rewrite (order_refl _ is_order_string) in Ep. }
    2:{ done. }
    split; [done|]. intros _.
    destruct (Nat.compare j j') eqn:Ejj.
    + apply Nat.compare_eq in Ejj as ->.
      assert (i = i') by (eapply NoDup_lookup; [exact Hnd|exact Ee|];
                          rewrite Ee'; congruence).
      lia.
    + by apply Nat.compare_lt_iff.
    + done.
  - intros j j' err err' He He'. rewrite !Hrows, He, He'. simpl. discriminate.
Qed.

Example fill_two :
  _store (set_errors [mkError 7 "/b" "second" true; mkError 3 "/a" "first" false]
            ValidationView__init__)
  = [ ("<span foreground='darkgrey'>/a</span>", 1,
       "<span foreground='orange'>" +:+ warn +:+ "</span> first");
      ("/b", 0, "<span foreground='red'>" +:+ warn +:+ "</span> second") ].
Proof. vm_compute. reflexivity. Qed.

End Rows.

(** ** Further properties *)

Section MoreValidation.
Context `{Helpers, Gtk}.

(** X1.  [remove_validation] on a tab without a document does nothing.  On a
    tab with a document it takes the validation result off the document,
    sends one change event per error the result held and changes nothing
    else; with no result on the document the state is as before.  Calling it
    again right away does nothing. *)
Theorem remove_validation_once self tab st :
  tabs st !! self = Some tab ->
  (document tab = None -> editor_tab.remove_validation self st = Ok () st)
  /\ (forall d doc,
        document tab = Some d ->
        documents st !! d = Some doc ->
        exists st',
          editor_tab.remove_validation self st = Ok () st'
          /\ st' = add_trace (dangling_events doc)
                     (with_doc d (set_validation_result None doc) st)
          /\ (validation_result doc = None -> st' = st)
          /\ editor_tab.remove_validation self st' = Ok () st').
Proof.
  intros Ht. split.
  - intros Hd. unfold editor_tab.remove_validation. by mrun.
  - intros d doc Hd Hdoc. eexists. split; [|split; [reflexivity|split]].
    + rewrite (remove_validation_run _ _ _ _ _ Ht Hd Hdoc).
      by rewrite (without_validation_eq _ _ _ Hdoc).
    + intros Hnone. unfold dangling_events. rewrite Hnone, add_trace_nil.
      apply with_doc_id. rewrite Hdoc. f_equal. by destruct doc; simpl in *; subst.
    + erewrite remove_validation_run; [|exact Ht|exact Hd|apply lookup_insert_eq].
      reflexivity.
Qed.

(** X2.  A second [validate] right after one that found errors sends the
    events of the first result once more, then its own, and opens another
    window; the document carries the same result as after the first. *)
Theorem validate_again self tab d doc st :
  tabs st !! self = Some tab ->
  document tab = Some d ->
  documents st !! d = Some doc ->
  Validation (body doc) <> [] ->
  let errors := Validation (body doc) in
  exists st1 st2,
    editor_tab.validate self st = Ok () st1
    /\ editor_tab.validate self st1 = Ok () st2
    /\ documents st2 = documents st1
    /\ trace st2
       = trace st1 ++ error_events errors ++ error_events errors
         ++ [ValidationWindow_show (window_for self tab errors)].
Proof.
  intros Ht Hd Hdoc Hne errors.
  pose proof (validate_run self tab d doc st Ht Hd Hdoc) as H1'.
  cbv zeta in H1'. fold errors in H1'.
  destruct errors as [|err errs] eqn:He; [done|].
  eexists. eexists. split; [exact H1'|].
  set (st1 := add_trace _ _).
  assert (Ht1 : tabs st1 !! self = Some tab) by done.
  assert (Hdoc1 : documents st1 !! d
                  = Some (set_validation_result (Some (err :: errs)) doc))
    by apply lookup_insert_eq.
  pose proof (validate_run self tab d _ st1 Ht1 Hd Hdoc1) as H2'.
  cbv zeta in H2'. cbn [body set_validation_result] in H2'.
  fold errors in H2'. rewrite He in H2'.
  split; [exact H2'|]. split.
  - cbn [documents add_trace with_doc]. by rewrite insert_insert_eq.
  - reflexivity.
Qed.

(** X3.  When the document has no error but [odml.save] raises, [save]
    returns [None] after the notice 'Save failed: ...'.  The disk and the
    tabs (so also [edited]) are as before, but the document is left cleaned:
    the [finalize] that undoes [clean] is not reached, and the validation
    result of the check stays on the document. *)
Theorem save_failed_write_leaves_document_cleaned
    self uri file_type tab d doc exc st :
  tabs st !! self = Some tab ->
  document tab = Some d ->
  documents st !! d = Some doc ->
  existsb is_error (Validation (body doc)) = false ->
  odml_save (disk st) (clean (body doc))
    (editor_tab.save_file_path uri file_type)
    (editor_tab.save_parser uri file_type) = inl exc ->
  editor_tab.save self uri file_type st
  = Ok None
      (add_trace
         (dangling_events doc
          ++ [show_info (window tab) (Py.cat ["Save failed: "; exc])])
         (with_doc d
            (mkDocument _ (clean (body doc)) (Some (Validation (body doc)))
               (_proxy_obj doc))
            st)).
Proof.
  intros Ht Hd Hdoc Hvalid Hwrite. unfold editor_tab.save.
  rewrite (bind_Ok _ _ _ _ _ (remove_validation_run _ _ _ _ _ Ht Hd Hdoc)).
  rewrite (without_validation_eq _ _ _ Hdoc). mrun. cbv zeta.
  rewrite save_loop_run, Hvalid. mrun. rewrite Hwrite. mrun.
  rewrite ?with_doc_add_trace, ?with_doc_with_doc, ?add_trace_add_trace.
  reflexivity.
Qed.

(** X4.  Closing the validation window that [validate] opened takes the
    validation result off the document again and sends the change event of
    each error once more; the answer of [get_size] becomes the remembered
    window size. *)
Theorem on_close_removes_validation self tab d doc get_size st :
  tabs st !! self = Some tab ->
  document tab = Some d ->
  documents st !! d = Some doc ->
  Validation (body doc) <> [] ->
  let errors := Validation (body doc) in
  exists st1,
    editor_tab.validate self st = Ok () st1
    /\ ValidationWindow_show (window_for self tab errors) ∈ trace st1
    /\ ValidationWindow_on_close (window_for self tab errors) get_size st1
       = Ok get_size
           (add_trace (error_events errors)
              (with_doc d (set_validation_result None doc) st1)).
Proof.
  intros Ht Hd Hdoc Hne errors.
  pose proof (validate_run self tab d doc st Ht Hd Hdoc) as H1'.
  cbv zeta in H1'. fold errors in H1'.
  destruct errors as [|err errs] eqn:He; [done|].
  eexists. split; [exact H1'|].
  set (st1 := add_trace _ _).
  assert (Ht1 : tabs st1 !! self = Some tab) by done.
  assert (Hdoc1 : documents st1 !! d
                  = Some (set_validation_result (Some (err :: errs)) doc))
    by apply lookup_insert_eq.
  split.
  - subst st1. cbn [trace add_trace with_doc]. set_solver.
  - unfold ValidationWindow_on_close. destruct get_size as [width height].
    rewrite window_for_tab.
    rewrite (bind_Ok _ _ _ _ _ (remove_validation_run _ _ _ _ _ Ht1 Hd Hdoc1)).
    unfold without_validation. cbn [validation_result set_validation_result].
    reflexivity.
Qed.

End MoreValidation.

Section MoreRows.
Import validation_window.

Lemma validation_view_rows_perm (self : ValidationView) :
  _store (fill self) ≡ₚ imap row_for (errors self).
Proof.
  rewrite fill_store. unfold sort. rewrite (merge_sort_Permutation element_le).
  unfold row_for. by rewrite fmap_imap.
Qed.

(** X5.  In a filled view every row leads back to its error: when the row at
    some position of the store is selected, [on_selection_change] hands
    [on_select_object] the node of the error whose index the row carries, and
    the row is the one [fill] made for that error. *)
Theorem selection_finds_the_error (self : ValidationView) i row :
  _store (fill self) !! i = Some row ->
  exists err,
    errors self !! row.1.2 = Some err
    /\ row = row_for row.1.2 err
    /\ ValidationView_on_selection_change (fill self) (Some i)
       = on_select_object_called (obj err).
Proof.
  intros Hi.
  assert (Hin : row ∈ imap row_for (errors self)).
  { rewrite <- (validation_view_rows_perm self). by eapply list_elem_of_lookup_2. }
  apply elem_of_lookup_imap in Hin as (j & err & -> & Hj).
  assert (Hidx : (row_for j err).1.2 = j) by (by destruct err as [? ? ? []]).
  exists err. rewrite Hidx. split; [done|]. split; [done|].
  unfold ValidationView_on_selection_change. cbn [mbind option_bind]. rewrite Hi.
  destruct (row_for j err) as [[p k] m] eqn:Er. simpl in Hidx. subst k.
  change (errors (fill self)) with (errors self). by rewrite Hj.
Qed.

(** X6.  The validation window is never larger than 1024 by 768: it is ten
    more than the tree view asks for in each direction, cut at these bounds.
    Its view holds one row per error of the tab's validation result. *)
Theorem validation_window_size `{Gtk} tab tab_name tab_window errs :
  let vw := ValidationWindow__init__ tab tab_name tab_window errs in
  let request := size_request (_store (curr_view vw)) in
  ((size vw).1 <= 1024 /\ (size vw).2 <= 768)%Z
  /\ ((size vw).1 = Z.min (request.1 + 10) 1024
      /\ (size vw).2 = Z.min (request.2 + 10) 768)%Z
  /\ length (_store (curr_view vw)) = length errs
  /\ errors (curr_view vw) = errs.
Proof.
  cbv zeta. unfold ValidationWindow__init__.
  destruct (size_request _) as [width height] eqn:Er.
  cbn [size curr_view fst snd]. rewrite Er. cbn [fst snd].
  unfold max_width, max_height.
  split; [lia|]. split; [done|]. split; [|done].
  unfold set_errors. rewrite validation_view_rows_perm. apply length_imap.
Qed.

End MoreRows.

Section MoreLegacy.
Context `{Helpers, Gtk}.

Lemma SecTree_all_ind {A} (P : SecTree A -> Prop) :
  (forall s subs, Forall P subs -> P (sec_node s subs)) -> forall i, P i.
Proof.
  intros Hnode. fix ind 1. intros [s subs]. apply Hnode.
  induction subs as [|j subs IH]; constructor; [apply ind|exact IH].
Qed.

Lemma parse_section_preorder i b :
  EditorTab.parse_section i b
  = foldl (fun b props => create_pseudo_values props b) b (preorder i).
Proof.
  revert b. induction i as [props subs IH] using SecTree_all_ind.
  intros b. cbn [EditorTab.parse_section preorder foldl].
  generalize (create_pseudo_values props b). clear b.
  induction IH as [|j subs Hj _ IHs]; intros b; [done|].
  rewrite foldl_app, <- Hj. apply IHs.
Qed.

(** X7.  [parse_properties] calls [create_pseudo_values] once for every
    section of the tree, whatever its depth: a section before the sections
    below it, and these from left to right. *)
Theorem parse_properties_visits_every_section odml_sections b :
  EditorTab.parse_properties odml_sections b
  = foldl (fun b props => create_pseudo_values props b) b
      (mjoin (preorder <$> odml_sections)).
Proof.
  unfold EditorTab.parse_properties. revert b.
  induction odml_sections as [|i l IH]; intros b; [done|].
  cbn [foldl fmap list_fmap mjoin list_join]. rewrite foldl_app.
  rewrite <- parse_section_preorder. apply IH.
Qed.

End MoreLegacy.

Section LinksFrame.
Context `{Helpers, Gtk}.

Lemma same_links_refl st : same_links st st.
Proof. by split. Qed.

Lemma same_links_trans st1 st2 st3 :
  same_links st1 st2 -> same_links st2 st3 -> same_links st1 st3.
Proof.
  intros (L1 & T1) (L2 & T2). split; [congruence|].
  intros t. by rewrite T2, T1.
Qed.

Lemma keeps_links_bind {A B} (m : M A) (k : A -> M B) :
  keeps_links m -> (forall a, keeps_links (k a)) -> keeps_links (m ≫= k).
Proof.
  intros Hm Hk st. unfold mbind, M_bind.
  specialize (Hm st). destruct (m st) as [a st'|e st']; simpl in Hm; [|done].
  eapply same_links_trans; [exact Hm|apply Hk].
Qed.

Lemma keeps_links_ret {A} (a : A) : keeps_links (mret a).
Proof. intros st. apply same_links_refl. Qed.

Lemma keeps_links_raise {A} e : keeps_links (@raise _ A e).
Proof. intros st. apply same_links_refl. Qed.

Lemma keeps_links_get_state : keeps_links get_state.
Proof. intros st. apply same_links_refl. Qed.

Lemma keeps_links_deref {A} (heap : State -> gmap nat A) r :
  keeps_links (deref heap r).
Proof. intros st. unfold deref. destruct (heap st !! r); apply same_links_refl. Qed.

Lemma keeps_links_the_document t : keeps_links (the_document t).
Proof.
  unfold the_document. destruct (document t);
    [apply keeps_links_ret|apply keeps_links_raise].
Qed.

Lemma keeps_links_modify f :
  (forall st, lists (f st) = lists st /\ tabs (f st) = tabs st) ->
  keeps_links (modify f).
Proof. intros Hf st. destruct (Hf st) as [Hl Ht]. split; simpl; [done|]. by rewrite Ht. Qed.

Lemma keeps_links_alloc : keeps_links alloc.
Proof. intros st. by split. Qed.

Lemma keeps_links_update_tab r f :
  (forall x, links (f x) = links x) -> keeps_links (update_tab r f).
Proof.
  intros Hf st. unfold update_tab, the_tab, deref, mbind, M_bind.
  destruct (tabs st !! r) as [x|] eqn:E; [|apply same_links_refl].
  split; simpl; [done|]. intros t.
  destruct (decide (r = t)) as [->|N].
  - by rewrite lookup_insert_eq, E; simpl; rewrite Hf.
  - by rewrite lookup_insert_ne.
Qed.

Lemma keeps_links_for_each {A} (xs : list A) (body : A -> M unit) :
  (forall x, keeps_links (body x)) -> keeps_links (for_each xs body).
Proof.
  intros Hb. induction xs as [|x xs IH]; simpl.
  - apply keeps_links_ret.
  - apply keeps_links_bind; [apply Hb|]. intros _. apply IH.
Qed.

Ltac links_frame :=
  repeat first
  [ apply keeps_links_the_document
  | apply keeps_links_update_tab; done
  | apply keeps_links_bind
  | apply keeps_links_ret
  | apply keeps_links_raise
  | apply keeps_links_get_state
  | apply keeps_links_deref
  | apply keeps_links_alloc
  | apply keeps_links_modify; done
  | apply keeps_links_for_each
  | match goal with
    | |- forall _, keeps_links _ => intro
    | |- keeps_links (match ?x with _ => _ end) => destruct x
    end ].

Lemma keeps_links_remove_validation self :
  keeps_links (editor_tab.remove_validation self).
Proof. unfold editor_tab.remove_validation, the_tab, the_doc. links_frame. Qed.

Lemma keeps_links_validate self : keeps_links (editor_tab.validate self).
Proof.
  unfold editor_tab.validate, the_tab, the_doc, the_document.
  apply keeps_links_bind; [apply keeps_links_remove_validation|].
  links_frame.
Qed.

Lemma keeps_links_save_loop self errors rest :
  keeps_links rest -> keeps_links (editor_tab.save_loop self errors rest).
Proof.
  intros Hr. induction errors as [|err errors IH]; simpl; [done|].
  destruct (is_error err); [|done].
  unfold the_tab. links_frame; try apply keeps_links_validate.
Qed.

Lemma keeps_links_save self uri file_type :
  keeps_links (editor_tab.save self uri file_type).
Proof.
  unfold editor_tab.save, the_tab, the_doc, the_document, the_command_manager.
  apply keeps_links_bind; [apply keeps_links_remove_validation|].
  links_frame; try (apply keeps_links_save_loop; links_frame).
Qed.

Lemma keeps_links_enable_undo self enable :
  keeps_links (editor_tab.enable_undo self enable).
Proof.
  unfold editor_tab.enable_undo, editor_tab._enable_undo, the_tab, the_list.
  links_frame.
Qed.

Lemma keeps_links_enable_redo self enable :
  keeps_links (editor_tab.enable_redo self enable).
Proof.
  unfold editor_tab.enable_redo, editor_tab._enable_redo, the_tab, the_list.
  links_frame.
Qed.

Lemma keeps_links_reset self : keeps_links (editor_tab.reset self).
Proof.
  unfold editor_tab.reset, the_tab, the_command_manager.
  links_frame; first [apply keeps_links_enable_undo | apply keeps_links_enable_redo].
Qed.

Lemma group_wf_same_links st st' :
  group_wf st -> same_links st st' -> group_wf st'.
Proof.
  intros G (_ & HT) t t' tab tab' E E' Eq.
  pose proof (HT t) as Lt. pose proof (HT t') as Lt'.
  rewrite E in Lt. rewrite E' in Lt'. simpl in Lt, Lt'.
  destruct (tabs st !! t) as [x|] eqn:Ex; [|done].
  destruct (tabs st !! t') as [x'|] eqn:Ex'; [|done].
  simpl in Lt, Lt'. unfold links in Lt, Lt'.
  injection Lt as -> -> Hc. injection Lt' as -> -> Hc'.
  apply (G t t' x x' Ex Ex'). congruence.
Qed.

(** Another [edited] on a tab and other commands in a command manager do not
    touch what ties a tab to its group. *)
Lemma same_links_with_tab st t tab tab' c cm :
  tabs st !! t = Some tab ->
  links tab' = links tab ->
  same_links st (with_command_manager c cm (with_tab t tab' st)).
Proof.
  intros Ht Hc. unfold same_links.
  cbn [tabs lists with_command_manager with_tab].
  split; [reflexivity|].
  intros u. destruct (decide (t = u)) as [->|N].
  - rewrite lookup_insert_eq, Ht. simpl. by rewrite Hc.
  - by rewrite lookup_insert_ne.
Qed.

(** In every state the calls lead to, the tabs that refer to one list of
    clones have one window and one command manager. *)
Lemma reachable_group_wf cs st : reachable cs st -> group_wf st.
Proof.
  induction 1 as [files|cs st c Hr G Hcall].
  { intros t t' tab tab' E. simpl in E. by rewrite lookup_empty in E. }
  apply reachable_clones_wf in Hr as W.
  destruct c; simpl in *;
    try (eapply group_wf_same_links; [exact G|];
         first [ apply keeps_links_save | apply keeps_links_reset
               | apply keeps_links_enable_undo | apply keeps_links_enable_redo
               | apply keeps_links_validate | apply keeps_links_remove_validation
               | (by split) ]).
  - (* the constructor *)
    rewrite __init___run. simpl.
    assert (Hnew : exists tab l,
              tabs (constructed klass0 window0 cmdm st)
              = <[next_id st := tab]> (tabs st)
              /\ _clones tab = l /\ next_id st < l).
    { destruct cmdm; eexists; eexists; (split; [reflexivity|]); simpl; split; done || lia. }
    destruct Hnew as (ntab & l & HT & Hl & Hlt).
    intros t t' tab tab' E E' Eq. rewrite HT in E, E'.
    assert (Hold : forall u x, tabs st !! u = Some x -> u <> next_id st /\ _clones x <> l).
    { intros u x Eu. split.
      - apply (wf_tab_fresh _ _ W) in Eu. lia.
      - destruct (wf_tab_list _ _ W _ _ Eu) as [xs Exs].
        apply (wf_list_fresh _ _ W) in Exs. lia. }
    destruct (decide (next_id st = t)) as [<-|N];
      destruct (decide (next_id st = t')) as [<-|N'].
    + rewrite lookup_insert_eq in E, E'. by simplify_eq.
    + rewrite lookup_insert_eq in E. rewrite lookup_insert_ne in E' by done.
      destruct (Hold _ _ E'). simplify_eq; congruence.
    + rewrite lookup_insert_eq in E'. rewrite lookup_insert_ne in E by done.
      destruct (Hold _ _ E). simplify_eq; congruence.
    + rewrite lookup_insert_ne in E, E' by done. by eapply G.
  - eapply group_wf_same_links; [exact G|].
    unfold editor_tab.new, the_tab. links_frame.
  - eapply group_wf_same_links; [exact G|].
    unfold editor_tab.load, the_tab. links_frame.
  - eapply group_wf_same_links; [exact G|].
    unfold editor_tab.is_modified, the_tab, the_command_manager. links_frame.
  - (* clone *)
    destruct Hcall as [me Hme]. unfold callable in *. simpl in *.
    destruct (wf_tab_list _ _ W _ _ Hme) as [clones Hclones].
    rewrite (clone_run _ _ _ _ _ Hme Hclones)
      by (apply (wf_list_fresh _ _ W) in Hclones; lia).
    simpl. intros t t' tab tab' E E' Eq.
    unfold cloned in E, E'. cbn [tabs with_tab with_list bump] in E, E'.
    assert (Hold : forall u x, tabs st !! u = Some x -> u <> next_id st)
      by (intros u x Eu; apply (wf_tab_fresh _ _ W) in Eu; lia).
    destruct (decide (next_id st = t)) as [<-|N];
      destruct (decide (next_id st = t')) as [<-|N'].
    + rewrite lookup_insert_eq in E, E'. by simplify_eq.
    + rewrite lookup_insert_eq in E. rewrite lookup_insert_ne in E' by done.
      injection E as <-. simpl in *. by apply (G self t' me tab').
    + rewrite lookup_insert_eq in E'. rewrite lookup_insert_ne in E by done.
      injection E' as <-. simpl in *. by apply (G t self tab me).
    + rewrite lookup_insert_ne in E, E' by done. by eapply G.
  - eapply group_wf_same_links; [exact G|].
    unfold editor_tab.update_validation_error_objects. links_frame.
  - eapply group_wf_same_links; [exact G|].
    unfold editor_tab.get_name, the_tab. links_frame.
  - (* close *)
    destruct Hcall as [me Hme]. unfold callable in *. simpl in *.
    destruct (wf_tab_list _ _ W _ _ Hme) as [clones Hclones].
    rewrite (close_run _ _ _ _ Hme Hclones).
    by destruct (editor_tab.list_remove self clones).
Qed.

End LinksFrame.

Section MoreClones.
Context `{Helpers, Gtk}.

(** X8.  [close] on a tab that was closed before raises [ValueError] and
    changes nothing. *)
Theorem close_again_raises cs st self :
  reachable cs st ->
  call_close self ∈ cs ->
  editor_tab.close self st = Raised ValueError st.
Proof.
  intros Hr Hc. apply reachable_clones_wf in Hr as W.
  destruct (wf_closed_known _ _ W _ Hc) as [me Hme].
  destruct (wf_tab_list _ _ W _ _ Hme) as [clones Hclones].
  rewrite (close_run _ _ _ _ Hme Hclones).
  assert (Hout : self ∉ clones) by by eapply (wf_closed _ _ W self self me).
  apply list_remove_None in Hout. by rewrite Hout.
Qed.

End MoreClones.

Section MoreBroadcast.
Context `{Helpers, Gtk}.

Lemma broadcast_none call enable st xs :
  (forall u tu, u ∈ xs -> tabs st !! u = Some tu ->
                current_tab st !! window tu <> Some u) ->
  broadcast call enable st xs = [].
Proof.
  induction xs as [|u xs IH]; intros Hno; [done|].
  unfold broadcast. cbn [omap list_omap]. fold (broadcast call enable st xs).
  rewrite IH by (intros; eapply Hno; [by right|done]).
  destruct (tabs st !! u) as [tu|] eqn:Eu; [|done].
  destruct (decide _) as [Hc|]; [|done].
  exfalso. eapply Hno; [left|exact Eu|exact Hc].
Qed.

Lemma broadcast_one_window call enable st xs w :
  NoDup xs ->
  (forall u, u ∈ xs -> exists tu, tabs st !! u = Some tu /\ window tu = w) ->
  broadcast call enable st xs
  = match current_tab st !! w with
    | Some u => if decide (u ∈ xs) then [call w enable] else []
    | None => []
    end.
Proof.
  induction xs as [|u xs IH]; intros Hnd Hw.
  { destruct (current_tab st !! w); [|done].
    rewrite decide_False; [done|]. apply not_elem_of_nil. }
  apply NoDup_cons in Hnd as [Hu Hnd].
  destruct (Hw u) as (tu & Eu & <-); [left|].
  unfold broadcast. cbn [omap list_omap]. fold (broadcast call enable st xs).
  rewrite Eu. destruct (decide (current_tab st !! window tu = Some u)) as [Hc|Hc].
  - rewrite Hc. rewrite decide_True by left.
    rewrite broadcast_none; [done|].
    intros v tv Hv Ev Hcv. destruct (Hw v) as (tv' & Ev' & Ew); [by right|].
    rewrite Ev in Ev'. injection Ev' as <-. rewrite Ew, Hc in Hcv.
    injection Hcv as <-. done.
  - rewrite IH; [|done|intros; apply Hw; by right].
    destruct (current_tab st !! window tu) as [v|]; [|done].
    destruct (decide (v ∈ xs)) as [Hv|Hv].
    + rewrite decide_True; [done|by right].
    + rewrite decide_False; [done|].
      intros Hin. apply elem_of_cons in Hin as [->|Hin]; [done|done].
Qed.

(** X9.  In every state the calls lead to, the members of a tab's list of
    clones are tabs of the tab's own window with the tab's own command
    manager.  So a broadcast calls [window.enable_undo] (or [enable_redo])
    once, on that window, when the window's current tab is a member of the
    list, and not at all otherwise. *)
Theorem broadcast_calls_the_window_once cs st self me enable :
  reachable cs st ->
  tabs st !! self = Some me ->
  exists clones,
    lists st !! _clones me = Some clones
    /\ (forall u, u ∈ clones ->
          exists tu, tabs st !! u = Some tu
                     /\ window tu = window me
                     /\ command_manager tu = command_manager me)
    /\ let current := match current_tab st !! window me with
                      | Some u => bool_decide (u ∈ clones)
                      | None => false
                      end in
       editor_tab.enable_undo self enable st
       = Ok () (add_trace
                  (if current then [window_enable_undo (window me) enable] else [])
                  st)
       /\ editor_tab.enable_redo self enable st
          = Ok () (add_trace
                     (if current then [window_enable_redo (window me) enable] else [])
                     st).
Proof.
  intros Hr Hme. apply reachable_clones_wf in Hr as W.
  apply reachable_group_wf in Hr as G.
  destruct (wf_tab_list _ _ W _ _ Hme) as [clones Hclones].
  assert (Hmem : forall u, u ∈ clones ->
            exists tu, tabs st !! u = Some tu /\ window tu = window me
                       /\ command_manager tu = command_manager me).
  { intros u Hu.
    destruct (wf_members _ _ W _ _ _ _ Hme Hclones Hu) as (tu & Etu & Eq).
    exists tu. split; [done|]. by apply (G u self tu me). }
  assert (Hall : forall u, u ∈ clones -> is_Some (tabs st !! u))
    by (intros u Hu; destruct (Hmem u Hu) as (tu & -> & _); by eexists).
  assert (Hw : forall u, u ∈ clones ->
            exists tu, tabs st !! u = Some tu /\ window tu = window me)
    by (intros u Hu; destruct (Hmem u Hu) as (tu & ? & ? & _); eauto).
  assert (Hnd : NoDup clones) by by eapply wf_nodup.
  exists clones. split; [done|]. split; [done|]. cbv zeta. split.
  - rewrite (enable_undo_run _ _ _ _ _ Hme Hclones Hall).
    rewrite (broadcast_one_window _ _ _ _ _ Hnd Hw).
    destruct (current_tab st !! window me); [|done].
    by destruct (decide _); [rewrite bool_decide_eq_true_2|rewrite bool_decide_eq_false_2].
  - rewrite (enable_redo_run _ _ _ _ _ Hme Hclones Hall).
    rewrite (broadcast_one_window _ _ _ _ _ Hnd Hw).
    destruct (current_tab st !! window me); [|done].
    by destruct (decide _); [rewrite bool_decide_eq_true_2|rewrite bool_decide_eq_false_2].
Qed.

(** X10.  A clone takes over the window, the command manager, the document
    and the [file_uri] of the tab it is made from, but starts with [edited]
    at 0, whatever the [edited] of that tab.  So the clone counts as modified
    exactly when the shared command manager holds a command, also when the
    tab it was made from does not.  The existing tabs, the documents, the
    command managers and the trace are as before.  The state is any
    well-formed one, whatever the [edited] counters and the commands in
    it. *)
Theorem clone_starts_unsaved cs st self me cm klass' :
  clones_wf cs st ->
  tabs st !! self = Some me ->
  command_managers st !! command_manager me = Some cm ->
  exists st',
    editor_tab.clone self klass' st = Ok (next_id st) st'
    /\ tabs st'
       = <[next_id st :=
             mkTab (default (klass me) klass') (window me) (command_manager me)
               (document me) (file_uri me) 0 (_clones me)]> (tabs st)
    /\ tabs st !! next_id st = None
    /\ documents st' = documents st
    /\ command_managers st' = command_managers st
    /\ trace st' = trace st
    /\ exists b,
        editor_tab.is_modified (next_id st) st' = Ok b st'
        /\ (b = true <-> commands cm <> []).
Proof.
  intros W Hme Hcm.
  destruct (wf_tab_list _ _ W _ _ Hme) as [clones Hclones].
  eexists. split.
  { apply (clone_run _ _ _ _ _ Hme Hclones).
    apply (wf_list_fresh _ _ W) in Hclones. lia. }
  split; [done|]. split.
  { destruct (tabs st !! next_id st) as [x|] eqn:E; [|done].
    apply (wf_tab_fresh _ _ W) in E. lia. }
  do 3 (split; [done|]).
  eexists. split.
  - apply (is_modified_run _
             (mkTab (default (klass me) klass') (window me) (command_manager me)
                (document me) (file_uri me) 0 (_clones me)) cm).
    + unfold cloned. cbn [tabs with_tab]. apply lookup_insert_eq.
    + done.
  - cbn [edited]. unfold CommandManager__len__.
    destruct (commands cm); simpl; [split; [done|by intros []]|done].
Qed.

(** X11.  [reset] on one tab empties the command manager it shares with
    the other tabs of its group and leaves their [edited] alone.  So such a
    tab counts as modified afterwards exactly when its [edited] is not 0,
    whatever it was before: a clone that was saved after the last command
    counts as modified again.  The state is any well-formed one, whatever the
    [edited] counters and the commands in it. *)
Theorem reset_reaches_the_group cs st self me cm u tu :
  clones_wf cs st ->
  group_wf st ->
  tabs st !! self = Some me ->
  command_managers st !! command_manager me = Some cm ->
  tabs st !! u = Some tu ->
  u <> self ->
  _clones tu = _clones me ->
  exists st',
    editor_tab.reset self st = Ok () st'
    /\ tabs st' !! u = Some tu
    /\ command_manager tu = command_manager me
    /\ command_managers st' !! command_manager tu = Some (CommandManager_reset cm)
    /\ commands (CommandManager_reset cm) = []
    /\ exists b,
        editor_tab.is_modified u st' = Ok b st'
        /\ (b = true <-> edited tu <> 0).
Proof.
  intros W G Hme Hcm Hu Hne Hsame.
  destruct (G u self tu me Hu Hme Hsame) as [_ Hshare].
  destruct (wf_tab_list _ _ W _ _ Hme) as [clones Hclones].
  assert (Hall : forall v, v ∈ clones -> is_Some (tabs st !! v)).
  { intros v Hv.
    destruct (wf_members _ _ W _ _ _ _ Hme Hclones Hv) as (tv & -> & _).
    by eexists. }
  destruct (reset_run _ _ _ _ _ Hme Hcm Hclones Hall) as [es Hreset].
  eexists. split; [exact Hreset|].
  assert (Hu' : tabs (add_trace es
                   (with_command_manager (command_manager me)
                      (CommandManager_reset cm)
                      (with_tab self (set_edited 0 me) st))) !! u = Some tu).
  { cbn [tabs add_trace with_command_manager with_tab].
    by rewrite lookup_insert_ne. }
  assert (Hcm' : command_managers (add_trace es
                   (with_command_manager (command_manager me)
                      (CommandManager_reset cm)
                      (with_tab self (set_edited 0 me) st)))
                   !! command_manager tu = Some (CommandManager_reset cm)).
  { cbn [command_managers add_trace with_command_manager with_tab].
    rewrite Hshare. apply lookup_insert_eq. }
  split; [exact Hu'|]. split; [done|]. split; [exact Hcm'|]. split; [done|].
  eexists. split.
  - apply (is_modified_run _ _ (CommandManager_reset cm) _ Hu' Hcm').
  - change (CommandManager__len__ (CommandManager_reset cm)) with 0.
    rewrite negb_true_iff. apply Nat.eqb_neq.
Qed.

(** X12.  A [save] that wrote the document marks the saving tab only: the
    other tabs, also those that share its document and command manager, keep
    their [edited], and [is_modified] answers for them what it answered
    before. *)
Theorem save_marks_the_saving_tab_only
    self uri file_type me d doc cm written u tu st :
  tabs st !! self = Some me ->
  document me = Some d ->
  documents st !! d = Some doc ->
  command_managers st !! command_manager me = Some cm ->
  existsb is_error (Validation (body doc)) = false ->
  odml_save (disk st) (clean (body doc))
    (editor_tab.save_file_path uri file_type)
    (editor_tab.save_parser uri file_type) = inr written ->
  tabs st !! u = Some tu ->
  u <> self ->
  command_manager tu = command_manager me ->
  exists st',
    editor_tab.save self uri file_type st = Ok (Some true) st'
    /\ tabs st' !! u = Some tu
    /\ editor_tab.is_modified u st
       = Ok (negb (Nat.eqb (edited tu) (CommandManager__len__ cm))) st
    /\ editor_tab.is_modified u st'
       = Ok (negb (Nat.eqb (edited tu) (CommandManager__len__ cm))) st'.
Proof.
  intros Hme Hd Hdoc Hcm Hvalid Hwrite Hu Hne Hshare.
  pose proof (save_run self uri file_type me d doc cm st Hme Hd Hdoc Hcm) as Hsave.
  cbv zeta in Hsave. rewrite Hvalid, Hwrite in Hsave.
  destruct Hsave as (st' & Hsave & Hdisk & Htabs & Hdocs & Hcm').
  assert (Hu' : tabs st' !! u = Some tu) by (by rewrite Htabs, lookup_insert_ne).
  exists st'. split; [done|]. split; [done|]. split.
  - apply is_modified_run; [done|by rewrite Hshare].
  - apply is_modified_run; [done|by rewrite Hcm', Hshare].
Qed.

End MoreBroadcast.

Section MoreLoad.
Context `{Helpers, Gtk}.

(** X13.  [load] never resets the edit state: whether the file parses or
    not, the tab's [edited], window, command manager and list of clones and
    all command managers are as before, so [is_modified] answers as before.
    When the file parses, [load] returns [True], the tab holds a new
    document object — the loaded contents, finalized, with its sections
    imported — and every document object that existed is untouched, so the
    clones of the tab keep the document they had. *)
Theorem load_keeps_the_edit_state self uri tab cm st :
  tabs st !! self = Some tab ->
  command_managers st !! command_manager tab = Some cm ->
  let file_path := uri_to_path uri in
  let parser := get_parser_for_uri file_path in
  exists b st' tab',
    editor_tab.load self uri st = Ok b st'
    /\ tabs st' = <[self := tab']> (tabs st)
    /\ file_uri tab' = Some uri
    /\ edited tab' = edited tab
    /\ links tab' = links tab
    /\ klass tab' = klass tab
    /\ command_managers st' = command_managers st
    /\ lists st' = lists st
    /\ disk st' = disk st
    /\ editor_tab.is_modified self st'
       = Ok (negb (Nat.eqb (edited tab) (CommandManager__len__ cm))) st'
    /\ match odml_load (disk st) file_path parser with
       | inl _ =>
           b = false /\ document tab' = document tab
           /\ documents st' = documents st
       | inr loaded =>
           b = true /\ document tab' = Some (next_id st)
           /\ documents st'
              = <[next_id st :=
                    mkDocument _
                      (for_sections handle_section_import (finalize loaded))
                      None None]> (documents st)
       end.
Proof.
  intros Ht Hcm file_path parser.
  unfold editor_tab.load. mrun. fold file_path parser.
  destruct (odml_load (disk st) file_path parser) as [[|text]|loaded]; mrun.
  - eexists _, _, (set_file_uri (Some uri) tab).
    split; [reflexivity|]. do 8 (split; [done|]). split; [|done].
    apply (is_modified_run self (set_file_uri (Some uri) tab) cm);
      [apply lookup_insert_eq|done].
  - eexists _, _, (set_file_uri (Some uri) tab).
    split; [reflexivity|]. do 8 (split; [done|]). split; [|done].
    apply (is_modified_run self (set_file_uri (Some uri) tab) cm);
      [apply lookup_insert_eq|done].
  - eexists _, _, (set_document (Some (next_id st)) (set_file_uri (Some uri) tab)).
    split; [reflexivity|].
    split; [cbn [tabs add_trace with_doc with_tab bump]; by rewrite insert_insert_eq|].
    do 7 (split; [done|]). split.
    + apply (is_modified_run self
               (set_document (Some (next_id st)) (set_file_uri (Some uri) tab)) cm);
        [apply lookup_insert_eq|done].
    + split; [done|]. split; [done|].
      cbn [documents add_trace with_doc with_tab bump].
      by rewrite !insert_insert_eq.
Qed.

(** X14.  When the group already holds a mapped tab, [clone_mapping]
    returns a clone of the first mapped tab of the list: a new
    [MappingEditorTab] with that tab's document, appended to that tab's list.
    No mapping document is made, and no call leaves the module. *)
Theorem clone_mapping_reuses_the_mapped_tab self me clones before mapped after tm st :
  tabs st !! self = Some me ->
  lists st !! _clones me = Some clones ->
  clones = before ++ mapped :: after ->
  (forall x, x ∈ before -> EditorTab.is_mapping st x = false) ->
  tabs st !! mapped = Some tm ->
  klass tm = MappingEditorTab_class ->
  _clones tm = _clones me ->
  _clones me <> S (next_id st) ->
  exists st',
    EditorTab.clone_mapping self st = Ok (next_id st) st'
    /\ tabs st'
       = <[next_id st :=
             mkTab MappingEditorTab_class (window tm) (command_manager tm)
               (document tm) (file_uri tm) 0 (_clones me)]> (tabs st)
    /\ lists st' !! _clones me = Some (clones ++ [next_id st])
    /\ documents st' = documents st
    /\ trace st' = trace st.
Proof.
  intros Hme Hclones Hsplit Hbefore Hm Hk Hsame Hfresh.
  rewrite (clone_mapping_run _ _ _ _ Hme Hclones).
  assert (Hhead : head (filter (fun x => EditorTab.is_mapping st x = true) clones)
                  = Some mapped).
  { rewrite Hsplit, filter_app.
    assert (Hnil : filter (fun x => EditorTab.is_mapping st x = true) before = []).
    { clear -Hbefore. induction before as [|x l IH]; [done|].
      rewrite filter_cons. rewrite decide_False.
      - apply IH. intros y Hy. apply Hbefore. by right.
      - rewrite (Hbefore x) by left. done. }
    rewrite Hnil. simpl. rewrite filter_cons, decide_True; [done|].
    unfold EditorTab.is_mapping. rewrite Hm. by apply bool_decide_eq_true_2. }
  rewrite Hhead. unfold EditorTab.clone.
  rewrite <- Hsame in Hclones, Hfresh.
  rewrite (clone_run _ _ _ _ _ Hm Hclones Hfresh).
  eexists. split; [reflexivity|]. rewrite Hk, <- Hsame. simpl.
  split; [done|]. split; [|done].
  unfold cloned. cbn [lists with_tab with_list bump]. apply lookup_insert_eq.
Qed.

(** [posixpath.basename] of a path that ends in a name without a slash. *)
Lemma basename_aux_plain name acc :
  (forall c, c ∈ list_ascii_of_string name -> c <> "/"%char) ->
  Py.basename_aux name acc = acc.
Proof.
  revert acc. induction name as [|c name IH]; intros acc Hno; [done|].
  simpl. rewrite (proj2 (Ascii.eqb_neq c "/"%char)) by (apply Hno; left).
  apply IH. intros c' Hc'. apply Hno. by right.
Qed.

Lemma basename_of_path dir name :
  (forall c, c ∈ list_ascii_of_string name -> c <> "/"%char) ->
  Py.basename (dir +:+ "/" +:+ name) = name.
Proof.
  intros Hno. unfold Py.basename.
  generalize (dir +:+ "/" +:+ name) at 2. induction dir as [|c dir IH]; intros acc.
  - simpl. by apply basename_aux_plain.
  - simpl. destruct (Ascii.eqb c "/"%char); apply IH.
Qed.

Lemma get_name_run self tab st :
  tabs st !! self = Some tab ->
  editor_tab.get_name self st = Ok (Py.basename (Py.str (file_uri tab))) st.
Proof. intros Ht. unfold editor_tab.get_name. by mrun. Qed.

Lemma legacy_get_name_run self tab st :
  tabs st !! self = Some tab ->
  EditorTab.get_name self st
  = Ok (match klass tab with
        | EditorTab_class => Py.basename (Py.str (file_uri tab))
        | MappingEditorTab_class =>
            Py.cat ["map: "; Py.basename (Py.str (file_uri tab))]
        end) st.
Proof.
  intros Ht. unfold EditorTab.get_name.
  rewrite (bind_Ok _ _ _ _ _ (deref_Some tabs _ _ _ Ht)).
  destruct (klass tab).
  - by apply get_name_run.
  - unfold EditorTab.MappingEditorTab_get_name, EditorTab.EditorTab_get_name.
    by rewrite (bind_Ok _ _ _ _ _ (get_name_run _ _ _ Ht)).
Qed.

Lemma append_nil_r (s : string) : s +:+ "" = s.
Proof.
  induction s as [|c s IH]; [done|].
  change (String c (s +:+ "") = String c s). by rewrite IH.
Qed.

(** X15.  [get_name] answers the part of [file_uri] after its last slash,
    the word "None" for a tab without [file_uri], and for a mapped tab the
    same behind "map: "; it leaves the state alone. *)
Theorem get_name_is_the_file_name self tab st :
  tabs st !! self = Some tab ->
  (file_uri tab = None ->
   EditorTab.get_name self st
   = Ok (if decide (klass tab = MappingEditorTab_class) then "map: None" else "None") st)
  /\ (forall dir name,
        file_uri tab = Some (dir +:+ "/" +:+ name) ->
        (forall c, c ∈ list_ascii_of_string name -> c <> "/"%char) ->
        editor_tab.get_name self st = Ok name st
        /\ EditorTab.get_name self st
           = Ok (if decide (klass tab = MappingEditorTab_class)
                 then "map: " +:+ name else name) st).
Proof.
  intros Ht. rewrite (legacy_get_name_run _ _ _ Ht), (get_name_run _ _ _ Ht).
  split.
  - intros ->. by destruct (klass tab).
  - intros dir name -> Hno. cbn [Py.str]. rewrite (basename_of_path _ _ Hno).
    split; [done|]. destruct (klass tab); [done|].
    rewrite decide_True by done. unfold Py.cat. cbn [foldr].
    by rewrite append_nil_r.
Qed.

End MoreLoad.

(** ** Saving with the earlier version, and converting *)

Example splitext_examples :
  PyPath.splitext "a/b.c/file.tar.gz" = ("a/b.c/file.tar", ".gz")
  /\ PyPath.splitext ".bashrc" = (".bashrc", "")
  /\ PyPath.splitext "dir.d/name" = ("dir.d/name", "")
  /\ PyPath.splitext "..x" = ("..x", "")
  /\ PyPath.splitext "..x.y" = ("..x", ".y")
  /\ PyPath.dirname "/a/b/c.xml" = "/a/b"
  /\ PyPath.dirname "c.xml" = ""
  /\ PyPath.dirname "//c.xml" = "//"
  /\ PyPath.dirname "a//c.xml" = "a"
  /\ PyPath.join "/a/b" "c" = "/a/b/c"
  /\ PyPath.join "" "c" = "c"
  /\ PyPath.join "a/" "c" = "a/c"
  /\ PyPath.join "a" "/c" = "/c".
Proof. vm_compute. repeat split. Qed.


Section MoreSave.
Context `{Helpers, Gtk, !OdmlTools}.

Lemma EditorTab_save_loop_run self errors rest st :
  EditorTab_save_loop self errors rest st
  = if existsb is_error errors
    then (tab ← the_tab self;
          emit (invalid_notice (window tab)) ;;
          EditorTab.validate self ;;
          mret None) st
    else rest st.
Proof.
  induction errors as [|err errors IH]; simpl; [done|].
  destruct (is_error err); simpl; [done|]. apply IH.
Qed.

(** X16.  The [save] of [EditorTab.py] guards the file like the one of
    [editor_tab.py]: on a document with an error both return [None] in the
    same state, up to the class of the validation window they open, and
    neither touches the disk.  Without an error the earlier [save] hands the
    cleaned document to the writer; when that succeeds it returns [True],
    sets [edited] to the length of the command manager, and leaves the
    document finalized but, unlike the later version, without importing its
    sections again. *)
Theorem legacy_save_guards_alike self uri file_type tab d doc cm st :
  tabs st !! self = Some tab ->
  document tab = Some d ->
  documents st !! d = Some doc ->
  command_managers st !! command_manager tab = Some cm ->
  let errors := Validation (body doc) in
  if existsb is_error errors then
    erase (EditorTab_save self uri st)
    = erase (editor_tab.save self uri file_type st)
    /\ exists st', EditorTab_save self uri st = Ok None st' /\ disk st' = disk st
  else
    match ODMLWriter_write_file (disk st) (get_parser_for_uri uri)
            (clean (body doc)) (EditorTab_save_file_path uri) with
    | inl e =>
        exists st',
          EditorTab_save self uri st = Ok None st'
          /\ disk st' = disk st /\ tabs st' = tabs st
    | inr written =>
        exists st',
          EditorTab_save self uri st = Ok (Some true) st'
          /\ disk st' = written
          /\ tabs st' = <[self := set_edited (CommandManager__len__ cm) tab]> (tabs st)
          /\ documents st'
             = <[d := mkDocument _ (finalize (clean (body doc))) (Some errors)
                        (_proxy_obj doc)]> (documents st)
    end.
Proof.
  intros Ht Hd Hdoc Hcm errors.
  set (checked := add_trace (dangling_events doc)
                    (with_doc d (set_validation_result (Some errors) doc) st)).
  assert (Ht' : tabs checked !! self = Some tab) by done.
  assert (Hdoc' : documents checked !! d
                  = Some (set_validation_result (Some errors) doc))
    by apply lookup_insert_eq.
  unfold EditorTab_save.
  change (EditorTab.remove_validation self) with (editor_tab.remove_validation self).
  rewrite (bind_Ok _ _ _ _ _ (remove_validation_run _ _ _ _ _ Ht Hd Hdoc)).
  rewrite (without_validation_eq _ _ _ Hdoc). mrun. cbv zeta.
  rewrite ?with_doc_add_trace, ?with_doc_with_doc. fold errors. fold checked.
  rewrite EditorTab_save_loop_run.
  destruct (existsb is_error errors) eqn:Hex.
  - set (noticed := add_trace [invalid_notice (window tab)] checked).
    assert (Hn : forall k : unit -> M (option bool),
              (emit (invalid_notice (window tab)) ≫= k) checked = k () noticed)
      by done.
    pose proof (validate_run self tab d _ noticed Ht' Hd Hdoc') as Hv.
    pose proof (legacy_validate_run self tab d _ noticed Ht' Hd Hdoc') as Hl.
    cbv zeta in Hv, Hl. cbn [body set_validation_result] in Hv, Hl.
    fold errors in Hv, Hl.
    destruct errors as [|err errs] eqn:He; [discriminate|].
    rewrite (bind_Ok _ _ _ _ _ (deref_Some tabs _ _ _ Ht')), Hn.
    rewrite (bind_Ok _ _ _ _ _ Hl).
    assert (Hcur : editor_tab.save self uri file_type st
      = Ok None
          (add_trace
             (dangling_events (set_validation_result (Some (err :: errs)) doc)
              ++ error_events (err :: errs)
              ++ [ValidationWindow_show (window_for self tab (err :: errs))])
             (with_doc d
                (set_validation_result (Some (err :: errs))
                   (set_validation_result (Some (err :: errs)) doc))
                noticed))).
    { unfold editor_tab.save.
      rewrite (bind_Ok _ _ _ _ _ (remove_validation_run _ _ _ _ _ Ht Hd Hdoc)).
      rewrite (without_validation_eq _ _ _ Hdoc). mrun. cbv zeta.
      rewrite ?with_doc_add_trace, ?with_doc_with_doc. fold errors.
      rewrite He. fold checked.
      rewrite save_loop_run, Hex.
      rewrite (bind_Ok _ _ _ _ _ (deref_Some tabs _ _ _ Ht')), Hn.
      by rewrite (bind_Ok _ _ _ _ _ Hv). }
    rewrite Hcur. split.
    + unfold mret, M_ret, erase, erase_state.
      cbn [trace add_trace with_doc tabs lists documents command_managers
           current_tab disk next_id].
      do 2 f_equal. rewrite !fmap_app. do 3 f_equal.
      cbn [fmap list_fmap erase_effect]. by rewrite window_for_tab.
    + eexists. split; [reflexivity|done].
  - subst checked. mrun.
    destruct (ODMLWriter_write_file _ _ _ _) as [e|written]; mrun.
    + eexists. split; [reflexivity|]. split; reflexivity.
    + eexists. split; [reflexivity|]. split; [reflexivity|]. split; [reflexivity|].
      cbn [documents with_doc with_tab with_disk add_trace].
      rewrite !insert_insert_eq. reflexivity.
Qed.

End MoreSave.

Section MoreConvert.
Context `{Helpers, Gtk, !OdmlTools}.

Lemma list_ascii_app a b :
  list_ascii_of_string (a +:+ b) = list_ascii_of_string a ++ list_ascii_of_string b.
Proof.
  induction a as [|c a IH]; [done|].
  change (c :: list_ascii_of_string (a +:+ b)
          = c :: (list_ascii_of_string a ++ list_ascii_of_string b)).
  by rewrite IH.
Qed.

Lemma string_of_app a b :
  string_of_list_ascii (a ++ b) = string_of_list_ascii a +:+ string_of_list_ascii b.
Proof.
  induction a as [|c a IH]; [done|].
  change (String c (string_of_list_ascii (a ++ b))
          = String c (string_of_list_ascii a +:+ string_of_list_ascii b)).
  by rewrite IH.
Qed.

Lemma basename_aux_slash_free s acc :
  (slash_free s /\ Py.basename_aux s acc = acc)
  \/ slash_free (Py.basename_aux s acc).
Proof.
  revert acc. induction s as [|c s IH]; intros acc.
  - left. split; [|done]. intros c Hc. by apply elem_of_nil in Hc.
  - simpl. destruct (Ascii.eqb c "/"%char) eqn:Ec.
    + right. destruct (IH s) as [[Hs ->]|Hs]; done.
    + destruct (IH acc) as [[Hs Hr]|Hs]; [left|by right].
      split; [|done]. intros x Hx. simpl in Hx.
      apply elem_of_cons in Hx as [->|Hx]; [by apply Ascii.eqb_neq|by apply Hs].
Qed.

Lemma basename_slash_free p : slash_free (Py.basename p).
Proof.
  unfold Py.basename. destruct (basename_aux_slash_free p p) as [[Hs ->]|Hs]; done.
Qed.

Lemma basename_after_slash h n acc :
  slash_free n ->
  last (list_ascii_of_string h) = Some "/"%char ->
  Py.basename_aux (h +:+ n) acc = n.
Proof.
  intros Hn. revert acc. induction h as [|c h IH]; intros acc Hlast; [done|].
  change (Py.basename_aux (String c (h +:+ n)) acc = n). simpl.
  destruct h as [|c' h'].
  - simpl in Hlast. injection Hlast as ->. simpl. by apply basename_aux_plain.
  - assert (Hl : last (list_ascii_of_string (String c' h')) = Some "/"%char)
      by (by rewrite <- Hlast).
    destruct (Ascii.eqb c "/"%char); by apply IH.
Qed.

Lemma basename_join h n :
  slash_free n -> Py.basename (PyPath.join h n) = n.
Proof.
  intros Hn. unfold PyPath.join.
  assert (Hplain : match n with String "/" _ => False | _ => True end).
  { destruct n as [|c n]; [done|].
    destruct (Ascii.eqb c "/"%char) eqn:Ec.
    - apply Ascii.eqb_eq in Ec as ->. exfalso. by apply (Hn "/"%char); [left|].
    - apply Ascii.eqb_neq in Ec.
      by destruct c as [[] [] [] [] [] [] [] []]. }
  assert (Hgo : Py.basename
            (if bool_decide (h = "")
                || bool_decide (last (list_ascii_of_string h) = Some "/"%char)
             then h +:+ n else h +:+ "/" +:+ n) = n).
  { destruct (bool_decide (h = "")) eqn:E1; simpl.
    - apply bool_decide_eq_true_1 in E1 as ->. unfold Py.basename.
      by apply basename_aux_plain.
    - destruct (bool_decide (last _ = _)) eqn:E2.
      + apply bool_decide_eq_true_1 in E2. by apply basename_after_slash.
      + by apply basename_of_path. }
  destruct n as [|c n]; [exact Hgo|].
  by destruct c as [[] [] [] [] [] [] [] []].
Qed.

Lemma rfind_lookup c l i : PyPath.rfind c l = Some i -> l !! i = Some c.
Proof.
  revert i. induction l as [|x l IH]; intros i; simpl; [done|].
  destruct (PyPath.rfind c l) as [j|].
  - intros [= <-]. by apply IH.
  - destruct (Ascii.eqb x c) eqn:E; [|done].
    intros [= <-]. apply Ascii.eqb_eq in E. by subst.
Qed.

Lemma splitext_spec p :
  (PyPath.splitext p).1 +:+ (PyPath.splitext p).2 = p
  /\ ((PyPath.splitext p).2 = ""
      \/ exists e, (PyPath.splitext p).2 = String "." e)
  /\ (slash_free p -> slash_free (PyPath.splitext p).1).
Proof.
  unfold PyPath.splitext.
  destruct (PyPath.rfind "." (list_ascii_of_string p)) as [i|] eqn:Ei.
  2:{ simpl. split; [apply append_nil_r|]. split; [by left|done]. }
  destruct (_ && _).
  2:{ simpl. split; [apply append_nil_r|]. split; [by left|done]. }
  cbn [fst snd]. split; [|split].
  - rewrite <- string_of_app, take_drop. apply string_of_list_ascii_of_string.
  - right. apply rfind_lookup in Ei.
    rewrite (drop_S _ _ _ Ei). by eexists.
  - intros Hp c Hc. rewrite list_ascii_of_string_of_list_ascii in Hc.
    apply Hp. apply elem_of_take in Hc as (k & Hk & _). by eapply list_elem_of_lookup_2.
Qed.

Lemma append_inj_l (a b c : string) : a +:+ b = a +:+ c -> b = c.
Proof.
  induction a as [|x a IH]; [done|].
  change (String x (a +:+ b) = String x (a +:+ c) -> b = c).
  intros [= E]. by apply IH.
Qed.

Lemma new_file_name_slash_free file_path : slash_free (new_file_name file_path).
Proof.
  unfold new_file_name, Py.cat. cbn [foldr]. intros c Hc.
  rewrite list_ascii_app in Hc. apply elem_of_app in Hc as [Hc|Hc].
  - destruct (splitext_spec (Py.basename file_path)) as (_ & _ & Hfree).
    by apply (Hfree (basename_slash_free _)).
  - simpl in Hc. intros ->.
    repeat (apply elem_of_cons in Hc as [Hc|Hc]; [discriminate Hc|]).
    by apply elem_of_nil in Hc.
Qed.

(** X17.  [convert] writes the converted file under the name of the
    source, up to its extension, followed by "_converted.xml" — never the
    name of the source itself, so the source file is not the target.  When
    the converter raises, [convert] returns [False] after an error dialog and
    the tab, its [file_uri] included, is as before.  When it succeeds,
    [convert] is [load] on the converted file, so the tab's [file_uri]
    becomes the path of that file. *)
Theorem convert_writes_beside_the_source self uri tab st :
  tabs st !! self = Some tab ->
  let file_path := uri_to_path uri in
  Py.basename (new_file_path file_path) = new_file_name file_path
  /\ new_file_name file_path <> Py.basename file_path
  /\ new_file_path file_path <> file_path
  /\ match VersionConverter_write_to_file (disk st) file_path
             (new_file_path file_path) (get_parser_for_uri file_path) with
     | inl err =>
         convert self uri st
         = Ok false
             (add_trace
                [ErrorDialog (Some (window tab))
                   (Py.cat ["Error converting file '"; Py.basename file_path; "'."])
                   err] st)
     | inr written =>
         convert self uri st
         = editor_tab.load self (new_file_path file_path) (with_disk written st)
         /\ exists b st',
             convert self uri st = Ok b st'
             /\ file_uri <$> tabs st' !! self = Some (Some (new_file_path file_path))
     end.
Proof.
  intros Ht file_path.
  assert (Hbase : Py.basename (new_file_path file_path) = new_file_name file_path)
    by apply basename_join, new_file_name_slash_free.
  assert (Hname : new_file_name file_path <> Py.basename file_path).
  { unfold new_file_name, Py.cat. cbn [foldr]. intros E.
    destruct (splitext_spec (Py.basename file_path)) as (Hsplit & Hext & _).
    pose proof (eq_trans E (eq_sym Hsplit)) as E'. apply append_inj_l in E'.
    destruct Hext as [Hext|[e Hext]]; rewrite Hext in E'; discriminate E'. }
  split; [done|]. split; [done|]. split.
  { intros E. apply Hname. by rewrite <- Hbase, E. }
  unfold convert. fold file_path.
  rewrite (bind_Ok get_state _ st st st eq_refl).
  destruct (VersionConverter_write_to_file _ _ _ _) as [err|written].
  - by mrun.
  - split; [done|].
    rewrite (bind_Ok (put_disk written) _ st () (with_disk written st) eq_refl).
    unfold editor_tab.load. mrun.
    destruct (odml_load _ _ _) as [[|text]|loaded]; mrun;
      eexists; eexists; (split; [reflexivity|]);
      cbn [tabs add_trace with_doc with_tab with_disk bump];
      by rewrite lookup_insert_eq.
Qed.

End MoreConvert.

(** ** The further properties at work *)

Lemma edited_clones_group_wf :
  @group_wf Demo.demo_odml Demo.edited_clones.
Proof.
  apply (group_wf_same_links Demo.after_some_calls).
  - exact (reachable_group_wf _ _ after_some_calls_reachable).
  - apply (same_links_with_tab Demo.after_some_calls 3
             (mkTab EditorTab_class 0 1 None None 0 2)).
    + vm_compute. reflexivity.
    + reflexivity.
Qed.

Lemma remove_validation_once_witness :
  exists st' : Demo.DState,
    editor_tab.remove_validation 0 MoreDemo.validated = Ok () st'
    /\ trace st'
       = [pass_on (mkChangeContext ("_error", true) true "set") 3;
          pass_on (mkChangeContext ("_error", true) true "set") 7]
    /\ documents st' !! 3
       = Some (@mkDocument Demo.demo_odml Demo.findings None None)
    /\ st' <> MoreDemo.validated
    /\ editor_tab.remove_validation 0 st' = Ok () st'.
Proof.
  destruct (@remove_validation_once Demo.demo_odml 0 Demo.a_tab
              MoreDemo.validated eq_refl) as [_ Hdoc].
  destruct (Hdoc 3 (@mkDocument Demo.demo_odml Demo.findings
                      (Some Demo.findings) None)
              eq_refl eq_refl) as (st' & Hrun & Hst & _ & Hagain).
  exists st'. split; [exact Hrun|].
  split; [rewrite Hst; reflexivity|].
  split; [rewrite Hst; reflexivity|].
  split; [|exact Hagain].
  rewrite Hst. intros E. apply (f_equal trace) in E. discriminate E.
Defined.

Lemma validate_again_witness :
  exists st1 st2 : Demo.DState,
    @editor_tab.validate Demo.demo_odml Demo.demo_gtk 0
      (Demo.one_tab Demo.findings) = Ok () st1
    /\ @editor_tab.validate Demo.demo_odml Demo.demo_gtk 0 st1 = Ok () st2
    /\ documents st2 = documents st1.
Proof.
  destruct (@validate_again Demo.demo_odml Demo.demo_gtk 0 Demo.a_tab 3
              (@mkDocument Demo.demo_odml Demo.findings None None)
              (Demo.one_tab Demo.findings) eq_refl eq_refl eq_refl
              ltac:(discriminate))
    as (st1 & st2 & H1 & H2 & Hdocs & _).
  exists st1, st2. split; [exact H1|]. split; [exact H2|exact Hdocs].
Defined.

Lemma save_failed_write_leaves_document_cleaned_witness :
  exists st' : Demo.DState,
    @editor_tab.save Demo.demo_odml Demo.demo_helpers Demo.demo_gtk 0 "" None
      (Demo.one_tab MoreDemo.a_warning) = Ok None st'
    /\ disk st' = [].
Proof.
  eexists. split.
  - exact (@save_failed_write_leaves_document_cleaned Demo.demo_odml
             Demo.demo_helpers Demo.demo_gtk 0 "" None Demo.a_tab 3
             (@mkDocument Demo.demo_odml MoreDemo.a_warning None None)
             "no file name" (Demo.one_tab MoreDemo.a_warning)
             eq_refl eq_refl eq_refl eq_refl eq_refl).
  - reflexivity.
Defined.

Lemma on_close_removes_validation_witness :
  exists st1 : Demo.DState,
    @editor_tab.validate Demo.demo_odml Demo.demo_gtk 0
      (Demo.one_tab Demo.findings) = Ok () st1
    /\ ValidationWindow_on_close
         (@window_for Demo.demo_gtk 0 Demo.a_tab Demo.findings) (640, 480)%Z st1
       = Ok (640, 480)%Z
           (add_trace (error_events Demo.findings)
              (with_doc 3 (@mkDocument Demo.demo_odml Demo.findings None None) st1)).
Proof.
  destruct (@on_close_removes_validation Demo.demo_odml Demo.demo_gtk 0
              Demo.a_tab 3 (@mkDocument Demo.demo_odml Demo.findings None None)
              (640, 480)%Z (Demo.one_tab Demo.findings) eq_refl eq_refl eq_refl
              ltac:(discriminate))
    as (st1 & H1 & _ & H2).
  exists st1. split; [exact H1|exact H2].
Defined.

Lemma selection_finds_the_error_witness :
  ValidationView_on_selection_change (validation_window.fill MoreDemo.a_view)
    (Some 0)
  = on_select_object_called 3.
Proof.
  destruct (selection_finds_the_error MoreDemo.a_view 0
              ("<span foreground='darkgrey'>/a</span>", 0,
               "<span foreground='orange'>" +:+ validation_window.warn
               +:+ "</span> first") ltac:(vm_compute; reflexivity))
    as (err & Herr & _ & Hsel).
  vm_compute in Herr. injection Herr as <-. exact Hsel.
Defined.

Lemma after_close_reachable :
  @reachable Demo.demo_odml Demo.demo_helpers Demo.demo_gtk
    MoreDemo.calls_with_close MoreDemo.after_close.
Proof.
  apply (@reachable_exec_all Demo.demo_odml Demo.demo_helpers Demo.demo_gtk
           [] _ MoreDemo.calls_with_close
           (@reachable_initial Demo.demo_odml Demo.demo_helpers Demo.demo_gtk [])).
  vm_compute. repeat split; by eexists.
Qed.

Lemma close_again_raises_witness :
  editor_tab.close 3 MoreDemo.after_close = Raised ValueError MoreDemo.after_close.
Proof.
  apply (@close_again_raises Demo.demo_odml Demo.demo_helpers Demo.demo_gtk
           MoreDemo.calls_with_close MoreDemo.after_close 3 after_close_reachable).
  vm_compute. set_solver.
Defined.

Lemma broadcast_calls_the_window_once_witness :
  editor_tab.enable_undo 3 false Demo.after_some_calls
  = Ok () (add_trace [window_enable_undo 0 false] Demo.after_some_calls).
Proof.
  destruct (@broadcast_calls_the_window_once Demo.demo_odml Demo.demo_helpers
              Demo.demo_gtk Demo.some_calls Demo.after_some_calls 3
              (mkTab EditorTab_class 0 1 None None 0 2) false
              after_some_calls_reachable eq_refl)
    as (clones & Hclones & _ & Hundo & _).
  vm_compute in Hclones. injection Hclones as <-. exact Hundo.
Defined.

Lemma clone_starts_unsaved_witness :
  editor_tab.is_modified 3 Demo.edited_clones = Ok false Demo.edited_clones
  /\ exists st' : Demo.DState,
    editor_tab.clone 3 None Demo.edited_clones = Ok 7 st'
    /\ edited <$> tabs st' !! 7 = Some 0
    /\ editor_tab.is_modified 7 st' = Ok true st'.
Proof.
  split; [reflexivity|].
  destruct (@clone_starts_unsaved Demo.demo_odml
              Demo.some_calls Demo.edited_clones 3
              (mkTab EditorTab_class 0 1 None None 2 2)
              Demo.a_manager None
              edited_clones_wf eq_refl eq_refl)
    as (st' & Hclone & Htabs & _ & _ & _ & _ & b & Hmod & Hb).
  exists st'. split; [exact Hclone|]. split.
  - rewrite Htabs. vm_compute. reflexivity.
  - change 7 with (next_id Demo.edited_clones). rewrite Hmod. f_equal.
    apply (proj2 Hb). intros E. discriminate E.
Defined.

Lemma reset_reaches_the_group_witness :
  editor_tab.is_modified 3 Demo.edited_clones = Ok false Demo.edited_clones
  /\ exists st' : Demo.DState,
    editor_tab.reset 0 Demo.edited_clones = Ok () st'
    /\ command_managers st' !! 1 = Some (mkCommandManager [] 0 0 0)
    /\ editor_tab.is_modified 3 st' = Ok true st'.
Proof.
  split; [reflexivity|].
  destruct (@reset_reaches_the_group Demo.demo_odml
              Demo.some_calls Demo.edited_clones 0
              (mkTab EditorTab_class 0 1 None None 0 2)
              Demo.a_manager 3
              (mkTab EditorTab_class 0 1 None None 2 2)
              edited_clones_wf edited_clones_group_wf eq_refl eq_refl eq_refl
              ltac:(discriminate) eq_refl)
    as (st' & Hreset & _ & _ & Hcm & _ & b & Hmod & Hb).
  exists st'. split; [exact Hreset|]. split; [exact Hcm|].
  rewrite Hmod. f_equal. apply (proj2 Hb). intros E. discriminate E.
Defined.

Lemma save_marks_the_saving_tab_only_witness :
  exists st' : Demo.DState,
    @editor_tab.save Demo.demo_odml Demo.demo_helpers Demo.demo_gtk 0 "a.xml" None
      (MoreDemo.two_tabs MoreDemo.a_warning) = Ok (Some true) st'
    /\ editor_tab.is_modified 0 st' = Ok false st'
    /\ tabs st' !! 4 = Some MoreDemo.a_clone.
Proof.
  destruct (@save_marks_the_saving_tab_only Demo.demo_odml Demo.demo_helpers
              Demo.demo_gtk 0 "a.xml" None Demo.a_tab 3
              (@mkDocument Demo.demo_odml MoreDemo.a_warning None None)
              Demo.a_manager [("a.xml", MoreDemo.a_warning)] 4 MoreDemo.a_clone
              (MoreDemo.two_tabs MoreDemo.a_warning)
              eq_refl eq_refl eq_refl eq_refl eq_refl eq_refl eq_refl
              ltac:(discriminate) eq_refl)
    as (st' & Hsave & Hclone & _ & _).
  exists st'. split; [exact Hsave|]. split; [|exact Hclone].
  vm_compute in Hsave. injection Hsave as <-. reflexivity.
Defined.

Lemma load_keeps_the_edit_state_witness :
  exists (b : bool) (st' : Demo.DState),
    @editor_tab.load Demo.demo_odml Demo.demo_helpers 0 "b.xml"
      (Demo.one_tab Demo.findings) = Ok b st'
    /\ editor_tab.is_modified 0 st' = Ok true st'.
Proof.
  destruct (@load_keeps_the_edit_state Demo.demo_odml Demo.demo_helpers
              0 "b.xml" Demo.a_tab Demo.a_manager (Demo.one_tab Demo.findings)
              eq_refl eq_refl)
    as (b & st' & tab' & Hload & _ & _ & _ & _ & _ & _ & _ & _ & Hmod & _).
  exists b, st'. split; [exact Hload|exact Hmod].
Defined.

Lemma clone_mapping_reuses_the_mapped_tab_witness :
  exists st' : Demo.DState,
    EditorTab.clone_mapping 0 Demo.mapped = Ok 10 st'
    /\ documents st' = documents Demo.mapped.
Proof.
  destruct (@clone_mapping_reuses_the_mapped_tab Demo.demo_odml 0
              (mkTab EditorTab_class 0 1 (Some 6) (Some "b.xml") 0 2)
              [0; 4; 8] [0; 4] 8 []
              (mkTab MappingEditorTab_class 0 1 (Some 7) (Some "b.xml") 0 2)
              Demo.mapped eq_refl eq_refl eq_refl)
    as (st' & Hrun & _ & _ & Hdocs & _).
  - intros x Hx. apply elem_of_cons in Hx as [->|Hx]; [reflexivity|].
    apply list_elem_of_singleton in Hx as ->. reflexivity.
  - reflexivity.
  - reflexivity.
  - reflexivity.
  - discriminate.
  - exists st'. split; [exact Hrun|exact Hdocs].
Defined.

Lemma get_name_is_the_file_name_witness :
  EditorTab.get_name 8
    (with_tab 8
       (mkTab MappingEditorTab_class 0 1 (Some 7) (Some "/home/me/b.xml") 0 2)
       Demo.mapped)
  = Ok "map: b.xml"
      (with_tab 8
         (mkTab MappingEditorTab_class 0 1 (Some 7) (Some "/home/me/b.xml") 0 2)
         Demo.mapped).
Proof.
  destruct (@get_name_is_the_file_name Demo.demo_odml 8
              (mkTab MappingEditorTab_class 0 1 (Some 7) (Some "/home/me/b.xml") 0 2)
              (with_tab 8
                 (mkTab MappingEditorTab_class 0 1 (Some 7)
                    (Some "/home/me/b.xml") 0 2) Demo.mapped) eq_refl)
    as [_ Hname].
  destruct (Hname "/home/me" "b.xml" eq_refl) as [_ Hlegacy].
  - intros c Hc Heq. subst c. vm_compute in Hc.
    repeat (apply elem_of_cons in Hc as [Hc|Hc]; [discriminate Hc|]).
    by apply elem_of_nil in Hc.
  - exact Hlegacy.
Defined.

Lemma legacy_save_guards_alike_witness :
  exists st' : Demo.DState,
    @EditorTab_save Demo.demo_odml Demo.demo_helpers MoreDemo.demo_tools 0 "a.xml"
      (Demo.one_tab MoreDemo.a_warning) = Ok (Some true) st'
    /\ disk st' = [("a.xml", MoreDemo.a_warning)].
Proof.
  destruct (@legacy_save_guards_alike Demo.demo_odml Demo.demo_helpers
              Demo.demo_gtk MoreDemo.demo_tools 0 "a.xml" None Demo.a_tab 3
              (@mkDocument Demo.demo_odml MoreDemo.a_warning None None)
              Demo.a_manager (Demo.one_tab MoreDemo.a_warning)
              eq_refl eq_refl eq_refl eq_refl)
    as (st' & Hsave & Hdisk & _).
  exists st'. split; [exact Hsave|exact Hdisk].
Defined.

Lemma convert_writes_beside_the_source_witness :
  @new_file_path "/data/old.xml" = "/data/old_converted.xml"
  /\ @convert Demo.demo_odml Demo.demo_helpers MoreDemo.demo_tools 0 "/data/new.xml"
       (Demo.one_tab Demo.findings)
     = Ok false
         (add_trace
            [ErrorDialog (Some 0) "Error converting file 'new.xml'."
               "nothing to convert"]
            (Demo.one_tab Demo.findings)).
Proof.
  split; [reflexivity|].
  destruct (@convert_writes_beside_the_source Demo.demo_odml Demo.demo_helpers
              MoreDemo.demo_tools 0 "/data/new.xml" Demo.a_tab
              (Demo.one_tab Demo.findings) eq_refl)
    as (_ & _ & _ & Hrun).
  exact Hrun.
Defined.
